(** * next_express: the process-orchestration core of [next_express.py]

    A shallow embedding of [ProjectSetupThread] (the command runner, the
    interactive responder, the dev-server launcher and the pipeline of
    [run]) together with the text primitives of the interpreter the code
    relies on ([str.strip], [in], [str.split], [int], [re.sub]).

    Texts are modelled as [string]: one [ascii] per code point, so the model
    covers texts over the code points 0..255.  On that range the whitespace
    and digit classes below are the interpreter's.

    A run is modelled by the list of what it does that can be seen from
    outside (milestones, log entries, launches, waits, writes, the browser
    request, the result), in order.  What the children do is given by the
    world: the model covers the runs that end, so a child that neither
    writes nor closes its output, on which [readline()] would block for
    ever, has no trace here; and the text a child prints is that of the
    run at hand, answers of the program included. *)

From Stdlib Require Import Bool Arith NArith ZArith Lia List Ascii String.
From Stdlib Require Import DecimalString.
Import ListNotations.

Open Scope list_scope.
Open Scope string_scope.

(* ================================================================= *)
(** ** Text primitives of the interpreter *)

Module Text.

Definition code (c : ascii) : N := N_of_ascii c.

Definition in_range (lo hi : N) (c : ascii) : bool :=
  (lo <=? code c)%N && (code c <=? hi)%N.

(** [str.isspace] on one character: TAB..CR, FS..US, space, NEL, NBSP. *)
Definition isspace (c : ascii) : bool :=
  in_range 9 13 c || in_range 28 32 c
  || (code c =? 133)%N || (code c =? 160)%N.

Definition isdigit (c : ascii) : bool := in_range 48 57 c.

Definition digit_value (c : ascii) : Z := Z.of_N (code c) - 48.

(** [s.lstrip()], [s.rstrip()] and [s.strip()] with no argument. *)
Fixpoint lstrip (s : string) : string :=
  match s with
  | String c s' => if isspace c then lstrip s' else s
  | EmptyString => EmptyString
  end.

Fixpoint rstrip (s : string) : string :=
  match s with
  | String c s' =>
      match rstrip s' with
      | EmptyString => if isspace c then EmptyString else String c EmptyString
      | r => String c r
      end
  | EmptyString => EmptyString
  end.

Definition strip (s : string) : string := rstrip (lstrip s).

(** [sub in s] for texts. *)
Fixpoint contains (sub s : string) : bool :=
  prefix sub s ||
  match s with
  | String _ s' => contains sub s'
  | EmptyString => false
  end.

(** [s.split(sep)] for a non-empty separator: the pieces between the
    non-overlapping occurrences of [sep], scanning from the left.  [skip]
    counts the characters of an occurrence still to be passed over and
    [cur] holds the piece being read, reversed. *)
Fixpoint rev_string (acc s : string) : string :=
  match s with
  | String c s' => rev_string (String c acc) s'
  | EmptyString => acc
  end.

Fixpoint split_go (sep s : string) (skip : nat) (cur : string) : list string :=
  match s with
  | EmptyString => [rev_string "" cur]
  | String c s' =>
      match skip with
      | S k => split_go sep s' k cur
      | O =>
          if prefix sep s
          then rev_string "" cur :: split_go sep s' (String.length sep - 1)%nat ""
          else split_go sep s' 0%nat (String c cur)
      end
  end.

Definition split (sep s : string) : list string := split_go sep s 0%nat "".

(** [" ".join(parts)]. *)
Definition join (sep : string) (parts : list string) : string :=
  String.concat sep parts.

(** [s.lower()]: A..Z and the upper-case letters of 192..222 (215 is the
    multiplication sign) move up by 32. *)
Definition lower_char (c : ascii) : ascii :=
  if in_range 65 90 c || (in_range 192 222 c && negb (code c =? 215)%N)
  then ascii_of_N (code c + 32) else c.

Fixpoint lower (s : string) : string :=
  match s with
  | String c s' => String (lower_char c) (lower s')
  | EmptyString => EmptyString
  end.

(** [str(n)] for an [int]. *)
Definition str_of_int (n : Z) : string := NilZero.string_of_int (Z.to_int n).

(** The lines [readline()] returns on a text stream, in order: each one
    runs up to and includes its newline; a last line may lack it.  The
    empty text that [readline()] returns at end of file is not a line. *)
Fixpoint readlines_go (s cur : string) : list string :=
  match s with
  | EmptyString =>
      match cur with
      | EmptyString => []
      | _ => [rev_string "" cur]
      end
  | String c s' =>
      if (code c =? 10)%N
      then rev_string "" (String c cur) :: readlines_go s' ""
      else readlines_go s' (String c cur)
  end.

Definition readlines (s : string) : list string := readlines_go s "".

(** [int(s)] in base 10.  The interpreter passes over surrounding
    whitespace, takes one optional sign, then reads decimal digits in which
    single underscores may separate digits (none in front, none at the end,
    no two in a row).  A literal of more than 640 digits is refused when the
    interpreter's digit limit [max_str_digits] is set (non-zero) and
    exceeded; older interpreters have no limit, which is [0] here. *)
Inductive IntParse :=
| IntOk (n : Z)
| IntInvalid
| IntTooLong (digits : nat).

Fixpoint int_digits (s : string) (prev_underscore : bool) (acc : Z) (cnt : nat)
  : option (Z * nat) :=
  match s with
  | EmptyString => if prev_underscore then None else Some (acc, cnt)
  | String c s' =>
      if isdigit c then int_digits s' false (10 * acc + digit_value c) (S cnt)
      else if (code c =? 95)%N
           then if prev_underscore then None else int_digits s' true acc cnt
           else None
  end.

Definition int_sign (s : string) : Z * string :=
  match s with
  | String c s' =>
      if (code c =? 43)%N then (1%Z, s')
      else if (code c =? 45)%N then ((-1)%Z, s')
      else (1%Z, s)
  | EmptyString => (1%Z, s)
  end.

Definition parse_int (max_str_digits : nat) (s : string) : IntParse :=
  let (sign, body) := int_sign (strip s) in
  match body with
  | EmptyString => IntInvalid
  | String c _ =>
      if (code c =? 95)%N then IntInvalid
      else match int_digits body false 0%Z 0%nat with
           | None => IntInvalid
           | Some (n, cnt) =>
               if ((640 <? cnt) && (0 <? max_str_digits) && (max_str_digits <? cnt))%nat
               then IntTooLong cnt
               else IntOk (sign * n)
           end
  end.

(** [repr(s)]: the quote is the double quote only when [s] holds a single
    quote and no double quote; backslash and the chosen quote are escaped,
    TAB, LF and CR have their letter escapes and every other non-printable
    character (below 32, 127..160 and 173) is written [\xhh]. *)
Definition hex_digit (n : N) : ascii :=
  if (n <? 10)%N then ascii_of_N (48 + n) else ascii_of_N (87 + n).

Definition hex_escape (c : ascii) : string :=
  String "\" (String "x" (String (hex_digit (code c / 16))
                           (String (hex_digit (code c mod 16)) ""))).

Definition isprintable (c : ascii) : bool :=
  in_range 32 126 c || (in_range 161 255 c && negb (code c =? 173)%N).

Definition repr_char (quote : ascii) (c : ascii) : string :=
  if Ascii.eqb c quote || (code c =? 92)%N then String "\" (String c "")
  else if (code c =? 9)%N then "\t"
  else if (code c =? 10)%N then "\n"
  else if (code c =? 13)%N then "\r"
  else if isprintable c then String c ""
  else hex_escape c.

Fixpoint repr_body (quote : ascii) (s : string) : string :=
  match s with
  | String c s' => repr_char quote c ++ repr_body quote s'
  | EmptyString => EmptyString
  end.

Definition repr (s : string) : string :=
  let quote :=
    if contains "'" s && negb (contains (String (ascii_of_N 34) "") s)
    then ascii_of_N 34 else "'"%char in
  String quote (repr_body quote s ++ String quote "").

End Text.

(* ================================================================= *)
(** ** The regular expression of the responder *)

Module Regex.
Import Text.

(** The fragment of [re] patterns the program uses: character classes,
    sequence, alternation and the greedy star of a class. *)
Inductive re :=
| Class (p : ascii -> bool)
| Seq (a b : re)
| Alt (a b : re)
| StarClass (p : ascii -> bool).

(** Backtracking matcher in continuation style: [k] receives the text left
    after the part matched so far; the first success in the engine's
    preference order (left alternative first, longest star first) wins. *)
Fixpoint star_class (p : ascii -> bool) (s : string)
         (k : string -> option string) : option string :=
  match s with
  | String c s' =>
      if p c
      then match star_class p s' k with
           | Some r => Some r
           | None => k s
           end
      else k s
  | EmptyString => k s
  end.

Fixpoint match_k (r : re) (s : string) (k : string -> option string)
  : option string :=
  match r with
  | Class p =>
      match s with
      | String c s' => if p c then k s' else None
      | EmptyString => None
      end
  | Seq a b => match_k a s (fun s' => match_k b s' k)
  | Alt a b =>
      match match_k a s k with
      | Some x => Some x
      | None => match_k b s k
      end
  | StarClass p => star_class p s k
  end.

(** A match of [r] starting at the head of [s]: the text after the match. *)
Definition match_at (r : re) (s : string) : option string :=
  match_k r s (fun rest => Some rest).

(** [pattern.sub('', s)]: every non-overlapping match, found scanning from
    the left, is removed.  [skip] counts the characters of the current match
    still to be dropped.  (For a pattern that can match the empty text the
    engine behaves otherwise; the pattern below never does.) *)
Fixpoint sub_go (r : re) (s : string) (skip : nat) : string :=
  match s with
  | EmptyString => EmptyString
  | String c s' =>
      match skip with
      | S k => sub_go r s' k
      | O =>
          match match_at r s with
          | Some rest => sub_go r s' (String.length s - String.length rest - 1)
          | None => String c (sub_go r s' 0)
          end
      end
  end.

Definition sub_empty (r : re) (s : string) : string := sub_go r s 0.

(** Some position of [s] starts a match of [r]. *)
Fixpoint has_match (r : re) (s : string) : bool :=
  match match_at r s with
  | Some _ => true
  | None =>
      match s with
      | String _ s' => has_match r s'
      | EmptyString => false
      end
  end.

(** The pattern compiled in [run_command_with_input] and again in
    [remove_ansi_escape_sequences]:
<<
      \x1B (?: [@-Z\\-_] | \[ [0-?]* [ -/]* [@-~] )
>> *)
Definition is_esc (c : ascii) : bool := (code c =? 27)%N.
Definition is_fe (c : ascii) : bool := in_range 64 90 c || in_range 92 95 c.
Definition is_lbracket (c : ascii) : bool := (code c =? 91)%N.
Definition is_param (c : ascii) : bool := in_range 48 63 c.
Definition is_intermediate (c : ascii) : bool := in_range 32 47 c.
Definition is_final (c : ascii) : bool := in_range 64 126 c.

Definition ansi_escape : re :=
  Seq (Class is_esc)
      (Alt (Class is_fe)
           (Seq (Class is_lbracket)
                (Seq (StarClass is_param)
                     (Seq (StarClass is_intermediate)
                          (Class is_final))))).

End Regex.

Definition ESC : string := String (ascii_of_N 27) "".

(** [ProjectSetupThread.remove_ansi_escape_sequences]. *)
Definition remove_ansi_escape_sequences (text : string) : string :=
  Regex.sub_empty Regex.ansi_escape text.

(* ================================================================= *)
(** ** Processes, events and the world outside the program *)

(** The exceptions the modelled code can meet.  All are subclasses of
    [Exception], so the handlers [except Exception] catch each of them. *)
Inductive Exn :=
| PyException (msg : string)        (* raise Exception(msg) *)
| AttributeError (cls attr : string)
| IndexError (msg : string)
| ValueError (msg : string)
| OSError (msg : string).           (* a launch or a pipe that fails *)

(** [str(e)]. *)
Definition exn_str (e : Exn) : string :=
  match e with
  | PyException msg => msg
  | AttributeError cls attr =>
      "'" ++ cls ++ "' object has no attribute '" ++ attr ++ "'"
  | IndexError msg => msg
  | ValueError msg => msg
  | OSError msg => msg
  end.

(** What a launch is given: the argument vector, the working directory
    ([None] when no [cwd] is passed) and the environment overlay laid over
    [os.environ] (empty for [env=None]). *)
Record Cmd := mkCmd {
  argv : list string;
  cwd : option string;
  env : list (string * string)
}.

(** What a launched child does in one run: the text it writes to its
    standard output, the text it writes to its standard error, and its
    exit code. *)
Record Proc := mkProc {
  p_stdout : string;
  p_stderr : string;
  returncode : Z
}.

Inductive Launch :=
| LaunchError (msg : string)   (* [Popen] / [subprocess.run] raises OSError *)
| Launched (p : Proc).

(** The standard input of a child at the moment the program answers it:
    open, or broken, so that the write or the flush raises with the text
    [msg] (a child that has exited or closed its input gives
    [BrokenPipeError], an [OSError]).  A text that fits the buffer of the
    stream is only stored by [write], and it is [flush] that raises; a
    longer text makes [write] itself raise. *)
Inductive Pipe :=
| PipeOpen
| WriteFails (msg : string)
| FlushFails (msg : string).

(** Everything outside the program.
    - [w_launch]: the outcome of launching each command in this run (every
      command of the pipeline is launched at most once);
    - [w_path_join p n]: the text of [Path(p) / n] on the platform;
    - [w_dev_window]: how many lines of the dev server the wait loop of
      [start_dev_server] gets to read before its 30 second deadline has
      passed (the deadline is tested before each [readline]);
    - [w_int_max_str_digits]: the interpreter's digit limit for [int];
    - [w_stdin c n]: the standard input of the child of [c] when the
      program answers the line of index [n] (from 0) of its standard
      output.  A child that reads its answers keeps it open; the interactive
      runner never goes on to the next line before the answer is written,
      so a child that neither reads nor exits is left out. *)
Record World := mkWorld {
  w_launch : Cmd -> Launch;
  w_path_join : string -> string -> string;
  w_dev_window : nat;
  w_int_max_str_digits : nat;
  w_stdin : Cmd -> nat -> Pipe
}.

(** What the program does that is visible outside it, in order. *)
Inductive Event :=
| EProgress (s : string)             (* self.progress.emit(s) *)
| ELog (s : string)                  (* self.log_message(s); the clock prefix is left out *)
| ESpawn (c : Cmd)                   (* subprocess.Popen(...) / subprocess.run(...) *)
| EWait (c : Cmd)                    (* process.communicate() *)
| EWrite (c : Cmd) (s : string)      (* process.stdin.write(s) *)
| EFlush (c : Cmd)                   (* process.stdin.flush() *)
| ESleep (seconds : Z)               (* time.sleep(seconds) *)
| EBrowser (url : string)            (* webbrowser.open(url) *)
| EFinished (ok : bool) (msg : string). (* self.finished.emit(ok, msg) *)

(** A computation emits events and then returns a value or raises. *)
Definition M (A : Type) : Type := list Event * (Exn + A).

Definition ret {A} (a : A) : M A := ([], inr a).
Definition raise {A} (e : Exn) : M A := ([], inl e).
Definition emit (ev : Event) : M unit := ([ev], inr tt).

Definition bind {A B} (m : M A) (f : A -> M B) : M B :=
  match m with
  | (tr, inl e) => (tr, inl e)
  | (tr, inr a) => let (tr', r) := f a in ((tr ++ tr')%list, r)
  end.

(** [try: m except Exception as e: h e]. *)
Definition try_except {A} (m : M A) (h : Exn -> M A) : M A :=
  match m with
  | (tr, inl e) => let (tr', r) := h e in ((tr ++ tr')%list, r)
  | (tr, inr a) => (tr, inr a)
  end.

Notation "x <- m ;; k" := (bind m (fun x => k))
  (at level 61, m at next level, right associativity).
Notation "m ;; k" := (bind m (fun _ => k))
  (at level 61, right associativity).

Definition when (b : bool) (m : M unit) : M unit := if b then m else ret tt.

(** [for x in xs: body x], without [break]. *)
Fixpoint for_each {A} (xs : list A) (body : A -> M unit) : M unit :=
  match xs with
  | [] => ret tt
  | x :: xs' => body x ;; for_each xs' body
  end.

Definition trace {A} (m : M A) : list Event := fst m.
Definition outcome {A} (m : M A) : Exn + A := snd m.

Definition log_message (message : string) : M unit := emit (ELog message).
Definition progress (message : string) : M unit := emit (EProgress message).

(** Launching a child: the event, then the child of this run or the
    launch error. *)
Definition popen (w : World) (c : Cmd) : M Proc :=
  emit (ESpawn c) ;;
  match w_launch w c with
  | LaunchError msg => raise (OSError msg)
  | Launched p => ret p
  end.

Definition nonempty (s : string) : bool :=
  match s with EmptyString => false | _ => true end.

Definition LF : string := String (ascii_of_N 10) "".

(** [int(s)] as the program meets it: the value, or [ValueError]. *)
Definition py_int (w : World) (s : string) : M Z :=
  match Text.parse_int (w_int_max_str_digits w) s with
  | Text.IntOk n => ret n
  | Text.IntInvalid =>
      raise (ValueError ("invalid literal for int() with base 10: " ++ Text.repr s))
  | Text.IntTooLong d =>
      raise (ValueError
               ("Exceeds the limit ("
                  ++ Text.str_of_int (Z.of_nat (w_int_max_str_digits w))
                  ++ " digits) for integer string conversion: value has "
                  ++ Text.str_of_int (Z.of_nat d)
                  ++ " digits; use sys.set_int_max_str_digits() to increase the limit"))
  end.

(* ================================================================= *)
(** ** The configuration *)

(** The [config] dictionary built by [NextMakerGUI.create_project], one
    field per key. *)
Record Config := mkConfig {
  project_name : string;
  project_path : string;
  package_manager : string;
  use_typescript : bool;
  use_tailwind : bool;
  use_eslint : bool;
  use_src_dir : bool;
  use_app_router : bool;
  use_turbo : bool;
  custom_import_alias : bool;
  import_alias : string;
  use_redux : bool;
  use_axios : bool;
  use_router : bool;
  use_auth : bool;
  use_prisma : bool;
  use_forms : bool;
  use_query : bool;
  init_git : bool;
  build_project : bool;
  additional_deps : bool;
  open_vscode : bool;
  start_dev : bool;
  open_browser : bool;
  ui_style : string;
  ui_color : string;
  use_css_vars : bool;
  react_compat : string
}.

(* ================================================================= *)
(** ** [ProjectSetupThread] *)

(** The read loop of [run_command]: every line read is logged, stripped. *)
Definition log_line (output : string) : M unit :=
  when (nonempty output) (log_message (Text.strip output)).

(** [run_command(command, cwd, description, env)].  When the read loop
    ends the standard output is at end of file, so [communicate()] returns
    no further standard output and the whole standard error. *)
Definition run_command (w : World) (command : list string) (dir : option string)
           (description : string) (overlay : list (string * string)) : M Z :=
  let c := mkCmd command dir overlay in
  log_message ("Running: " ++ description) ;;
  process <- popen w c ;;
  for_each (Text.readlines (p_stdout process)) log_line ;;
  emit (EWait c) ;;
  let stdout := "" in
  let stderr := p_stderr process in
  when (nonempty stdout) (log_message stdout) ;;
  when (nonempty stderr) (log_message stderr) ;;
  if negb (returncode process =? 0)%Z
  then raise (PyException (description ++ " failed: " ++ stderr))
  else ret (returncode process).

(** [process.stdin.write(response)] and [process.stdin.flush()] on a
    standard input in the state [pipe]: the call, and the error it raises
    when the pipe is broken. *)
Definition stdin_write (pipe : Pipe) (c : Cmd) (response : string) : M unit :=
  emit (EWrite c response) ;;
  match pipe with
  | WriteFails msg => raise (OSError msg)
  | _ => ret tt
  end.

Definition stdin_flush (pipe : Pipe) (c : Cmd) : M unit :=
  emit (EFlush c) ;;
  match pipe with
  | FlushFails msg => raise (OSError msg)
  | _ => ret tt
  end.

(** The [for prompt, response in responses.items()] loop on one cleaned
    line; [responses] lists the items of the dictionary in its iteration
    order.  The result is the accumulation buffer after the loop. *)
Fixpoint answer_prompt (pipe : Pipe) (c : Cmd)
         (responses : list (string * string))
         (clean_output buffer : string) : M string :=
  match responses with
  | [] => ret buffer
  | (prompt, response) :: rest =>
      if Text.contains prompt clean_output
      then log_message ("Responding to prompt: " ++ prompt) ;;
           stdin_write pipe c response ;;
           stdin_flush pipe c ;;
           ret ""            (* buffer = ''; break *)
      else answer_prompt pipe c rest clean_output buffer
  end.

(** One turn of the read loop of [run_command_with_input], on a standard
    input in the state [pipe]. *)
Definition handle_output (pipe : Pipe) (c : Cmd)
           (responses : list (string * string))
           (buffer output : string) : M string :=
  if nonempty output
  then let clean_output :=
         Regex.sub_empty Regex.ansi_escape (Text.strip output) in
       log_message clean_output ;;
       answer_prompt pipe c responses clean_output (buffer ++ clean_output ++ LF)
  else ret buffer.

(** The read loop over the lines of the child, from the line of index
    [n] on. *)
Fixpoint read_and_respond (w : World) (c : Cmd)
         (responses : list (string * string))
         (buffer : string) (n : nat) (lines : list string) : M string :=
  match lines with
  | [] => ret buffer
  | output :: rest =>
      buffer' <- handle_output (w_stdin w c n) c responses buffer output ;;
      read_and_respond w c responses buffer' (S n) rest
  end.

(** [run_command_with_input(command, cwd, description, responses, env)]. *)
Definition run_command_with_input (w : World) (command : list string)
           (dir : option string) (description : string)
           (responses : list (string * string))
           (overlay : list (string * string)) : M Z :=
  let c := mkCmd command dir overlay in
  log_message ("Running: " ++ description) ;;
  process <- popen w c ;;
  _ <- read_and_respond w c responses "" 0 (Text.readlines (p_stdout process)) ;;
  emit (EWait c) ;;
  let stdout := "" in
  let stderr := p_stderr process in
  when (nonempty stdout) (log_message stdout) ;;
  when (nonempty stderr) (log_message stderr) ;;
  if negb (returncode process =? 0)%Z
  then raise (PyException (description ++ " failed: " ++ stderr))
  else ret (returncode process).

(** [subprocess.run(command, capture_output=True, text=True)]. *)
Definition subprocess_run (w : World) (command : list string) : M Proc :=
  let c := mkCmd command None [] in
  process <- popen w c ;;
  emit (EWait c) ;;
  ret process.

Definition required_globals : list string :=
  ["next"; "create-next-app"; "typescript"].

(** [check_dependencies()]. *)
Definition check_dependencies (w : World) : M bool :=
  try_except
    (node_version <- subprocess_run w ["node"; "--version"] ;;
     npm_version <- subprocess_run w ["npm"; "--version"] ;;
     when (negb (returncode node_version =? 0)%Z
           || negb (returncode npm_version =? 0)%Z)
          (raise (PyException "Node.js and npm are required but not found")) ;;
     for_each required_globals
       (fun pkg =>
          result <- subprocess_run w ["npm"; "list"; "-g"; pkg] ;;
          when (negb (returncode result =? 0)%Z)
               (raise (PyException
                         ("Required global package " ++ pkg ++ " not found")))) ;;
     ret true)
    (fun e =>
       log_message ("Dependency check failed: " ++ exn_str e) ;;
       ret false).

Definition shadcn_deps : list string :=
  ["@radix-ui/react-icons"; "@radix-ui/react-slot"; "class-variance-authority";
   "clsx"; "tailwind-merge"; "lucide-react"; "tailwindcss-animate"].

(** [style_map.get(style_name, 'default')]. *)
Definition style_map : list (string * string) :=
  [("Default", "default"); ("New York", "new-york"); ("Zinc", "zinc");
   ("Slate", "slate"); ("Stone", "stone"); ("Gray", "gray")].

Fixpoint dict_get (d : list (string * string)) (key default : string) : string :=
  match d with
  | [] => default
  | (k, v) :: d' => if String.eqb k key then v else dict_get d' key default
  end.

(** The [responses] dictionary of [setup_shadcn_and_utilities], its items
    in insertion order. *)
Definition shadcn_responses (cfg : Config) : list (string * string) :=
  let shadcn_style := dict_get style_map (ui_style cfg) "default" in
  [("Which style would you like to use?", shadcn_style ++ LF);
   ("Which color would you like to use as the base color?",
    Text.lower (ui_color cfg) ++ LF);
   ("Would you like to use CSS variables for theming?",
    if use_css_vars cfg then "yes" ++ LF else "no" ++ LF);
   ("How would you like to proceed?", react_compat cfg ++ LF)].

Definition shadcn_init_command : list string := ["npx"; "shadcn@latest"; "init"].

(** [setup_shadcn_and_utilities(project_path)]. *)
Definition setup_shadcn_and_utilities (cfg : Config) (w : World)
           (project_path : string) : M unit :=
  try_except
    (log_message "Setting up shadcn/ui with selected options..." ;;
     let install_command := (["npm"; "install"; "--save-dev"] ++ shadcn_deps)%list in
     _ <- run_command w install_command (Some project_path)
            "Installing dependencies" [] ;;
     let overlay := [("NPM_CONFIG_LEGACY_PEER_DEPS", "true")] in
     _ <- run_command_with_input w shadcn_init_command (Some project_path)
            "Initializing shadcn/ui" (shadcn_responses cfg) overlay ;;
     log_message "shadcn/ui has been initialized with selected settings.")
    (fun e =>
       log_message ("Error setting up shadcn/ui: " ++ exn_str e) ;;
       raise e).

Definition dev_command : list string := ["npm"; "run"; "dev"].

Definition is_ready_line (output : string) : bool :=
  Text.contains "ready - started server on" output
  || Text.contains "Local:" output.

(** [int(output.split("localhost:")[1].strip())]. *)
Definition parse_port (w : World) (output : string) : M Z :=
  match nth_error (Text.split "localhost:" output) 1 with
  | None => raise (IndexError "list index out of range")
  | Some piece => py_int w (Text.strip piece)
  end.

(** The wait loop of [start_dev_server] over the lines it gets to read
    before the deadline: the port once a ready line is met, [None] when the
    deadline passes first ([ready] stays [False]). *)
Fixpoint wait_ready (w : World) (lines : list string) : M (option Z) :=
  match lines with
  | [] => ret None
  | output :: rest =>
      if nonempty output
      then log_message (Text.strip output) ;;
           if is_ready_line output
           then port <- parse_port w output ;;
                emit (ESleep 2) ;;
                ret (Some port)            (* ready = True; break *)
           else wait_ready w rest
      else wait_ready w rest
  end.

(** [start_dev_server(project_path)]. *)
Definition start_dev_server (cfg : Config) (w : World) (project_path : string)
  : M unit :=
  log_message "Starting development server..." ;;
  process <- popen w (mkCmd dev_command (Some project_path) []) ;;
  ready <- wait_ready w (firstn (w_dev_window w)
                                (Text.readlines (p_stdout process))) ;;
  match ready with
  | Some port =>
      log_message ("Development server is ready on port "
                     ++ Text.str_of_int port ++ "!") ;;
      when (open_browser cfg)
           (log_message ("Opening in browser at port "
                           ++ Text.str_of_int port ++ "...") ;;
            emit (EBrowser ("http://localhost:" ++ Text.str_of_int port)))
  | None => ret tt
  end.

(** The argument vector of the scaffold invocation. *)
Definition create_command (cfg : Config) : list string :=
  (["npx"; "--yes"; "create-next-app@latest";
   project_name cfg;
   if use_typescript cfg then "--ts" else "--js";
   if use_tailwind cfg then "--tailwind" else "--no-tailwind";
   if use_eslint cfg then "--eslint" else "--no-eslint";
   if use_src_dir cfg then "--src-dir" else "--no-src-dir";
   if use_app_router cfg then "--app" else "--pages";
   if custom_import_alias cfg then "--import-alias" else "--no-import-alias";
   "--use-npm"]
  ++ (if custom_import_alias cfg
      then ["--import-alias"; import_alias cfg] else []))%list.

Definition scaffold_env : list (string * string) :=
  [("CI", "true"); ("NEXT_TELEMETRY_DISABLED", "1")].

Definition scaffold_cmd (cfg : Config) : Cmd :=
  mkCmd (create_command cfg) (Some (project_path cfg)) scaffold_env.

(** One turn of the read loop of the scaffold step in [run]. *)
Definition scaffold_line (output : string) : M unit :=
  when (nonempty output)
       (let output := Text.strip output in
        log_message output ;;
        if Text.contains "Creating" output
        then progress "Creating project structure..."
        else if Text.contains "Installing" output
        then progress "Installing dependencies..."
        else if Text.contains "Success" output
        then progress "Project structure created!"
        else ret tt).

Definition any_feature (cfg : Config) : bool :=
  use_redux cfg || use_axios cfg || use_router cfg || use_auth cfg
  || use_prisma cfg || use_forms cfg || use_query cfg.

(** [self.install_additional_features(project_path)]: neither
    [ProjectSetupThread] nor its base class defines this attribute, so the
    lookup raises before anything is called. *)
Definition install_additional_features (project_path : string) : M unit :=
  raise (AttributeError "ProjectSetupThread" "install_additional_features").

(** The rocket at the end of the last milestone (U+1F680), as stored in
    the source file. *)
Definition ROCKET : string :=
  String (ascii_of_N 240) (String (ascii_of_N 159)
    (String (ascii_of_N 154) (String (ascii_of_N 128) ""))).

(** The body of the [try] in [run], one definition per commented block of
    the source, in its order. *)
Definition deps_block (w : World) : M unit :=
  progress "Checking dependencies..." ;;
  ok <- check_dependencies w ;;
  when (negb ok)
       (raise (PyException
                 "Required dependencies not found. Please run setup.py first")).

Definition scaffold_block (cfg : Config) (w : World) (project_dir : string)
  : M unit :=
  progress "Creating Next.js project structure..." ;;
  log_message ("Creating project at: " ++ project_dir) ;;
  log_message ("Running command: " ++ Text.join " " (create_command cfg)) ;;
  process <- popen w (scaffold_cmd cfg) ;;
  for_each (Text.readlines (p_stdout process)) scaffold_line ;;
  when (negb (returncode process =? 0)%Z)
       (let stderr := p_stderr process in
        raise (PyException ("Project creation failed: " ++ stderr))).

Definition features_block (cfg : Config) (project_dir : string) : M unit :=
  when (any_feature cfg)
       (progress "Installing additional features..." ;;
        install_additional_features project_dir).

Definition shadcn_block (cfg : Config) (w : World) (project_dir : string)
  : M unit :=
  progress "Setting up shadcn/ui components..." ;;
  setup_shadcn_and_utilities cfg w project_dir.

Definition git_block (cfg : Config) (w : World) (project_dir : string) : M unit :=
  when (init_git cfg)
       (progress "Initializing Git repository..." ;;
        _ <- run_command w ["git"; "init"] (Some project_dir)
               "Initializing Git" [] ;;
        ret tt).

Definition build_block (cfg : Config) (w : World) (project_dir : string) : M unit :=
  when (build_project cfg)
       (progress "Building project..." ;;
        _ <- run_command w ["npm"; "run"; "build"] (Some project_dir)
               "Building project" [] ;;
        ret tt).

Definition editor_block (cfg : Config) (w : World) (project_dir : string) : M unit :=
  when (open_vscode cfg)
       (progress "Opening in VS Code..." ;;
        _ <- run_command w ["code"; "."] (Some project_dir)
               "Opening VS Code" [] ;;
        ret tt).

Definition dev_block (cfg : Config) (w : World) (project_dir : string) : M unit :=
  when (start_dev cfg)
       (progress "Starting development server..." ;;
        start_dev_server cfg w project_dir).

Definition run_body (cfg : Config) (w : World) : M unit :=
  let project_dir := w_path_join w (project_path cfg) (project_name cfg) in
  deps_block w ;;
  scaffold_block cfg w project_dir ;;
  features_block cfg project_dir ;;
  shadcn_block cfg w project_dir ;;
  git_block cfg w project_dir ;;
  build_block cfg w project_dir ;;
  editor_block cfg w project_dir ;;
  dev_block cfg w project_dir ;;
  progress ("Project creation completed! " ++ ROCKET) ;;
  emit (EFinished true "Project created successfully!").

(** [ProjectSetupThread.run()]: everything the pipeline does, in order. *)
Definition run (cfg : Config) (w : World) : list Event :=
  trace
    (try_except (run_body cfg w)
       (fun e =>
          log_message ("Error: " ++ exn_str e) ;;
          progress "Error occurred during project creation" ;;
          emit (EFinished false ("Error: " ++ exn_str e)))).

(** [install_project_dependencies(project_path)].  Nothing calls it. *)
Definition install_project_dependencies (w : World) (project_path : string)
  : M unit :=
  try_except
    (let install_command := (["npm"; "install"; "--save-dev"] ++ shadcn_deps)%list in
     _ <- run_command w install_command (Some project_path)
            "Installing project dependencies" [] ;;
     ret tt)
    (fun e =>
       raise (PyException
                ("Failed to install project dependencies: " ++ exn_str e))).

(** *** Stopping the dev server *)






(* ================================================================= *)
(** ** [NextMakerGUI] *)

(** The widgets [create_project] reads: the text of each line edit, the
    current text of each combo box, the state of each check box. *)
Record Form := mkForm {
  name_input : string;
  path_input : string;
  pm_combo : string;
  typescript_check : bool;
  tailwind_check : bool;
  eslint_check : bool;
  src_dir_check : bool;
  app_router_check : bool;
  turbo_check : bool;
  alias_check : bool;
  alias_input : string;
  redux_check : bool;
  axios_check : bool;
  router_check : bool;
  auth_check : bool;
  prisma_check : bool;
  forms_check : bool;
  query_check : bool;
  git_check : bool;
  build_check : bool;
  open_vscode_check : bool;
  start_dev_check : bool;
  open_browser_check : bool;
  style_combo : string;
  color_combo : string;
  css_vars_check : bool;
  react_compat_combo : string
}.

(** The items of the style and colour selectors in [initUI]. *)
Definition style_items : list string :=
  ["Default"; "New York"; "Zinc"; "Slate"; "Stone"; "Gray"].

Definition color_items : list string :=
  ["Neutral"; "Gray"; "Zinc"; "Stone"; "Slate"].

(** [update_color_options(style_name)] in [initUI]: the items the colour
    selector holds afterwards, and whether it is enabled. *)
Definition update_color_options (style_name : string) : list string * bool :=
  if existsb (String.eqb (Text.lower style_name)) ["zinc"; "slate"; "stone"; "gray"]
  then ([style_name], false)
  else (color_items, true).

(** The form as [initUI] leaves it. *)
Definition initial_form : Form :=
  mkForm "" "" "npm" true true true true true false true "@/*"
         false false false false false false false
         false true true true true
         "Default" "Neutral" true "Use --force".

(** What [create_project] does: a warning box, or a setup thread started
    with a configuration. *)
Inductive Created :=
| Warning (title text : string)
| ThreadStarted (config : Config).

(** [NextMakerGUI.create_project()]. *)
Definition create_project (f : Form) : Created :=
  if negb (nonempty (name_input f)) || negb (nonempty (path_input f))
  then Warning "Error" "Project name and path are required!"
  else ThreadStarted
         (mkConfig (name_input f) (path_input f) (pm_combo f)
                   (typescript_check f) (tailwind_check f) (eslint_check f)
                   (src_dir_check f) (app_router_check f) (turbo_check f)
                   (alias_check f)
                   (if alias_check f then alias_input f else "@/*")
                   (redux_check f) (axios_check f) (router_check f)
                   (auth_check f) (prisma_check f) (forms_check f)
                   (query_check f)
                   (git_check f) (build_check f) true
                   (open_vscode_check f) (start_dev_check f)
                   (open_browser_check f)
                   (style_combo f) (color_combo f) (css_vars_check f)
                   (react_compat_combo f)).



(* ================================================================= *)
(** ** [setup.py] *)

Module Setup.

(** The exceptions [setup.py] can meet.  [SystemExit] is no subclass of
    [Exception]; the others are. *)
Inductive Exn :=
| CalledProcessError (cmd : list string) (returncode : Z)
| OSError (not_found : bool) (msg : string)  (* FileNotFoundError when [not_found] *)
| UnicodeEncodeError (msg : string)
| SystemExit (code : Z).

(** What a command does when [subprocess.run] launches it. *)
Inductive Result :=
| LaunchFailure (not_found : bool) (msg : string)
| Exited (returncode : Z).

(** What [setup.py] does that is visible outside it: a line printed, a
    command run (with or without [capture_output]). *)
Inductive Event :=
| Print (text : string)
| Run (cmd : list string) (capture : bool).

(** Everything outside the script.
    - [venv_exists]: [os.path.exists('.venv')];
    - [os_nt]: [os.name == 'nt'];
    - [executable]: [sys.executable];
    - [launch]: what each command does, by argument vector and capture
      flag (no two launches of the script agree on both);
    - [stdout_encodes]: whether the encoding of the standard output has the
      characters of a text (every encoding has those of ASCII), and
      [encode_error], the text of the error when it has not;
    - [signal_repr n]: [repr(signal.Signals(n))] when [n] is the number of
      a signal. *)
Record World := mkWorld {
  venv_exists : bool;
  os_nt : bool;
  executable : string;
  launch : list string -> bool -> Result;
  stdout_encodes : string -> bool;
  encode_error : string -> string;
  signal_repr : Z -> option string
}.

Definition M (A : Type) : Type := list Event * (Exn + A).

Definition ret {A} (a : A) : M A := ([], inr a).
Definition raise {A} (e : Exn) : M A := ([], inl e).
Definition emit (ev : Event) : M unit := ([ev], inr tt).

Definition bind {A B} (m : M A) (f : A -> M B) : M B :=
  match m with
  | (tr, inl e) => (tr, inl e)
  | (tr, inr a) => let (tr', r) := f a in ((tr ++ tr')%list, r)
  end.

(** [try: m except <classes> as e: h e], for the exceptions [catches]
    accepts. *)
Definition try_except {A} (m : M A) (catches : Exn -> bool) (h : Exn -> M A)
  : M A :=
  match m with
  | (tr, inl e) =>
      if catches e then let (tr', r) := h e in ((tr ++ tr')%list, r)
      else (tr, inl e)
  | (tr, inr a) => (tr, inr a)
  end.

Definition trace {A} (m : M A) : list Event := fst m.
Definition outcome {A} (m : M A) : Exn + A := snd m.

Declare Scope setup_scope.
Notation "m ;; k" := (bind m (fun _ => k))
  (at level 61, right associativity) : setup_scope.
#[local] Open Scope setup_scope.

Definition when (b : bool) (m : M unit) : M unit := if b then m else ret tt.

(** The handlers of the script. *)
Definition is_exception (e : Exn) : bool :=
  match e with SystemExit _ => false | _ => true end.

Definition is_called_process_error (e : Exn) : bool :=
  match e with CalledProcessError _ _ => true | _ => false end.

Definition is_called_process_or_not_found (e : Exn) : bool :=
  match e with
  | CalledProcessError _ _ => true
  | OSError not_found _ => not_found
  | _ => false
  end.

(** [str(cmd)] for a list of texts. *)
Definition list_str (cmd : list string) : string :=
  "[" ++ String.concat ", " (map Text.repr cmd) ++ "]".

(** [str(e)]. *)
Definition exn_str (w : World) (e : Exn) : string :=
  match e with
  | CalledProcessError cmd returncode =>
      if (returncode <? 0)%Z
      then match signal_repr w (- returncode) with
           | Some r => "Command '" ++ list_str cmd ++ "' died with " ++ r ++ "."
           | None =>
               "Command '" ++ list_str cmd ++ "' died with unknown signal "
                 ++ Text.str_of_int (- returncode) ++ "."
           end
      else "Command '" ++ list_str cmd ++ "' returned non-zero exit status "
             ++ Text.str_of_int returncode ++ "."
  | OSError _ msg => msg
  | UnicodeEncodeError msg => msg
  | SystemExit code => Text.str_of_int code
  end.

Definition is_ascii (c : ascii) : bool := (Text.code c <? 128)%N.

Fixpoint all_ascii (s : string) : bool :=
  match s with
  | String c s' => is_ascii c && all_ascii s'
  | EmptyString => true
  end.

(** [print(text)]. *)
Definition print (w : World) (text : string) : M unit :=
  if all_ascii text || stdout_encodes w text
  then emit (Print text)
  else raise (UnicodeEncodeError (encode_error w text)).

(** [subprocess.run(cmd, check=True, ...)]. *)
Definition subprocess_run (w : World) (cmd : list string) (capture : bool)
  : M unit :=
  emit (Run cmd capture) ;;
  match launch w cmd capture with
  | LaunchFailure not_found msg => raise (OSError not_found msg)
  | Exited returncode =>
      if (returncode =? 0)%Z then ret tt
      else raise (CalledProcessError cmd returncode)
  end.

(** [run_command(cmd)]. *)
Definition run_command (w : World) (cmd : list string) : M unit :=
  try_except (subprocess_run w cmd false) is_called_process_error
    (fun e =>
       print w ("Error running command " ++ Text.join " " cmd ++ ": "
                  ++ exn_str w e) ;;
       raise (SystemExit 1)).

Definition global_deps : list string :=
  ["next@latest"; "create-next-app@latest"; "typescript@latest";
   "shadcn-ui@latest"].

Definition pip_path (w : World) : string :=
  if os_nt w then ".venv\Scripts\pip" else ".venv/bin/pip".

(** The check for one tool in [setup_environment]. *)
Definition check_tool (w : World) (cmd : list string) (advice : string) : M unit :=
  try_except (subprocess_run w cmd true) is_called_process_or_not_found
    (fun _ => print w advice ;; raise (SystemExit 1)).

(** [setup_environment()]. *)
Definition setup_environment (w : World) : M unit :=
  print w "Setting up development environment..." ;;
  when (negb (venv_exists w))
       (print w "Creating Python virtual environment..." ;;
        run_command w [executable w; "-m"; "venv"; ".venv"]) ;;
  print w "Upgrading pip..." ;;
  run_command w [pip_path w; "install"; "--upgrade"; "pip"] ;;
  print w "Installing Python dependencies..." ;;
  run_command w [pip_path w; "install"; "-r"; "requirements.txt"] ;;
  check_tool w ["node"; "--version"]
    "Node.js not found. Please install Node.js (version 20+) from https://nodejs.org/" ;;
  check_tool w ["npm"; "--version"]
    "npm not found. Please install Node.js which includes npm" ;;
  print w "Installing global Node.js dependencies..." ;;
  run_command w (["npm"; "install"; "-g"] ++ global_deps)%list ;;
  print w (LF ++ "Verifying installations...") ;;
  try_except
    (run_command w [pip_path w; "list"] ;;
     run_command w ["node"; "--version"] ;;
     run_command w ["npm"; "--version"] ;;
     run_command w ["npm"; "list"; "-g"; "--depth=0"] ;;
     print w (LF ++ "Environment setup complete! " ++ ROCKET) ;;
     print w (LF ++ "To activate the virtual environment:") ;;
     (if os_nt w
      then print w "    .venv\Scripts\activate"
      else print w "    source .venv/bin/activate") ;;
     print w (LF ++ "To start Next Express:") ;;
     print w "    python next_express.py")
    is_exception
    (fun e =>
       print w ("Error during verification: " ++ exn_str w e) ;;
       raise (SystemExit 1)).

(** The script run as a program, as long as nobody interrupts it: what
    it prints and runs, and its exit status.  An exception that leaves the
    script ends it with status 1. *)
Definition main (w : World) : list Event * Z :=
  let m := try_except (setup_environment w) is_exception
             (fun e =>
                print w ("Setup failed: " ++ exn_str w e) ;;
                raise (SystemExit 1)) in
  (trace m,
   match outcome m with
   | inr _ => 0%Z
   | inl (SystemExit code) => code
   | inl _ => 1%Z
   end).

End Setup.

(* ================================================================= *)
(** ** Vocabulary of the properties *)

(** *** Observations on traces *)

(** What the handler of [run] emits for an exception whose text is [msg]. *)
Definition failure_report (msg : string) : list Event :=
  [ELog ("Error: " ++ msg);
   EProgress "Error occurred during project creation";
   EFinished false ("Error: " ++ msg)].

(** [text] is logged before the program waits for the exit of [c]. *)
Definition logged_before_wait (tr : list Event) (c : Cmd) (text : string) : Prop :=
  exists pre post, tr = (pre ++ EWait c :: post)%list /\ In (ELog text) pre.

(** The texts written to the standard input of a child, in order. *)
Definition writes (tr : list Event) : list string :=
  flat_map (fun e => match e with EWrite _ s => [s] | _ => [] end) tr.

(** The addresses the browser was asked to open, in order. *)
Definition browser_requests (tr : list Event) : list string :=
  flat_map (fun e => match e with EBrowser url => [url] | _ => [] end) tr.

(** The commands launched in a trace, in order. *)
Definition spawned (tr : list Event) : list Cmd :=
  flat_map (fun e => match e with ESpawn c => [c] | _ => [] end) tr.



(** A log entry. *)
Definition is_log (e : Event) : Prop := exists text, e = ELog text.

(** Every event of the computation satisfies [P]. *)
Definition emits {A} (P : Event -> Prop) (m : M A) : Prop := Forall P (trace m).

(** The only command [m] launches is [c0]. *)
Definition launches_only {A} (c0 : Cmd) (m : M A) : Prop :=
  emits (fun e => match e with ESpawn c => c = c0 | _ => True end) m.

(** Some character of [s] is in the class [p]. *)
Fixpoint has_char (p : ascii -> bool) (s : string) : bool :=
  match s with
  | String c s' => p c || has_char p s'
  | EmptyString => false
  end.

(** *** Steps *)

(** The steps of the pipeline, in the order of the specification. *)
Inductive Step :=
| Deps | Scaffold | Features | Shadcn | Git | Build | Editor | DevServer.

Definition step_index (s : Step) : nat :=
  match s with
  | Deps => 1 | Scaffold => 2 | Features => 3 | Shadcn => 4
  | Git => 5 | Build => 6 | Editor => 7 | DevServer => 8
  end.

(** The milestone that announces each step. *)
Definition milestone_step (message : string) : option Step :=
  if message =? "Checking dependencies..." then Some Deps
  else if message =? "Creating Next.js project structure..." then Some Scaffold
  else if message =? "Installing additional features..." then Some Features
  else if message =? "Setting up shadcn/ui components..." then Some Shadcn
  else if message =? "Initializing Git repository..." then Some Git
  else if message =? "Building project..." then Some Build
  else if message =? "Opening in VS Code..." then Some Editor
  else if message =? "Starting development server..." then Some DevServer
  else None.

(** [pre] is a first part of [command]; [a] and [b] are the same vector. *)
Fixpoint starts_with (pre command : list string) : bool :=
  match pre, command with
  | [], _ => true
  | a :: pre', b :: command' => (a =? b) && starts_with pre' command'
  | _ :: _, [] => false
  end.

Definition same_command (a b : list string) : bool :=
  starts_with a b && (List.length a =? List.length b)%nat.

(** The step each command of the pipeline belongs to. *)
Definition command_step (command : list string) : option Step :=
  if same_command ["node"; "--version"] command then Some Deps
  else if same_command ["npm"; "--version"] command then Some Deps
  else if starts_with ["npm"; "list"; "-g"] command then Some Deps
  else if starts_with ["npx"; "--yes"; "create-next-app@latest"] command
  then Some Scaffold
  else if starts_with ["npm"; "install"; "--save-dev"] command then Some Shadcn
  else if same_command shadcn_init_command command then Some Shadcn
  else if same_command ["git"; "init"] command then Some Git
  else if same_command ["npm"; "run"; "build"] command then Some Build
  else if same_command ["code"; "."] command then Some Editor
  else if same_command dev_command command then Some DevServer
  else None.

(** The step an event marks: milestones and launches do, the rest do not. *)
Definition event_step (e : Event) : option Step :=
  match e with
  | EProgress message => milestone_step message
  | ESpawn c => command_step (argv c)
  | _ => None
  end.

(** No event of [tr] marks a step before the latest step marked so far,
    starting from position [k] of the order. *)
Fixpoint ordered_from (k : nat) (tr : list Event) : bool :=
  match tr with
  | [] => true
  | e :: tr' =>
      match event_step e with
      | None => ordered_from k tr'
      | Some s => (k <=? step_index s)%nat && ordered_from (step_index s) tr'
      end
  end.

(** The steps announced in a trace, in order. *)
Definition steps_run (tr : list Event) : list Step :=
  flat_map (fun e => match e with
                     | EProgress message =>
                         match milestone_step message with
                         | Some s => [s]
                         | None => []
                         end
                     | _ => []
                     end) tr.

(** An event that belongs to the work of step [s]: a launch, wait or write
    of one of its commands, a log entry, a milestone that announces no
    step; the delay and the browser request belong to the dev server. *)
Definition step_event (s : Step) (e : Event) : Prop :=
  match e with
  | ESpawn c | EWait c | EWrite c _ | EFlush c => command_step (argv c) = Some s
  | EProgress message => milestone_step message = None
  | ELog _ => True
  | ESleep _ | EBrowser _ => s = DevServer
  | EFinished _ _ => False
  end.

(** An event of the block of step [s]: as above, or the milestone of [s]. *)
Definition block_event (s : Step) (e : Event) : Prop :=
  step_event s e \/ exists message, e = EProgress message
                                    /\ milestone_step message = Some s.

(** An event of the pipeline: an event of the block of some step, or the
    result. *)
Definition pipeline_event (e : Event) : Prop :=
  (exists s, block_event s e) \/ (exists ok msg, e = EFinished ok msg).

(** The tools the pipeline launches. *)
Definition tools : list string := ["node"; "npm"; "npx"; "git"; "code"].

(** Every optional toggle of the configuration is off: the seven feature
    installs, git init, build, editor launch, dev server and browser. *)
Definition optional_toggles_off (cfg : Config) : bool :=
  negb (any_feature cfg) && negb (init_git cfg) && negb (build_project cfg)
  && negb (open_vscode cfg) && negb (start_dev cfg) && negb (open_browser cfg).

(** [cfg] with another choice of package manager. *)
Definition with_package_manager (cfg : Config) (pm : string) : Config :=
  mkConfig (project_name cfg) (project_path cfg) pm
           (use_typescript cfg) (use_tailwind cfg) (use_eslint cfg)
           (use_src_dir cfg) (use_app_router cfg) (use_turbo cfg)
           (custom_import_alias cfg) (import_alias cfg)
           (use_redux cfg) (use_axios cfg) (use_router cfg) (use_auth cfg)
           (use_prisma cfg) (use_forms cfg) (use_query cfg)
           (init_git cfg) (build_project cfg) (additional_deps cfg)
           (open_vscode cfg) (start_dev cfg) (open_browser cfg)
           (ui_style cfg) (ui_color cfg) (use_css_vars cfg) (react_compat cfg).

(** *** Children that fail *)

(** The description under which each command past the dependency check
    is run. *)
Definition describe (command : list string) : string :=
  if starts_with ["npx"; "--yes"; "create-next-app@latest"] command
  then "Project creation"
  else if starts_with ["npm"; "install"; "--save-dev"] command
  then "Installing dependencies"
  else if same_command shadcn_init_command command then "Initializing shadcn/ui"
  else if same_command ["git"; "init"] command then "Initializing Git"
  else if same_command ["npm"; "run"; "build"] command then "Building project"
  else if same_command ["code"; "."] command then "Opening VS Code"
  else "".


(** An event that neither starts another step, nor launches a command of
    another step than that of [c], nor reports a result. *)
Definition quiet_after (c : Cmd) (e : Event) : Prop :=
  match e with
  | ESpawn c' => command_step (argv c') = command_step (argv c)
  | EProgress message => milestone_step message = None
  | EFinished _ _ => False
  | EBrowser _ => False
  | ESleep _ => False
  | _ => True
  end.

(** The command of the dev server as launched by the pipeline. *)
Definition dev_cmd (dir : string) : Cmd := mkCmd dev_command (Some dir) [].

(** Line [output] of a child makes the interactive runner answer: it is
    not empty and, cleaned, contains one of the prompts of [responses]. *)
Definition asks (responses : list (string * string)) (output : string) : bool :=
  nonempty output
  && existsb (fun item =>
                Text.contains (fst item)
                  (Regex.sub_empty Regex.ansi_escape (Text.strip output)))
             responses.

(** The text of the error of the first answer that cannot be written:
    that of the first line, of index [n] on, that asks while the standard
    input of [c] is broken. *)
Fixpoint first_broken (w : World) (c : Cmd) (responses : list (string * string))
         (n : nat) (lines : list string) : option string :=
  match lines with
  | [] => None
  | output :: rest =>
      if asks responses output
      then match w_stdin w c n with
           | PipeOpen => first_broken w c responses (S n) rest
           | WriteFails msg => Some msg
           | FlushFails msg => Some msg
           end
      else first_broken w c responses (S n) rest
  end.

(** The error met while answering child [p] of command [c], if any.  Only
    the interactive [npx shadcn@latest init] is answered. *)
Definition undelivered (cfg : Config) (w : World) (c : Cmd) (p : Proc)
  : option string :=
  if same_command shadcn_init_command (argv c)
  then first_broken w c (shadcn_responses cfg) 0 (Text.readlines (p_stdout p))
  else None.

(** The lines the read loop of the interactive runner handles, each with
    its index, from index [n] on: every line up to the first one whose
    answer cannot be written. *)
Fixpoint read_lines (w : World) (c : Cmd) (responses : list (string * string))
         (n : nat) (lines : list string) : list (nat * string) :=
  match lines with
  | [] => []
  | output :: rest =>
      (n, output)
        :: if asks responses output
           then match w_stdin w c n with
                | PipeOpen => read_lines w c responses (S n) rest
                | _ => []
                end
           else read_lines w c responses (S n) rest
  end.

(** What handling the lines [handled] logs and writes, each taken on its
    own with an empty buffer. *)
Definition handled_trace (w : World) (c : Cmd) (responses : list (string * string))
           (handled : list (nat * string)) : list Event :=
  flat_map (fun line =>
              trace (handle_output (w_stdin w c (fst line)) c responses ""
                                   (snd line)))
           handled.

(** The exception with which the command runner ends for child [p] of [c]
    when [p] exits with a non-zero code. *)
Definition exit_exception (cfg : Config) (w : World) (c : Cmd) (p : Proc) : Exn :=
  match undelivered cfg w c p with
  | Some msg => OSError msg
  | None => PyException (describe (argv c) ++ " failed: " ++ p_stderr p)
  end.


(** The child launched by [c] makes its step raise [e]: for the dev server,
    [start_dev_server] raises [e]; for every other command past the
    dependency check, the child exits with a non-zero code and [e] is the
    exception of the command runner. *)
Definition child_fails (cfg : Config) (w : World) (c : Cmd) (e : Exn) : Prop :=
  match command_step (argv c) with
  | Some Deps | None => False
  | Some DevServer =>
      exists dir, cwd c = Some dir
                  /\ outcome (start_dev_server cfg w dir) = inl e
  | Some _ =>
      exists p, w_launch w c = Launched p
                /\ returncode p <> 0%Z
                /\ e = exit_exception cfg w c p
  end.

(** A failing child ends the computation with its exception. *)
Definition propagates {A} (cfg : Config) (w : World) (m : M A) : Prop :=
  forall c e, In (ESpawn c) (trace m) -> child_fails cfg w c e ->
              outcome m = inl e.

(** A failing child ends the computation with its exception, and nothing
    but quiet events follows its launch. *)
Definition aborts {A} (cfg : Config) (w : World) (m : M A) : Prop :=
  forall tr1 c tr2 e,
    trace m = (tr1 ++ ESpawn c :: tr2)%list ->
    child_fails cfg w c e ->
    outcome m = inl e /\ Forall (quiet_after c) tr2.


(** *** Texts read as a port *)






(** *** Sample configurations and worlds *)

(** A sample configuration: the defaults of the form, with Git on and a
    package manager other than npm. *)
Definition sample_config : Config :=
  mkConfig "app" "/tmp" "yarn" true true true true true false true "@/*"
           false false false false false false false
           true true true true true true
           "New York" "Zinc" true "Use --force".

(** The same with every optional toggle off and no import alias. *)
Definition quiet_config : Config :=
  mkConfig "app" "/tmp" "npm" true true true true true false false "@/*"
           false false false false false false false
           false false true false false false
           "Default" "Neutral" true "Use --force".

(** The sample configuration with one feature install asked for. *)
Definition redux_config : Config :=
  mkConfig "app" "/tmp" "yarn" true true true true true false true "@/*"
           true false false false false false false
           true true true true true true
           "New York" "Zinc" true "Use --force".

(** A sample world: every tool succeeds, the component-library tool asks
    for a style and the dev server announces port 3001. *)
Definition sample_launch (c : Cmd) : Launch :=
  match argv c with
  | ["npm"; "run"; "dev"] =>
      Launched (mkProc ("> dev" ++ LF ++ "   - Local:        http://localhost:3001"
                          ++ LF ++ "more" ++ LF) "" 0)
  | ["npx"; "shadcn@latest"; "init"] =>
      Launched (mkProc ("Which style would you like to use?" ++ LF
                          ++ "done" ++ LF) "" 0)
  | _ => Launched (mkProc ("Creating files" ++ LF) "" 0)
  end.

Definition posix_join (p n : string) : string := p ++ "/" ++ n.

Definition sample_world : World :=
  mkWorld sample_launch posix_join 10 4300 (fun _ _ => PipeOpen).

(** The same world with one command replaced by a child of choice. *)
Definition with_child (w : World) (command : list string) (l : Launch) : World :=
  mkWorld (fun c => if list_eq_dec string_dec (argv c) command then l
                    else w_launch w c)
          (w_path_join w) (w_dev_window w) (w_int_max_str_digits w) (w_stdin w).


(** The sample world with a dev server that prints [output]. *)
Definition dev_world (output : string) : World :=
  with_child sample_world dev_command (Launched (mkProc output "" 0)).

(** *** The commands of the dependency check *)

(** The commands of the dependency check, in the order they are run; each
    is launched without a working directory and without an overlay. *)
Definition deps_commands : list (list string) :=
  (["node"; "--version"] :: ["npm"; "--version"]
   :: map (fun pkg => ["npm"; "list"; "-g"; pkg]) required_globals)%list.

Definition deps_cmd (command : list string) : Cmd := mkCmd command None [].

(** The command can be launched and its child exits with 0. *)
Definition exits_zero (w : World) (c : Cmd) : bool :=
  match w_launch w c with
  | Launched p => (returncode p =? 0)%Z
  | LaunchError _ => false
  end.

(** Every command of the dependency check can be launched and exits
    with 0. *)
Definition tools_installed (w : World) : bool :=
  forallb (fun command => exits_zero w (deps_cmd command)) deps_commands.

(** The sample world without [node] on the search path. *)
Definition no_node_world : World :=
  with_child sample_world ["node"; "--version"]
             (LaunchError "[Errno 2] No such file or directory: 'node'").

(** *** The questions of the component-library tool *)

(** The capital letters the four questions of the prompt table start
    with. *)
Definition starts_question (c : ascii) : bool :=
  (Text.code c =? 87)%N || (Text.code c =? 72)%N.

(** [q] and [p] differ at a position both have. *)
Fixpoint mismatch (q p : string) : bool :=
  match q, p with
  | String a q', String b p' => if Ascii.eqb a b then mismatch q' p' else true
  | _, _ => false
  end.

(** [q] differs from every non-empty end part of [p] at a position both
    have: no occurrence of [q] in a text that goes on after [p] starts
    inside [p]. *)
Fixpoint mismatch_all (q p : string) : bool :=
  match p with
  | String _ p' => mismatch q p && mismatch_all q p'
  | EmptyString => true
  end.

(** *** The commands of a run *)

(** Every command the pipeline can launch, in the order of the steps, with
    its working directory and its environment overlay. *)
Definition pipeline_commands (cfg : Config) (w : World) : list Cmd :=
  let project_dir := w_path_join w (project_path cfg) (project_name cfg) in
  (map deps_cmd deps_commands
   ++ [scaffold_cmd cfg;
       mkCmd (["npm"; "install"; "--save-dev"] ++ shadcn_deps)
             (Some project_dir) [];
       mkCmd shadcn_init_command (Some project_dir)
             [("NPM_CONFIG_LEGACY_PEER_DEPS", "true")];
       mkCmd ["git"; "init"] (Some project_dir) [];
       mkCmd ["npm"; "run"; "build"] (Some project_dir) [];
       mkCmd ["code"; "."] (Some project_dir) [];
       dev_cmd project_dir])%list.

(** [a] is [b] with some of its elements left out. *)
Inductive subseq {T : Type} : list T -> list T -> Prop :=
| subseq_nil : subseq [] []
| subseq_skip (x : T) (a b : list T) : subseq a b -> subseq a (x :: b)
| subseq_take (x : T) (a b : list T) : subseq a b -> subseq (x :: a) (x :: b).

(** The commands [m] launches are among [cmds], in their order. *)
Definition launches {A} (m : M A) (cmds : list Cmd) : Prop :=
  subseq (spawned (trace m)) cmds.

(** An event that is no launch. *)
Definition no_launch (e : Event) : Prop :=
  match e with ESpawn _ => False | _ => True end.

(** *** Tools that cannot be launched *)

(** The command [c] of a step past the dependency check cannot be
    launched, and [e] is the error of the launch. *)
Definition launch_fails (w : World) (c : Cmd) (e : Exn) : Prop :=
  command_step (argv c) <> Some Deps
  /\ exists msg, w_launch w c = LaunchError msg /\ e = OSError msg.

(** A command for which [F] holds ends the computation with the exception
    [F] relates it to. *)
Definition raises_for {A} (F : Cmd -> Exn -> Prop) (m : M A) : Prop :=
  forall c e, In (ESpawn c) (trace m) -> F c e -> outcome m = inl e.

(** The command did what the pipeline needs of it: the dev server could be
    launched (its exit code is never read); every other command could be
    launched and its child exited with 0. *)
Definition worked (w : World) (c : Cmd) : Prop :=
  match command_step (argv c) with
  | Some DevServer => exists p, w_launch w c = Launched p
  | _ => exits_zero w c = true
  end.

(** The sample world without [git] on the search path. *)
Definition no_git_world : World :=
  with_child sample_world ["git"; "init"]
             (LaunchError "[Errno 2] No such file or directory: 'git'").

(** *** What a run reads of the configuration *)

(** The part of the configuration that [run] reads: the import alias only
    when a custom alias is asked for, the seven feature installs only
    through their disjunction, the browser toggle only when the dev server
    is to be started; the package manager, Turbopack and the
    additional-dependencies entry not at all. *)
Definition run_inputs (cfg : Config) :=
  (project_name cfg, project_path cfg,
   (use_typescript cfg, use_tailwind cfg, use_eslint cfg, use_src_dir cfg,
    use_app_router cfg),
   (if custom_import_alias cfg then Some (import_alias cfg) else None),
   any_feature cfg,
   (init_git cfg, build_project cfg, open_vscode cfg),
   (if start_dev cfg then Some (open_browser cfg) else None),
   (ui_style cfg, ui_color cfg, use_css_vars cfg, react_compat cfg)).

(** The sample configuration with pnpm, Turbopack, another alias text
    behind a custom alias that stays on, and no additional dependencies. *)
Definition turbo_config : Config :=
  mkConfig "app" "/tmp" "pnpm" true true true true true true true "@/*"
           false false false false false false false
           true true false true true true
           "New York" "Zinc" true "Use --force".

(** *** The run around the dev server *)

(** An event that can come before the dev server is asked for: no launch
    of the dev server, no delay, no browser request. *)
Definition before_dev (e : Event) : Prop :=
  match e with
  | ESpawn c => command_step (argv c) <> Some DevServer
  | ESleep _ | EBrowser _ => False
  | _ => True
  end.

(** The computation [k] either never gets to [start_dev_server], or runs
    it as [sds] and then ends the body: with the last milestone and the
    report of success when [sds] returns, with the exception of [sds] when
    it raises. *)
Definition ends_with_dev_server (sds k : M unit) : Prop :=
  exists pre,
    Forall before_dev pre
    /\ (trace k = pre
        \/ k = ((pre ++ trace sds
                   ++ match outcome sds with
                      | inr _ => [EProgress ("Project creation completed! " ++ ROCKET);
                                  EFinished true "Project created successfully!"]
                      | inl _ => []
                      end)%list,
                match outcome sds with
                | inr _ => inr tt
                | inl e => inl e
                end)).


(** *** Escape sequences *)

(** Every character of [s] is in the class [p]. *)
Fixpoint all_chars (p : ascii -> bool) (s : string) : bool :=
  match s with
  | String c s' => p c && all_chars p s'
  | EmptyString => true
  end.

(** *** The window *)

(** The run the window starts when the button is pressed, if any. *)
Definition pressed (f : Form) (w : World) : option (list Event) :=
  match create_project f with
  | Warning _ _ => None
  | ThreadStarted config => Some (run config w)
  end.

(** The form with other texts in the name, path and alias fields. *)
Definition typed (f : Form) (name path alias : string) : Form :=
  mkForm name path (pm_combo f)
         (typescript_check f) (tailwind_check f) (eslint_check f)
         (src_dir_check f) (app_router_check f) (turbo_check f)
         (alias_check f) alias
         (redux_check f) (axios_check f) (router_check f) (auth_check f)
         (prisma_check f) (forms_check f) (query_check f)
         (git_check f) (build_check f) (open_vscode_check f)
         (start_dev_check f) (open_browser_check f)
         (style_combo f) (color_combo f) (css_vars_check f)
         (react_compat_combo f).

(** The answer of the prompt table to a question. *)
Definition answer_to (cfg : Config) (question : string) : string :=
  dict_get (shadcn_responses cfg) question "".

(** *** The setup script *)

(** The commands run in a trace of the setup script, in order, each with
    its capture flag. *)
Definition setup_runs (tr : list Setup.Event) : list (list string * bool) :=
  flat_map (fun e => match e with
                     | Setup.Run cmd capture => [(cmd, capture)]
                     | _ => []
                     end) tr.

(** The command can be launched and exits with 0. *)
Definition setup_okb (w : Setup.World) (c : list string * bool) : bool :=
  match Setup.launch w (fst c) (snd c) with
  | Setup.Exited returncode => (returncode =? 0)%Z
  | Setup.LaunchFailure _ _ => false
  end.

(** The commands of [cmds] up to and including the first that fails. *)
Fixpoint until_first_failure (w : Setup.World) (cmds : list (list string * bool))
  : list (list string * bool) :=
  match cmds with
  | [] => []
  | c :: rest => if setup_okb w c then c :: until_first_failure w rest else [c]
  end.

(** The exit status of the interpreter for the way the script ends. *)
Definition status_of {A} (o : Setup.Exn + A) : Z :=
  match o with
  | inr _ => 0%Z
  | inl (Setup.SystemExit code) => code
  | inl _ => 1%Z
  end.

(** Every command of a full run of the script, in order: the virtual
    environment is created only where there is none. *)
Definition setup_commands (w : Setup.World) : list (list string * bool) :=
  ((if Setup.venv_exists w then []
    else [([Setup.executable w; "-m"; "venv"; ".venv"], false)])
   ++ [([Setup.pip_path w; "install"; "--upgrade"; "pip"], false);
       ([Setup.pip_path w; "install"; "-r"; "requirements.txt"], false);
       (["node"; "--version"], true);
       (["npm"; "--version"], true);
       ((["npm"; "install"; "-g"] ++ Setup.global_deps)%list, false);
       ([Setup.pip_path w; "list"], false);
       (["node"; "--version"], false);
       (["npm"; "--version"], false);
       (["npm"; "list"; "-g"; "--depth=0"], false)])%list.

(** [m] runs the commands [cmds] in order up to the first that fails;
    it returns when none fails and [then_ok] holds, and ends with exit
    status 1 otherwise. *)
Definition runs_through (w : Setup.World) (m : Setup.M unit)
           (cmds : list (list string * bool)) (then_ok : bool) : Prop :=
  setup_runs (Setup.trace m) = until_first_failure w cmds
  /\ if forallb (setup_okb w) cmds && then_ok
     then Setup.outcome m = inr tt
     else exists e, Setup.outcome m = inl e /\ status_of (@inl _ unit e) = 1%Z.

(** The line with the rocket that ends a setup without failure. *)
Definition setup_complete_line : string :=
  LF ++ "Environment setup complete! " ++ ROCKET.

(** A machine on which every command of the script works and whose
    standard output takes every text. *)
Definition ready_machine : Setup.World :=
  Setup.mkWorld false false "/usr/bin/python3"
                (fun _ _ => Setup.Exited 0) (fun _ => true) (fun _ => "")
                (fun _ => None).

(** The same machine without Node.js. *)
Definition no_node_machine : Setup.World :=
  Setup.mkWorld false false "/usr/bin/python3"
                (fun cmd _ =>
                   if list_eq_dec string_dec cmd ["node"; "--version"]
                   then Setup.LaunchFailure
                          true "[Errno 2] No such file or directory: 'node'"
                   else Setup.Exited 0)
                (fun _ => true) (fun _ => "") (fun _ => None).

(** *** Why the dependency check fails *)

(** The text [reason] is one of the reasons the dependency check can log:
    the error of a command of the check that cannot be launched; the fixed
    text for [node] or [npm] exiting with a non-zero code; or the text that
    names a required global package whose [npm list -g] exits with a
    non-zero code, and then the package is one [setup.py] installs. *)
Definition dependency_failure (w : World) (reason : string) : Prop :=
  (exists command,
      In command deps_commands
      /\ w_launch w (deps_cmd command) = LaunchError reason)
  \/ (reason = "Node.js and npm are required but not found"
      /\ exists command p,
          In command [["node"; "--version"]; ["npm"; "--version"]]
          /\ w_launch w (deps_cmd command) = Launched p
          /\ returncode p <> 0%Z)
  \/ (exists pkg p,
         In pkg required_globals
         /\ reason = "Required global package " ++ pkg ++ " not found"
         /\ w_launch w (deps_cmd ["npm"; "list"; "-g"; pkg]) = Launched p
         /\ returncode p <> 0%Z
         /\ In (pkg ++ "@latest") Setup.global_deps).

(** *** The steps and the commands the toggles ask for *)

(** The steps of a run that nothing stops, by the toggles of the
    configuration. *)
Definition enabled_steps (cfg : Config) : list Step :=
  ([Deps; Scaffold]
   ++ (if any_feature cfg then [Features] else [])
   ++ [Shadcn]
   ++ (if init_git cfg then [Git] else [])
   ++ (if build_project cfg then [Build] else [])
   ++ (if open_vscode cfg then [Editor] else [])
   ++ (if start_dev cfg then [DevServer] else []))%list.

(** The commands of such a run. *)
Definition enabled_commands (cfg : Config) (w : World) : list Cmd :=
  let project_dir := w_path_join w (project_path cfg) (project_name cfg) in
  (map deps_cmd deps_commands
   ++ [scaffold_cmd cfg]
   ++ [mkCmd (["npm"; "install"; "--save-dev"] ++ shadcn_deps)
             (Some project_dir) [];
       mkCmd shadcn_init_command (Some project_dir)
             [("NPM_CONFIG_LEGACY_PEER_DEPS", "true")]]
   ++ (if init_git cfg then [mkCmd ["git"; "init"] (Some project_dir) []] else [])
   ++ (if build_project cfg
       then [mkCmd ["npm"; "run"; "build"] (Some project_dir) []] else [])
   ++ (if open_vscode cfg then [mkCmd ["code"; "."] (Some project_dir) []] else [])
   ++ (if start_dev cfg then [dev_cmd project_dir] else []))%list.

(** [k] announces a first part of [steps], and the whole of it when it
    returns. *)
Definition announces_up_to {A} (k : M A) (steps : list Step) : Prop :=
  (exists n, steps_run (trace k) = firstn n steps)
  /\ (forall a, outcome k = inr a -> steps_run (trace k) = steps).

(** When [m] returns, it has launched exactly [cmds], in this order. *)
Definition launches_all {A} (m : M A) (cmds : list Cmd) : Prop :=
  forall a, outcome m = inr a -> spawned (trace m) = cmds.

(** The two commands of the component-library step, as launched in the
    project directory [dir]. *)
Definition shadcn_install_cmd (dir : string) : Cmd :=
  mkCmd (["npm"; "install"; "--save-dev"] ++ shadcn_deps) (Some dir) [].

Definition shadcn_init_cmd (dir : string) : Cmd :=
  mkCmd shadcn_init_command (Some dir) [("NPM_CONFIG_LEGACY_PEER_DEPS", "true")].

(** The sample world in which the component-library tool asks its first
    question and exits with code 1, so that the answer meets a broken
    pipe. *)
Definition broken_pipe_world : World :=
  mkWorld (w_launch (with_child sample_world shadcn_init_command
                       (Launched (mkProc ("Which style would you like to use?"
                                            ++ LF) "" 1))))
          posix_join 10 4300
          (fun _ _ => FlushFails "[Errno 32] Broken pipe").

(* ================================================================= *)
(** ** Facts about the text primitives *)

Module TextFacts.
Import Text.

Lemma app_assoc (a b c : string) : (a ++ b) ++ c = a ++ (b ++ c).
Proof. induction a as [|x a IH]; simpl; [reflexivity | now rewrite IH]. Qed.

Lemma app_empty_r (a : string) : a ++ "" = a.
Proof. induction a as [|x a IH]; simpl; [reflexivity | now rewrite IH]. Qed.

Lemma rev_string_spec (s acc : string) :
  rev_string acc s = rev_string "" s ++ acc.
Proof.
  revert acc. induction s as [|c s IH]; intros acc; simpl.
  - reflexivity.
  - rewrite (IH (String c acc)), (IH (String c "")).
    rewrite app_assoc. reflexivity.
Qed.

Lemma rev_string_nonempty (c : ascii) (cur : string) :
  rev_string "" (String c cur) <> "".
Proof.
  simpl. rewrite rev_string_spec.
  destruct (rev_string "" cur); discriminate.
Qed.

(** [readline()] never hands an empty text out as a line. *)
Lemma readlines_go_nonempty (s cur : string) :
  Forall (fun l => l <> "") (readlines_go s cur).
Proof.
  revert cur. induction s as [|c s IH]; intros cur; simpl.
  - destruct cur; constructor; [apply rev_string_nonempty | constructor].
  - destruct (code c =? 10)%N.
    + constructor; [apply rev_string_nonempty | apply IH].
    + apply IH.
Qed.

Lemma readlines_nonempty (s : string) : Forall (fun l => l <> "") (readlines s).
Proof. apply readlines_go_nonempty. Qed.

(** [contains] is the substring relation. *)
Lemma prefix_empty (s : string) : prefix "" s = true.
Proof. destruct s; reflexivity. Qed.

Lemma prefix_app (sub s : string) :
  prefix sub s = true <-> exists b, s = sub ++ b.
Proof.
  revert s. induction sub as [|c sub IH]; intros s.
  - rewrite prefix_empty. split; [intros _; exists s; reflexivity | reflexivity].
  - destruct s as [|d s]; simpl.
    + split; [discriminate | intros [b Hb]; discriminate].
    + destruct (ascii_dec c d) as [->|Hne].
      * rewrite IH. split; intros [b Hb]; exists b; [now rewrite Hb | now injection Hb].
      * split; [discriminate | intros [b Hb]; injection Hb; intros; congruence].
Qed.

Lemma contains_spec (sub s : string) :
  contains sub s = true <-> exists a b, s = a ++ sub ++ b.
Proof.
  induction s as [|c s IH].
  - cbn [contains]. rewrite orb_false_r, prefix_app. split.
    + intros [b Hb]. exists "", b. exact Hb.
    + intros [a [b Hab]]. destruct a; simpl in Hab; [exists b; exact Hab | discriminate].
  - cbn [contains]. rewrite orb_true_iff, IH, prefix_app. split.
    + intros [[b Hb] | [a [b Hab]]].
      * exists "", b. exact Hb.
      * exists (String c a), b. simpl. now rewrite Hab.
    + intros [a [b Hab]]. destruct a as [|d a]; simpl in Hab.
      * left. exists b. exact Hab.
      * right. exists a, b. now injection Hab.
Qed.

End TextFacts.

(* ================================================================= *)
(** ** Facts about computations *)

Lemma trace_bind {A B} (m : M A) (f : A -> M B) :
  trace (bind m f) =
  (trace m ++ match outcome m with
              | inr a => trace (f a)
              | inl _ => []
              end)%list.
Proof.
  destruct m as [tr [e|a]]; simpl.
  - now rewrite app_nil_r.
  - destruct (f a); reflexivity.
Qed.

Lemma outcome_bind {A B} (m : M A) (f : A -> M B) :
  outcome (bind m f) =
  match outcome m with
  | inr a => outcome (f a)
  | inl e => inl e
  end.
Proof.
  destruct m as [tr [e|a]]; simpl; [reflexivity | destruct (f a); reflexivity].
Qed.

Lemma trace_try {A} (m : M A) (h : Exn -> M A) :
  trace (try_except m h) =
  (trace m ++ match outcome m with
              | inl e => trace (h e)
              | inr _ => []
              end)%list.
Proof.
  destruct m as [tr [e|a]]; simpl.
  - destruct (h e); reflexivity.
  - now rewrite app_nil_r.
Qed.

Lemma outcome_try {A} (m : M A) (h : Exn -> M A) :
  outcome (try_except m h) =
  match outcome m with
  | inl e => outcome (h e)
  | inr a => inr a
  end.
Proof.
  destruct m as [tr [e|a]]; simpl; [destruct (h e); reflexivity | reflexivity].
Qed.

Lemma M_eta {A} (m : M A) : m = (trace m, outcome m).
Proof. destruct m; reflexivity. Qed.

(** A loop whose body never raises runs over the whole list. *)
Lemma for_each_total {A} (xs : list A) (body : A -> M unit) :
  (forall x, outcome (body x) = inr tt) ->
  for_each xs body = (flat_map (fun x => trace (body x)) xs, inr tt).
Proof.
  intros Hok. induction xs as [|x xs IH]; simpl.
  - reflexivity.
  - rewrite (M_eta (bind _ _)), trace_bind, outcome_bind, (Hok x), IH.
    reflexivity.
Qed.

Lemma log_line_outcome (output : string) : outcome (log_line output) = inr tt.
Proof. unfold log_line, when. destruct (nonempty output); reflexivity. Qed.

Lemma nonempty_true (s : string) : s <> "" -> nonempty s = true.
Proof. destruct s; [congruence | reflexivity]. Qed.

Lemma log_lines_trace (lines : list string) :
  Forall (fun l => l <> "") lines ->
  flat_map (fun x => trace (log_line x)) lines
  = map (fun l => ELog (Text.strip l)) lines.
Proof.
  induction 1 as [|l ls Hl _ IH]; simpl; [reflexivity|].
  unfold log_line at 1. rewrite (nonempty_true _ Hl). simpl. now rewrite IH.
Qed.

(** The whole of [run_command] for a child that could be launched. *)
Lemma run_command_launched (w : World) (command : list string)
      (dir : option string) (description : string)
      (overlay : list (string * string)) (p : Proc) :
  w_launch w (mkCmd command dir overlay) = Launched p ->
  run_command w command dir description overlay =
  (([ELog ("Running: " ++ description); ESpawn (mkCmd command dir overlay)]
      ++ map (fun l => ELog (Text.strip l)) (Text.readlines (p_stdout p))
      ++ [EWait (mkCmd command dir overlay)]
      ++ (if nonempty (p_stderr p) then [ELog (p_stderr p)] else []))%list,
   if (returncode p =? 0)%Z then inr (returncode p)
   else inl (PyException (description ++ " failed: " ++ p_stderr p))).
Proof.
  intros HL. unfold run_command, popen. cbv zeta. rewrite HL.
  cbv beta iota delta [bind emit log_message ret raise].
  rewrite (for_each_total _ _ log_line_outcome).
  rewrite (log_lines_trace _ (TextFacts.readlines_nonempty _)).
  cbv beta iota delta [when ret raise].
  destruct (nonempty (p_stderr p)), (returncode p =? 0)%Z;
    cbn [negb app nonempty]; rewrite ?app_nil_r; reflexivity.
Qed.

Lemma run_command_launch_error (w : World) (command : list string)
      (dir : option string) (description : string)
      (overlay : list (string * string)) (msg : string) :
  w_launch w (mkCmd command dir overlay) = LaunchError msg ->
  run_command w command dir description overlay =
  ([ELog ("Running: " ++ description); ESpawn (mkCmd command dir overlay)],
   inl (OSError msg)).
Proof.
  intros HL. unfold run_command, popen. cbv zeta. rewrite HL. reflexivity.
Qed.

(* ================================================================= *)
(** ** The command runner *)

(** C4: a normal return of [run_command] carries exit code 0; a child that
    exits with a non-zero code makes [run_command] raise an exception whose
    text holds the description and the child's standard error, and a child
    that exits with 0 makes it return 0. *)
Theorem run_command_returns_only_zero
        (w : World) (command : list string) (dir : option string)
        (description : string) (overlay : list (string * string)) :
  (forall rc, outcome (run_command w command dir description overlay) = inr rc ->
              rc = 0%Z)
  /\ (forall p, w_launch w (mkCmd command dir overlay) = Launched p ->
                returncode p <> 0%Z ->
                outcome (run_command w command dir description overlay)
                = inl (PyException (description ++ " failed: " ++ p_stderr p)))
  /\ (forall p, w_launch w (mkCmd command dir overlay) = Launched p ->
                returncode p = 0%Z ->
                outcome (run_command w command dir description overlay) = inr 0%Z).
Proof.
  split; [|split].
  - intros rc Hrc.
    destruct (w_launch w (mkCmd command dir overlay)) as [msg|p] eqn:HL.
    + rewrite (run_command_launch_error _ _ _ _ _ _ HL) in Hrc. discriminate.
    + rewrite (run_command_launched _ _ _ _ _ _ HL) in Hrc. cbn [outcome snd] in Hrc.
      destruct (returncode p =? 0)%Z eqn:Hz; [|discriminate].
      apply Z.eqb_eq in Hz. congruence.
  - intros p HL Hnz. rewrite (run_command_launched _ _ _ _ _ _ HL). cbn [outcome snd].
    apply Z.eqb_neq in Hnz. now rewrite Hnz.
  - intros p HL Hz. rewrite (run_command_launched _ _ _ _ _ _ HL). cbn [outcome snd].
    rewrite Hz. reflexivity.
Qed.

Lemma run_command_returns_only_zero_witness :
  outcome (run_command sample_world ["git"; "init"] (Some "/tmp/app")
                       "Initializing Git" []) = inr 0%Z
  /\ outcome (run_command
                (with_child sample_world ["git"; "init"]
                            (Launched (mkProc "" "fatal: no" 128)))
                ["git"; "init"] (Some "/tmp/app") "Initializing Git" [])
     = inl (PyException "Initializing Git failed: fatal: no").
Proof.
  split.
  - apply (proj2 (proj2 (run_command_returns_only_zero
                           sample_world ["git"; "init"] (Some "/tmp/app")
                           "Initializing Git" [])) (mkProc ("Creating files" ++ LF) "" 0));
      reflexivity.
  - apply (proj1 (proj2 (run_command_returns_only_zero
                           (with_child sample_world ["git"; "init"]
                                       (Launched (mkProc "" "fatal: no" 128)))
                           ["git"; "init"] (Some "/tmp/app")
                           "Initializing Git" [])) (mkProc "" "fatal: no" 128));
      [reflexivity | discriminate].
Defined.

(** C8, as stated, fails: a child that writes to its standard error has
    that text logged only after the wait for its exit, not before. *)
Lemma stderr_not_streamed :
  ~ (forall (w : World) (command : list string) (dir : option string)
            (description : string) (overlay : list (string * string))
            (p : Proc) (line : string),
        w_launch w (mkCmd command dir overlay) = Launched p ->
        In line (Text.readlines (p_stdout p) ++ Text.readlines (p_stderr p))%list ->
        logged_before_wait
          (trace (run_command w command dir description overlay))
          (mkCmd command dir overlay) (Text.strip line)).
Proof.
  intros H.
  specialize (H (with_child sample_world ["git"; "init"]
                            (Launched (mkProc "" ("boom" ++ LF) 0)))
                ["git"; "init"] (Some "/tmp/app") "Initializing Git" []
                (mkProc "" ("boom" ++ LF) 0) ("boom" ++ LF) eq_refl
                (or_introl eq_refl)).
  destruct H as [pre [post [Heq Hin]]].
  vm_compute in Heq.
  destruct pre as [|e1 pre]; [discriminate|].
  injection Heq as <- Heq.
  destruct pre as [|e2 pre]; [discriminate|].
  injection Heq as <- Heq.
  destruct pre as [|e3 pre].
  - destruct Hin as [Hin|[Hin|[]]]; discriminate.
  - injection Heq as <- Heq.
    destruct pre as [|e4 pre]; [discriminate|].
    injection Heq as <- Heq.
    destruct pre; discriminate.
Qed.

(** C8, amended: [run_command] logs every line of the child's standard
    output, stripped, in order and before it waits for the child's exit;
    the standard error is a separate pipe, read at exit and logged after
    the wait as one entry when it is not empty. *)
Theorem run_command_streams_stdout
        (w : World) (command : list string) (dir : option string)
        (description : string) (overlay : list (string * string)) (p : Proc) :
  w_launch w (mkCmd command dir overlay) = Launched p ->
  trace (run_command w command dir description overlay) =
  ([ELog ("Running: " ++ description); ESpawn (mkCmd command dir overlay)]
     ++ map (fun l => ELog (Text.strip l)) (Text.readlines (p_stdout p))
     ++ [EWait (mkCmd command dir overlay)]
     ++ (if nonempty (p_stderr p) then [ELog (p_stderr p)] else []))%list.
Proof.
  intros HL. now rewrite (run_command_launched _ _ _ _ _ _ HL).
Qed.

Lemma run_command_streams_stdout_witness :
  trace (run_command
           (with_child sample_world ["git"; "init"]
                       (Launched (mkProc ("one" ++ LF ++ "two" ++ LF) "warn" 0)))
           ["git"; "init"] (Some "/tmp/app") "Initializing Git" [])
  = [ELog "Running: Initializing Git";
     ESpawn (mkCmd ["git"; "init"] (Some "/tmp/app") []);
     ELog "one"; ELog "two";
     EWait (mkCmd ["git"; "init"] (Some "/tmp/app") []);
     ELog "warn"].
Proof.
  exact (run_command_streams_stdout
           (with_child sample_world ["git"; "init"]
                       (Launched (mkProc ("one" ++ LF ++ "two" ++ LF) "warn" 0)))
           ["git"; "init"] (Some "/tmp/app") "Initializing Git" []
           (mkProc ("one" ++ LF ++ "two" ++ LF) "warn" 0) eq_refl).
Defined.

(* ================================================================= *)
(** ** The interactive responder *)

Lemma answer_prompt_first_match (pipe : Pipe) (c : Cmd)
      (before after : list (string * string))
      (prompt response clean buffer : string) :
  Text.contains prompt clean = true ->
  (forall q r, In (q, r) before -> Text.contains q clean = false) ->
  answer_prompt pipe c (before ++ (prompt, response) :: after)%list clean buffer =
  match pipe with
  | PipeOpen =>
      ([ELog ("Responding to prompt: " ++ prompt); EWrite c response; EFlush c],
       inr "")
  | WriteFails msg =>
      ([ELog ("Responding to prompt: " ++ prompt); EWrite c response],
       inl (OSError msg))
  | FlushFails msg =>
      ([ELog ("Responding to prompt: " ++ prompt); EWrite c response; EFlush c],
       inl (OSError msg))
  end.
Proof.
  intros Hm. induction before as [|[q r] before IH]; intros Hno; simpl.
  - rewrite Hm. destruct pipe; reflexivity.
  - rewrite (Hno q r (or_introl eq_refl)). apply IH.
    intros q' r' Hin. apply (Hno q' r'). now right.
Qed.

Lemma answer_prompt_no_match (pipe : Pipe) (c : Cmd)
      (responses : list (string * string)) (clean buffer : string) :
  (forall q r, In (q, r) responses -> Text.contains q clean = false) ->
  answer_prompt pipe c responses clean buffer = ([], inr buffer).
Proof.
  induction responses as [|[q r] rest IH]; intros Hno; simpl.
  - reflexivity.
  - rewrite (Hno q r (or_introl eq_refl)). apply IH.
    intros q' r' Hin. apply (Hno q' r'). now right.
Qed.

Lemma answer_prompt_writes (pipe : Pipe) (c : Cmd)
      (responses : list (string * string)) (clean buffer : string) :
  (List.length (writes (trace (answer_prompt pipe c responses clean buffer))) <= 1)%nat.
Proof.
  induction responses as [|[q r] rest IH]; simpl.
  - apply Nat.le_0_l.
  - destruct (Text.contains q clean); [|exact IH].
    destruct pipe; apply Nat.le_refl.
Qed.

(** C3: on every line read by [run_command_with_input], the first key of
    the prompt table (in its iteration order) that is a substring of the
    cleaned line is the one answered: its response is written, the stream
    is flushed and the buffer is cleared; when no key matches nothing is
    written; and no line ever has more than one response written.  This
    holds whatever the state of the child's standard input: on a broken
    input the same response, and no other, is handed to [write], and the
    write or the flush raises. *)
Theorem first_matching_prompt_is_answered
        (pipe : Pipe) (c : Cmd) (responses : list (string * string))
        (buffer output : string) :
  output <> "" ->
  let clean := Regex.sub_empty Regex.ansi_escape (Text.strip output) in
  (forall before prompt response after,
      responses = (before ++ (prompt, response) :: after)%list ->
      Text.contains prompt clean = true ->
      (forall q r, In (q, r) before -> Text.contains q clean = false) ->
      handle_output pipe c responses buffer output =
      match pipe with
      | PipeOpen =>
          ([ELog clean; ELog ("Responding to prompt: " ++ prompt);
            EWrite c response; EFlush c], inr "")
      | WriteFails msg =>
          ([ELog clean; ELog ("Responding to prompt: " ++ prompt);
            EWrite c response], inl (OSError msg))
      | FlushFails msg =>
          ([ELog clean; ELog ("Responding to prompt: " ++ prompt);
            EWrite c response; EFlush c], inl (OSError msg))
      end)
  /\ ((forall q r, In (q, r) responses -> Text.contains q clean = false) ->
      handle_output pipe c responses buffer output =
      ([ELog clean], inr (buffer ++ clean ++ LF)))
  /\ (List.length (writes (trace (handle_output pipe c responses buffer output)))
      <= 1)%nat.
Proof.
  intros Hne clean. unfold handle_output. rewrite (nonempty_true _ Hne).
  fold clean. split; [|split].
  - intros before prompt response after -> Hm Hno.
    rewrite (M_eta (bind _ _)), trace_bind, outcome_bind.
    rewrite (answer_prompt_first_match _ _ _ _ _ _ _ _ Hm Hno).
    destruct pipe; reflexivity.
  - intros Hno.
    rewrite (M_eta (bind _ _)), trace_bind, outcome_bind.
    rewrite (answer_prompt_no_match _ _ _ _ _ Hno). reflexivity.
  - rewrite trace_bind. cbn [outcome log_message emit snd trace fst app writes flat_map].
    apply answer_prompt_writes.
Qed.

Lemma first_matching_prompt_is_answered_witness :
  handle_output PipeOpen (mkCmd shadcn_init_command (Some "/tmp/app") [])
                (shadcn_responses sample_config) "seen"
                (ESC ++ "[1m? Which color would you like to use as the base color?"
                     ++ ESC ++ "[0m How would you like to proceed?" ++ LF)
  = ([ELog "? Which color would you like to use as the base color? How would you like to proceed?";
      ELog "Responding to prompt: Which color would you like to use as the base color?";
      EWrite (mkCmd shadcn_init_command (Some "/tmp/app") []) ("zinc" ++ LF);
      EFlush (mkCmd shadcn_init_command (Some "/tmp/app") [])],
     inr "").
Proof.
  refine (proj1 (first_matching_prompt_is_answered
                   PipeOpen
                   (mkCmd shadcn_init_command (Some "/tmp/app") [])
                   (shadcn_responses sample_config) "seen"
                   (ESC ++ "[1m? Which color would you like to use as the base color?"
                        ++ ESC ++ "[0m How would you like to proceed?" ++ LF)
                   _)
                [("Which style would you like to use?", "new-york" ++ LF)]
                "Which color would you like to use as the base color?"
                ("zinc" ++ LF)
                [("Would you like to use CSS variables for theming?", "yes" ++ LF);
                 ("How would you like to proceed?", "Use --force" ++ LF)]
                eq_refl eq_refl _).
  - discriminate.
  - intros q r [Hin|[]]. injection Hin as <- <-. reflexivity.
Defined.

(* ================================================================= *)
(** ** Stripping escape sequences *)

Lemma sub_go_length (r : Regex.re) (s : string) (skip : nat) :
  (String.length (Regex.sub_go r s skip) <= String.length s)%nat.
Proof.
  revert skip. induction s as [|c s IH]; intros skip; simpl.
  - apply Nat.le_refl.
  - destruct skip as [|k].
    + destruct (Regex.match_at r (String c s)).
      * apply Nat.le_trans with (String.length s); [apply IH | apply Nat.le_succ_diag_r].
      * simpl. apply le_n_S, IH.
    + apply Nat.le_trans with (String.length s); [apply IH | apply Nat.le_succ_diag_r].
Qed.

Lemma sub_empty_no_match (r : Regex.re) (s : string) :
  Regex.has_match r s = false -> Regex.sub_empty r s = s.
Proof.
  unfold Regex.sub_empty. induction s as [|c s IH]; intros H.
  - reflexivity.
  - cbn [Regex.has_match] in H. cbn [Regex.sub_go].
    destruct (Regex.match_at r (String c s)); [discriminate|].
    now rewrite (IH H).
Qed.

Lemma sub_empty_match_shrinks (r : Regex.re) (s : string) :
  Regex.match_at r "" = None ->
  Regex.has_match r s = true ->
  (String.length (Regex.sub_empty r s) < String.length s)%nat.
Proof.
  intros Hnil. unfold Regex.sub_empty. induction s as [|c s IH]; intros H.
  - cbn [Regex.has_match] in H. rewrite Hnil in H. discriminate.
  - cbn [Regex.has_match] in H. cbn [Regex.sub_go].
    destruct (Regex.match_at r (String c s)).
    + apply Nat.lt_succ_r. apply sub_go_length.
    + cbn [String.length]. apply -> Nat.succ_lt_mono. apply (IH H).
Qed.

(** A text is left alone by the stripping exactly when no escape sequence
    starts anywhere in it. *)
Lemma remove_ansi_fixpoint (s : string) :
  remove_ansi_escape_sequences s = s <->
  Regex.has_match Regex.ansi_escape s = false.
Proof.
  split.
  - intros Hfix.
    destruct (Regex.has_match Regex.ansi_escape s) eqn:Hm; [|reflexivity].
    pose proof (sub_empty_match_shrinks Regex.ansi_escape s eq_refl Hm) as Hlt.
    unfold remove_ansi_escape_sequences in Hfix. rewrite Hfix in Hlt.
    exfalso. apply (Nat.lt_irrefl _ Hlt).
  - apply sub_empty_no_match.
Qed.

(** A match of the pattern begins with the escape character. *)
Lemma ansi_match_starts_with_esc (c : ascii) (s : string) :
  Regex.is_esc c = false -> Regex.match_at Regex.ansi_escape (String c s) = None.
Proof. intros H. cbn. now rewrite H. Qed.

Lemma no_esc_no_match (s : string) :
  has_char Regex.is_esc s = false ->
  Regex.has_match Regex.ansi_escape s = false.
Proof.
  induction s as [|c s IH]; intros H.
  - reflexivity.
  - cbn [has_char] in H. apply orb_false_iff in H as [Hc Hs].
    cbn [Regex.has_match]. rewrite (ansi_match_starts_with_esc c s Hc).
    apply (IH Hs).
Qed.

(** C6, as stated, fails: stripping ESC ESC "AA" leaves ESC "A", which the
    next stripping removes. *)
Lemma strip_not_idempotent :
  ~ (forall s : string,
        remove_ansi_escape_sequences (remove_ansi_escape_sequences s)
        = remove_ansi_escape_sequences s).
Proof.
  intros H. specialize (H (ESC ++ ESC ++ "AA")). vm_compute in H. discriminate.
Qed.

(** C6, amended: stripping returns a text unchanged exactly when no escape
    sequence starts anywhere in it, in particular when it holds no ESC;
    so stripping twice equals stripping once exactly for the texts whose
    stripped form holds no escape sequence. *)
Theorem strip_unchanged_on_clean_text (s : string) :
  (remove_ansi_escape_sequences s = s <->
   Regex.has_match Regex.ansi_escape s = false)
  /\ (has_char Regex.is_esc s = false -> remove_ansi_escape_sequences s = s)
  /\ (remove_ansi_escape_sequences (remove_ansi_escape_sequences s)
      = remove_ansi_escape_sequences s <->
      Regex.has_match Regex.ansi_escape (remove_ansi_escape_sequences s) = false).
Proof.
  split; [apply remove_ansi_fixpoint | split].
  - intros H. apply remove_ansi_fixpoint, no_esc_no_match, H.
  - apply remove_ansi_fixpoint.
Qed.

Lemma strip_unchanged_on_clean_text_witness :
  remove_ansi_escape_sequences "Which style would you like to use?"
  = "Which style would you like to use?".
Proof.
  exact (proj1 (proj2 (strip_unchanged_on_clean_text
                         "Which style would you like to use?")) eq_refl).
Defined.

(* ================================================================= *)
(** ** What each part of the pipeline emits *)

Section Emits.
Variable P : Event -> Prop.

Lemma emits_ret {A} (a : A) : emits P (ret a).
Proof. constructor. Qed.

Lemma emits_raise {A} (e : Exn) : emits P (@raise A e).
Proof. constructor. Qed.

Lemma emits_emit (ev : Event) : P ev -> emits P (emit ev).
Proof. intros H. constructor; [exact H | constructor]. Qed.

Lemma emits_bind {A B} (m : M A) (f : A -> M B) :
  emits P m -> (forall a, emits P (f a)) -> emits P (bind m f).
Proof.
  unfold emits. intros Hm Hf. rewrite trace_bind. apply Forall_app. split.
  - exact Hm.
  - destruct (outcome m); [constructor | apply Hf].
Qed.

Lemma emits_try {A} (m : M A) (h : Exn -> M A) :
  emits P m -> (forall e, emits P (h e)) -> emits P (try_except m h).
Proof.
  unfold emits. intros Hm Hh. rewrite trace_try. apply Forall_app. split.
  - exact Hm.
  - destruct (outcome m); [apply Hh | constructor].
Qed.

Lemma emits_when (b : bool) (m : M unit) : emits P m -> emits P (when b m).
Proof. destruct b; [trivial | intros _; constructor]. Qed.

Lemma emits_for_each {A} (xs : list A) (body : A -> M unit) :
  (forall x, emits P (body x)) -> emits P (for_each xs body).
Proof.
  intros Hb. induction xs as [|x xs IH]; cbn [for_each].
  - constructor.
  - apply emits_bind; [apply Hb | intros _; exact IH].
Qed.

Lemma emits_popen (w : World) (c : Cmd) : P (ESpawn c) -> emits P (popen w c).
Proof.
  intros H. unfold popen. apply emits_bind; [now apply emits_emit|].
  intros _. destruct (w_launch w c); [apply emits_raise | apply emits_ret].
Qed.

Hypothesis P_log : forall s, P (ELog s).

Lemma emits_log (s : string) : emits P (log_message s).
Proof. apply emits_emit, P_log. Qed.

Lemma emits_run_command (w : World) (command : list string)
      (dir : option string) (description : string)
      (overlay : list (string * string)) :
  P (ESpawn (mkCmd command dir overlay)) ->
  P (EWait (mkCmd command dir overlay)) ->
  emits P (run_command w command dir description overlay).
Proof.
  intros Hs Hw. unfold run_command.
  apply emits_bind; [apply emits_log | intros _].
  apply emits_bind; [now apply emits_popen | intros process].
  apply emits_bind.
  { apply emits_for_each. intros x. apply emits_when, emits_log. }
  intros _. apply emits_bind; [now apply emits_emit | intros _].
  apply emits_bind; [apply emits_when, emits_log | intros _].
  apply emits_bind; [apply emits_when, emits_log | intros _].
  destruct (negb _); [apply emits_raise | apply emits_ret].
Qed.

Lemma emits_answer_prompt (pipe : Pipe) (c : Cmd)
      (responses : list (string * string)) (clean buffer : string) :
  (forall s, P (EWrite c s)) -> P (EFlush c) ->
  emits P (answer_prompt pipe c responses clean buffer).
Proof.
  intros Hw Hf. induction responses as [|[q r] rest IH]; cbn [answer_prompt].
  - apply emits_ret.
  - destruct (Text.contains q clean); [|exact IH].
    apply emits_bind; [apply emits_log | intros _].
    apply emits_bind.
    { unfold stdin_write. apply emits_bind; [apply emits_emit, Hw | intros _].
      destruct pipe; first [apply emits_ret | apply emits_raise]. }
    intros _. apply emits_bind.
    { unfold stdin_flush. apply emits_bind; [now apply emits_emit | intros _].
      destruct pipe; first [apply emits_ret | apply emits_raise]. }
    intros _. apply emits_ret.
Qed.

Lemma emits_read_and_respond (w : World) (c : Cmd)
      (responses : list (string * string))
      (buffer : string) (n : nat) (lines : list string) :
  (forall s, P (EWrite c s)) -> P (EFlush c) ->
  emits P (read_and_respond w c responses buffer n lines).
Proof.
  intros Hw Hf. revert buffer n.
  induction lines as [|l lines IH]; intros buffer n; cbn [read_and_respond].
  - apply emits_ret.
  - apply emits_bind; [|intros b; apply IH].
    unfold handle_output. destruct (nonempty l); [|apply emits_ret].
    apply emits_bind; [apply emits_log | intros _].
    now apply emits_answer_prompt.
Qed.

Lemma emits_run_command_with_input (w : World) (command : list string)
      (dir : option string) (description : string)
      (responses overlay : list (string * string)) :
  P (ESpawn (mkCmd command dir overlay)) ->
  P (EWait (mkCmd command dir overlay)) ->
  (forall s, P (EWrite (mkCmd command dir overlay) s)) ->
  P (EFlush (mkCmd command dir overlay)) ->
  emits P (run_command_with_input w command dir description responses overlay).
Proof.
  intros Hs Hw Hwr Hfl. unfold run_command_with_input.
  apply emits_bind; [apply emits_log | intros _].
  apply emits_bind; [now apply emits_popen | intros process].
  apply emits_bind; [now apply emits_read_and_respond | intros _].
  apply emits_bind; [now apply emits_emit | intros _].
  apply emits_bind; [apply emits_when, emits_log | intros _].
  apply emits_bind; [apply emits_when, emits_log | intros _].
  destruct (negb _); [apply emits_raise | apply emits_ret].
Qed.
Lemma emits_py_int (w : World) (s : string) : emits P (py_int w s).
Proof.
  unfold py_int. destruct (Text.parse_int _ _);
    first [apply emits_ret | apply emits_raise].
Qed.

Lemma emits_wait_ready (w : World) (lines : list string) :
  P (ESleep 2) -> emits P (wait_ready w lines).
Proof.
  intros Hs. induction lines as [|l lines IH]; cbn [wait_ready].
  - apply emits_ret.
  - destruct (nonempty l); [|exact IH].
    apply emits_bind; [apply emits_log | intros _].
    destruct (is_ready_line l); [|exact IH].
    apply emits_bind.
    + unfold parse_port. destruct (nth_error _ 1); [|apply emits_raise].
      apply emits_py_int.
    + intros port. apply emits_bind; [now apply emits_emit | intros _].
      apply emits_ret.
Qed.

Lemma emits_start_dev_server (cfg : Config) (w : World) (dir : string) :
  P (ESpawn (mkCmd dev_command (Some dir) [])) ->
  P (ESleep 2) ->
  (forall url, P (EBrowser url)) ->
  emits P (start_dev_server cfg w dir).
Proof.
  intros Hsp Hsl Hbr. unfold start_dev_server.
  apply emits_bind; [apply emits_log | intros _].
  apply emits_bind; [now apply emits_popen | intros process].
  apply emits_bind; [now apply emits_wait_ready | intros [port|]];
    [|apply emits_ret].
  apply emits_bind; [apply emits_log | intros _].
  apply emits_when.
  apply emits_bind; [apply emits_log | intros _].
  apply emits_emit, Hbr.
Qed.
End Emits.

Lemma emits_weaken {A} (P Q : Event -> Prop) (m : M A) :
  (forall e, P e -> Q e) -> emits P m -> emits Q m.
Proof. intros H. apply Forall_impl, H. Qed.

Lemma step_event_log (s : Step) (text : string) : step_event s (ELog text).
Proof. exact I. Qed.

Lemma block_event_log (s : Step) (text : string) : block_event s (ELog text).
Proof. left. exact I. Qed.

Lemma step_event_block (s : Step) (e : Event) : step_event s e -> block_event s e.
Proof. now left. Qed.

Lemma emits_milestone (s : Step) (message : string) :
  milestone_step message = Some s -> emits (block_event s) (progress message).
Proof. intros H. apply emits_emit. right. now exists message. Qed.

#[local] Hint Resolve step_event_log block_event_log : core.

Lemma check_dependencies_emits (w : World) :
  emits (step_event Deps) (check_dependencies w).
Proof.
  assert (Hrun : forall command,
             command_step command = Some Deps ->
             emits (step_event Deps) (subprocess_run w command)).
  { intros command Hc. unfold subprocess_run. cbv zeta.
    apply emits_bind; [apply emits_popen; exact Hc | intros p].
    apply emits_bind; [apply emits_emit; exact Hc | intros _; apply emits_ret]. }
  unfold check_dependencies. apply emits_try.
  - apply emits_bind; [apply Hrun; reflexivity | intros node_version].
    apply emits_bind; [apply Hrun; reflexivity | intros npm_version].
    apply emits_bind; [apply emits_when, emits_raise | intros _].
    apply emits_bind; [|intros _; apply emits_ret].
    apply emits_for_each. intros pkg.
    apply emits_bind; [apply Hrun; reflexivity | intros result].
    apply emits_when, emits_raise.
  - intros e. apply emits_bind; [apply emits_log; auto | intros _; apply emits_ret].
Qed.

Lemma command_step_create (cfg : Config) :
  command_step (create_command cfg) = Some Scaffold.
Proof. reflexivity. Qed.

Lemma scaffold_line_emits (output : string) :
  emits (step_event Scaffold) (scaffold_line output).
Proof.
  unfold scaffold_line. apply emits_when. cbv zeta.
  apply emits_bind; [apply emits_log; auto | intros _].
  repeat match goal with
         | |- emits _ (if ?b then _ else _) => destruct b
         end;
    first [apply emits_ret | apply emits_emit; reflexivity].
Qed.

Lemma deps_block_emits (w : World) : emits (block_event Deps) (deps_block w).
Proof.
  unfold deps_block.
  apply emits_bind; [apply emits_milestone; reflexivity | intros _].
  apply emits_bind.
  - apply (emits_weaken (step_event Deps)); [apply step_event_block|].
    apply check_dependencies_emits.
  - intros ok. apply emits_when, emits_raise.
Qed.

Lemma scaffold_block_emits (cfg : Config) (w : World) (dir : string) :
  emits (block_event Scaffold) (scaffold_block cfg w dir).
Proof.
  unfold scaffold_block.
  apply emits_bind; [apply emits_milestone; reflexivity | intros _].
  apply emits_bind; [apply emits_log; auto | intros _].
  apply emits_bind; [apply emits_log; auto | intros _].
  apply emits_bind.
  { apply emits_popen. left. apply command_step_create. }
  intros process. apply emits_bind.
  - apply emits_for_each. intros x.
    apply (emits_weaken (step_event Scaffold)); [apply step_event_block|].
    apply scaffold_line_emits.
  - intros _. apply emits_when, emits_raise.
Qed.

Lemma features_block_emits (cfg : Config) (dir : string) :
  emits (block_event Features) (features_block cfg dir).
Proof.
  unfold features_block. apply emits_when.
  apply emits_bind; [apply emits_milestone; reflexivity | intros _].
  apply emits_raise.
Qed.

Lemma setup_shadcn_emits (cfg : Config) (w : World) (dir : string) :
  emits (step_event Shadcn) (setup_shadcn_and_utilities cfg w dir).
Proof.
  unfold setup_shadcn_and_utilities. apply emits_try.
  - apply emits_bind; [apply emits_log; auto | intros _]. cbv zeta.
    apply emits_bind.
    { apply emits_run_command; auto; reflexivity. }
    intros _. apply emits_bind.
    { apply emits_run_command_with_input; auto; reflexivity. }
    intros _. apply emits_log; auto.
  - intros e. apply emits_bind; [apply emits_log; auto | intros _; apply emits_raise].
Qed.

Lemma shadcn_block_emits (cfg : Config) (w : World) (dir : string) :
  emits (block_event Shadcn) (shadcn_block cfg w dir).
Proof.
  unfold shadcn_block.
  apply emits_bind; [apply emits_milestone; reflexivity | intros _].
  apply (emits_weaken (step_event Shadcn)); [apply step_event_block|].
  apply setup_shadcn_emits.
Qed.

Lemma run_command_block_emits (s : Step) (w : World) (message : string)
      (command : list string) (dir : option string) (description : string) :
  milestone_step message = Some s ->
  command_step command = Some s ->
  emits (block_event s)
        (progress message ;;
         _ <- run_command w command dir description [] ;;
         ret tt).
Proof.
  intros Hm Hc.
  apply emits_bind; [now apply emits_milestone | intros _].
  apply emits_bind; [|intros _; apply emits_ret].
  apply emits_run_command; auto; left; exact Hc.
Qed.

Lemma git_block_emits (cfg : Config) (w : World) (dir : string) :
  emits (block_event Git) (git_block cfg w dir).
Proof.
  unfold git_block. apply emits_when.
  apply run_command_block_emits; reflexivity.
Qed.

Lemma build_block_emits (cfg : Config) (w : World) (dir : string) :
  emits (block_event Build) (build_block cfg w dir).
Proof.
  unfold build_block. apply emits_when.
  apply run_command_block_emits; reflexivity.
Qed.

Lemma editor_block_emits (cfg : Config) (w : World) (dir : string) :
  emits (block_event Editor) (editor_block cfg w dir).
Proof.
  unfold editor_block. apply emits_when.
  apply run_command_block_emits; reflexivity.
Qed.

Lemma start_dev_server_emits (cfg : Config) (w : World) (dir : string) :
  emits (step_event DevServer) (start_dev_server cfg w dir).
Proof. apply emits_start_dev_server; auto; reflexivity. Qed.

Lemma dev_block_emits (cfg : Config) (w : World) (dir : string) :
  emits (block_event DevServer) (dev_block cfg w dir).
Proof.
  unfold dev_block. apply emits_when.
  apply emits_bind; [apply emits_milestone; reflexivity | intros _].
  apply (emits_weaken (step_event DevServer)); [apply step_event_block|].
  apply start_dev_server_emits.
Qed.

(* ================================================================= *)
(** ** The order of the steps *)

Lemma block_event_step (s : Step) (e : Event) :
  block_event s e -> event_step e = None \/ event_step e = Some s.
Proof.
  intros [H | [message [-> H]]]; [|now right].
  destruct e; cbn in *; auto; contradiction.
Qed.

Lemma ordered_from_weaken (j k : nat) (tr : list Event) :
  (j <= k)%nat -> ordered_from k tr = true -> ordered_from j tr = true.
Proof.
  intros Hjk. induction tr as [|e tr IH]; cbn [ordered_from]; [trivial|].
  destruct (event_step e) as [s|]; [|exact IH].
  intros H. apply andb_true_iff in H as [Hk Hs]. apply andb_true_iff. split.
  - apply Nat.leb_le in Hk. apply Nat.leb_le. now apply Nat.le_trans with k.
  - exact Hs.
Qed.

Lemma ordered_block (s : Step) (k : nat) (tr rest : list Event) :
  Forall (block_event s) tr ->
  (k <= step_index s)%nat ->
  ordered_from (step_index s) rest = true ->
  ordered_from k (tr ++ rest) = true.
Proof.
  intros Htr. revert k. induction Htr as [|e tr He _ IH]; intros k Hk Hrest.
  - now apply ordered_from_weaken with (step_index s).
  - cbn [app ordered_from].
    destruct (block_event_step s e He) as [-> | ->].
    + now apply IH.
    + apply andb_true_iff. split; [now apply Nat.leb_le|].
      apply IH; [apply Nat.le_refl | exact Hrest].
Qed.

Lemma ordered_bind {A B} (s : Step) (k : nat) (m : M A) (f : A -> M B) :
  emits (block_event s) m ->
  (k <= step_index s)%nat ->
  (forall a, ordered_from (step_index s) (trace (f a)) = true) ->
  ordered_from k (trace (bind m f)) = true.
Proof.
  intros Hm Hk Hf. rewrite trace_bind. apply (ordered_block s); auto.
  destruct (outcome m); [reflexivity | apply Hf].
Qed.

Lemma ordered_from_app_quiet (k : nat) (t1 t2 : list Event) :
  Forall (fun e => event_step e = None) t2 ->
  ordered_from k (t1 ++ t2) = ordered_from k t1.
Proof.
  intros H2. revert k. induction t1 as [|e t1 IH]; intros k; cbn [app ordered_from].
  - induction H2 as [|e t2 He _ IH2]; cbn [ordered_from]; [reflexivity|].
    now rewrite He.
  - destruct (event_step e); [now rewrite IH | apply IH].
Qed.

Lemma ordered_from_pair (k : nat) (tr1 tr2 tr3 : list Event) (e1 e2 : Event)
      (s1 s2 : Step) :
  ordered_from k (tr1 ++ e1 :: tr2 ++ e2 :: tr3) = true ->
  event_step e1 = Some s1 -> event_step e2 = Some s2 ->
  (step_index s1 <= step_index s2)%nat.
Proof.
  intros H H1 H2.
  assert (Hafter : forall j tr, ordered_from j (tr ++ e2 :: tr3) = true ->
                                (j <= step_index s2)%nat).
  { intros j tr. revert j. induction tr as [|e tr IH]; intros j Hj;
      cbn [app ordered_from] in Hj.
    - rewrite H2 in Hj. apply andb_true_iff in Hj as [Hj _]. now apply Nat.leb_le.
    - destruct (event_step e) as [s|]; [|now apply IH].
      apply andb_true_iff in Hj as [Hjs Hj]. apply Nat.leb_le in Hjs.
      apply Nat.le_trans with (step_index s); [exact Hjs | now apply IH]. }
  revert k H. induction tr1 as [|e tr1 IH]; intros k H; cbn [app ordered_from] in H.
  - rewrite H1 in H. apply andb_true_iff in H as [_ H]. now apply (Hafter _ tr2).
  - destruct (event_step e) as [s|]; [|now apply (IH k)].
    apply andb_true_iff in H as [_ H]. now apply (IH (step_index s)).
Qed.

Lemma run_body_ordered (cfg : Config) (w : World) :
  ordered_from 0 (trace (run_body cfg w)) = true.
Proof.
  unfold run_body. cbv zeta.
  apply (ordered_bind Deps); [apply deps_block_emits | apply Nat.le_0_l | intros _].
  apply (ordered_bind Scaffold);
    [apply scaffold_block_emits | repeat constructor | intros _].
  apply (ordered_bind Features);
    [apply features_block_emits | repeat constructor | intros _].
  apply (ordered_bind Shadcn);
    [apply shadcn_block_emits | repeat constructor | intros _].
  apply (ordered_bind Git); [apply git_block_emits | repeat constructor | intros _].
  apply (ordered_bind Build);
    [apply build_block_emits | repeat constructor | intros _].
  apply (ordered_bind Editor);
    [apply editor_block_emits | repeat constructor | intros _].
  apply (ordered_bind DevServer);
    [apply dev_block_emits | repeat constructor | intros _].
  reflexivity.
Qed.

Lemma handler_quiet (e : Exn) :
  Forall (fun ev => event_step ev = None) (failure_report (exn_str e)).
Proof. repeat constructor. Qed.

Lemma run_unfold (cfg : Config) (w : World) :
  run cfg w =
  (trace (run_body cfg w)
     ++ match outcome (run_body cfg w) with
        | inl e => failure_report (exn_str e)
        | inr _ => []
        end)%list.
Proof.
  unfold run. rewrite trace_try.
  destruct (outcome (run_body cfg w)); reflexivity.
Qed.

Lemma run_ordered (cfg : Config) (w : World) : ordered_from 0 (run cfg w) = true.
Proof.
  rewrite run_unfold, ordered_from_app_quiet; [apply run_body_ordered|].
  destruct (outcome (run_body cfg w)); [apply handler_quiet | constructor].
Qed.

(** C1: in every run, for every configuration and every behaviour of the
    tools, an event that marks a step (its milestone or the launch of one
    of its commands) is never followed by an event that marks an earlier
    step: dependency check, scaffold, feature installs, component-library
    init, git init, build, editor launch, dev server, in this order. *)
Theorem step_order_is_fixed
        (cfg : Config) (w : World) (tr1 tr2 tr3 : list Event) (e1 e2 : Event)
        (s1 s2 : Step) :
  run cfg w = (tr1 ++ e1 :: tr2 ++ e2 :: tr3)%list ->
  event_step e1 = Some s1 ->
  event_step e2 = Some s2 ->
  (step_index s1 <= step_index s2)%nat.
Proof.
  intros Hrun. apply (ordered_from_pair 0 tr1 tr2 tr3 e1 e2).
  rewrite <- Hrun. apply run_ordered.
Qed.

Lemma step_order_is_fixed_witness :
  run sample_config sample_world
  = (firstn 14 (run sample_config sample_world)
       ++ ESpawn (scaffold_cmd sample_config)
       :: firstn 5 (skipn 15 (run sample_config sample_world))
       ++ ESpawn (mkCmd (["npm"; "install"; "--save-dev"] ++ shadcn_deps)%list
                        (Some "/tmp/app") [])
       :: skipn 21 (run sample_config sample_world))%list
  /\ (step_index Scaffold <= step_index Shadcn)%nat.
Proof.
  split; [reflexivity|].
  apply (step_order_is_fixed
           sample_config sample_world
           (firstn 14 (run sample_config sample_world))
           (firstn 5 (skipn 15 (run sample_config sample_world)))
           (skipn 21 (run sample_config sample_world))
           (ESpawn (scaffold_cmd sample_config))
           (ESpawn (mkCmd (["npm"; "install"; "--save-dev"] ++ shadcn_deps)%list
                          (Some "/tmp/app") []))
           Scaffold Shadcn); reflexivity.
Defined.

(* ================================================================= *)
(** ** The steps that run *)

Lemma trace_progress_bind {A} (message : string) (m : M A) :
  trace (progress message ;; m) = EProgress message :: trace m.
Proof. rewrite trace_bind. reflexivity. Qed.

Lemma outcome_progress_bind {A} (message : string) (m : M A) :
  outcome (progress message ;; m) = outcome m.
Proof. rewrite outcome_bind. reflexivity. Qed.

Lemma steps_run_app (t1 t2 : list Event) :
  steps_run (t1 ++ t2) = (steps_run t1 ++ steps_run t2)%list.
Proof. apply flat_map_app. Qed.

Lemma steps_run_step_events (s : Step) (tr : list Event) :
  Forall (step_event s) tr -> steps_run tr = [].
Proof.
  induction 1 as [|e tr He _ IH]; [reflexivity|].
  cbn [steps_run flat_map]. fold (steps_run tr). rewrite IH.
  destruct e; try reflexivity. cbn in He. now rewrite He.
Qed.

Lemma spawned_app (t1 t2 : list Event) :
  spawned (t1 ++ t2) = (spawned t1 ++ spawned t2)%list.
Proof. apply flat_map_app. Qed.

Lemma spawned_block (s : Step) (tr : list Event) :
  Forall (block_event s) tr ->
  Forall (fun c => command_step (argv c) = Some s) (spawned tr).
Proof.
  induction 1 as [|e tr He _ IH]; [constructor|].
  cbn [spawned flat_map]. fold (spawned tr).
  destruct e; try exact IH. constructor; [|exact IH].
  destruct He as [He | [message [Hm _]]]; [exact He | discriminate].
Qed.

Lemma deps_inner_emits (w : World) :
  emits (step_event Deps)
        (ok <- check_dependencies w ;;
         when (negb ok)
              (raise (PyException
                        "Required dependencies not found. Please run setup.py first"))).
Proof.
  apply emits_bind; [apply check_dependencies_emits | intros ok].
  apply emits_when, emits_raise.
Qed.

Lemma scaffold_inner_emits (cfg : Config) (w : World) (dir : string) :
  emits (step_event Scaffold)
        (log_message ("Creating project at: " ++ dir) ;;
         log_message ("Running command: " ++ Text.join " " (create_command cfg)) ;;
         process <- popen w (scaffold_cmd cfg) ;;
         for_each (Text.readlines (p_stdout process)) scaffold_line ;;
         when (negb (returncode process =? 0)%Z)
              (let stderr := p_stderr process in
               raise (PyException ("Project creation failed: " ++ stderr)))).
Proof.
  apply emits_bind; [apply emits_log; auto | intros _].
  apply emits_bind; [apply emits_log; auto | intros _].
  apply emits_bind; [apply emits_popen, command_step_create | intros process].
  apply emits_bind; [apply emits_for_each, scaffold_line_emits | intros _].
  apply emits_when, emits_raise.
Qed.

Lemma steps_run_block {A} (s : Step) (message : string) (inner : M A) :
  milestone_step message = Some s ->
  emits (step_event s) inner ->
  steps_run (trace (progress message ;; inner)) = [s].
Proof.
  intros Hm Hin. rewrite trace_progress_bind.
  cbn [steps_run flat_map]. rewrite Hm.
  fold (steps_run (trace inner)). now rewrite (steps_run_step_events s _ Hin).
Qed.

Lemma deps_block_steps (w : World) : steps_run (trace (deps_block w)) = [Deps].
Proof. apply steps_run_block; [reflexivity | apply deps_inner_emits]. Qed.

Lemma scaffold_block_steps (cfg : Config) (w : World) (dir : string) :
  steps_run (trace (scaffold_block cfg w dir)) = [Scaffold].
Proof. apply steps_run_block; [reflexivity | apply scaffold_inner_emits]. Qed.

Lemma shadcn_block_steps (cfg : Config) (w : World) (dir : string) :
  steps_run (trace (shadcn_block cfg w dir)) = [Shadcn].
Proof. apply steps_run_block; [reflexivity | apply setup_shadcn_emits]. Qed.

Lemma scaffold_line_outcome (output : string) :
  outcome (scaffold_line output) = inr tt.
Proof.
  unfold scaffold_line, when. destruct (nonempty output); [|reflexivity].
  cbv zeta. rewrite outcome_bind. cbn [outcome log_message emit snd].
  repeat match goal with
         | |- context [if ?b then _ else _] => destruct b
         end; reflexivity.
Qed.

Lemma scaffold_block_outcome (cfg : Config) (w : World) (dir : string) (p : Proc) :
  w_launch w (scaffold_cmd cfg) = Launched p ->
  outcome (scaffold_block cfg w dir) =
  if (returncode p =? 0)%Z then inr tt
  else inl (PyException ("Project creation failed: " ++ p_stderr p)).
Proof.
  intros HL. unfold scaffold_block.
  rewrite outcome_progress_bind.
  do 2 (rewrite outcome_bind; cbn [outcome log_message emit snd]).
  rewrite outcome_bind. unfold popen at 1.
  rewrite outcome_bind. cbn [outcome emit snd]. rewrite HL. cbn [outcome ret snd].
  rewrite outcome_bind, (for_each_total _ _ scaffold_line_outcome).
  cbn [outcome snd]. destruct (returncode p =? 0)%Z; reflexivity.
Qed.

Lemma deps_block_outcome (w : World) :
  outcome (check_dependencies w) = inr true -> outcome (deps_block w) = inr tt.
Proof.
  intros H. unfold deps_block. rewrite outcome_progress_bind, outcome_bind, H.
  reflexivity.
Qed.

(** The trace of the body when every optional block is switched off. *)
Lemma run_body_toggles_off (cfg : Config) (w : World) :
  optional_toggles_off cfg = true ->
  forall dir, dir = w_path_join w (project_path cfg) (project_name cfg) ->
  trace (run_body cfg w) =
  (trace (deps_block w)
     ++ match outcome (deps_block w) with
        | inl _ => []
        | inr _ =>
            trace (scaffold_block cfg w dir)
              ++ match outcome (scaffold_block cfg w dir) with
                 | inl _ => []
                 | inr _ =>
                     trace (shadcn_block cfg w dir)
                       ++ match outcome (shadcn_block cfg w dir) with
                          | inl _ => []
                          | inr _ =>
                              [EProgress ("Project creation completed! " ++ ROCKET);
                               EFinished true "Project created successfully!"]
                          end
                 end
        end)%list.
Proof.
  unfold optional_toggles_off. intros H.
  repeat (apply andb_true_iff in H; destruct H as [H ?]).
  repeat match goal with
         | H : negb _ = true |- _ => apply negb_true_iff in H
         end.
  intros dir ->. unfold run_body. cbv zeta.
  set (dir := w_path_join w (project_path cfg) (project_name cfg)).
  unfold features_block, git_block, build_block, editor_block, dev_block.
  repeat match goal with
         | H : _ = false |- _ => rewrite H; clear H
         end.
  unfold when.
  rewrite trace_bind. destruct (outcome (deps_block w)); [reflexivity|].
  rewrite trace_bind. destruct (outcome (scaffold_block cfg w dir)); [reflexivity|].
  rewrite trace_bind. cbn [outcome ret snd trace fst app].
  rewrite trace_bind. destruct (outcome (shadcn_block cfg w dir)); reflexivity.
Qed.

Lemma steps_run_failure_report (msg : string) : steps_run (failure_report msg) = [].
Proof. reflexivity. Qed.

(* ================================================================= *)
(** ** The package manager *)

Lemma block_pipeline_event {A} (s : Step) (m : M A) :
  emits (block_event s) m -> emits pipeline_event m.
Proof. apply emits_weaken. intros e He. left. now exists s. Qed.

Lemma run_body_emits (cfg : Config) (w : World) :
  emits pipeline_event (run_body cfg w).
Proof.
  unfold run_body. cbv zeta.
  apply emits_bind; [apply (block_pipeline_event Deps), deps_block_emits | intros _].
  apply emits_bind;
    [apply (block_pipeline_event Scaffold), scaffold_block_emits | intros _].
  apply emits_bind;
    [apply (block_pipeline_event Features), features_block_emits | intros _].
  apply emits_bind;
    [apply (block_pipeline_event Shadcn), shadcn_block_emits | intros _].
  apply emits_bind; [apply (block_pipeline_event Git), git_block_emits | intros _].
  apply emits_bind;
    [apply (block_pipeline_event Build), build_block_emits | intros _].
  apply emits_bind;
    [apply (block_pipeline_event Editor), editor_block_emits | intros _].
  apply emits_bind;
    [apply (block_pipeline_event DevServer), dev_block_emits | intros _].
  apply emits_bind.
  - apply emits_emit. left. exists Deps. left. reflexivity.
  - intros _. apply emits_emit. right. eauto.
Qed.

Lemma run_emits (cfg : Config) (w : World) : Forall pipeline_event (run cfg w).
Proof.
  rewrite run_unfold. apply Forall_app. split; [apply run_body_emits|].
  destruct (outcome (run_body cfg w)); [|constructor].
  unfold failure_report.
  apply Forall_cons; [left; exists Deps; left; exact I|].
  apply Forall_cons; [left; exists Deps; left; reflexivity|].
  apply Forall_cons; [right; eauto | constructor].
Qed.

Lemma spawned_pipeline (tr : list Event) :
  Forall pipeline_event tr ->
  Forall (fun c => exists s, command_step (argv c) = Some s) (spawned tr).
Proof.
  induction 1 as [|e tr He _ IH]; [constructor|].
  cbn [spawned flat_map]. fold (spawned tr).
  destruct e; try exact IH. constructor; [|exact IH].
  destruct He as [[s [He | [message [Hm _]]]] | [ok [msg Hm]]];
    [now exists s | discriminate | discriminate].
Qed.

Lemma command_step_tool (command : list string) (s : Step) :
  command_step command = Some s ->
  exists tool rest, command = tool :: rest /\ In tool tools.
Proof.
  intros H. destruct command as [|tool rest]; [discriminate|].
  exists tool, rest. split; [reflexivity|].
  unfold command_step, same_command, dev_command, shadcn_init_command in H.
  cbn [starts_with] in H. unfold tools.
  destruct (String.eqb_spec "node" tool) as [<-|?]; [cbn; auto|].
  destruct (String.eqb_spec "npm" tool) as [<-|?]; [cbn; auto|].
  destruct (String.eqb_spec "npx" tool) as [<-|?]; [cbn; auto 6|].
  destruct (String.eqb_spec "git" tool) as [<-|?]; [cbn; auto 6|].
  destruct (String.eqb_spec "code" tool) as [<-|?]; [cbn; auto 6|].
  cbn in H. discriminate.
Qed.

(** C10, as stated, fails: with a custom import alias the argument vector
    of the scaffold ends with the alias, not with [--use-npm]. *)
Lemma scaffold_argv_not_ending_in_use_npm :
  ~ (forall cfg : Config, last (create_command cfg) "" = "--use-npm").
Proof.
  intros H. specialize (H sample_config). vm_compute in H. discriminate.
Qed.

(** C10, amended: two configurations that differ only in the package
    manager give the same run; the argument vector of the scaffold always
    holds [--use-npm] as its eleventh element, which is its last one when no
    custom import alias is asked for; and every command launched is one of
    node, npm, npx, git and code, whatever the package manager chosen. *)
Theorem package_manager_is_ignored (cfg : Config) (pm : string) (w : World) :
  run (with_package_manager cfg pm) w = run cfg w
  /\ nth_error (create_command cfg) 10 = Some "--use-npm"
  /\ (custom_import_alias cfg = false ->
      last (create_command cfg) "" = "--use-npm")
  /\ Forall (fun c => exists tool rest,
                 argv c = tool :: rest /\ In tool tools)
            (spawned (run cfg w)).
Proof.
  split; [|split; [|split]].
  - destruct cfg; reflexivity.
  - reflexivity.
  - intros H. unfold create_command. rewrite H. reflexivity.
  - pose proof (spawned_pipeline _ (run_emits cfg w)) as Hs.
    revert Hs. apply Forall_impl. intros c [s Hs].
    exact (command_step_tool _ _ Hs).
Qed.

Lemma package_manager_is_ignored_witness :
  run (with_package_manager quiet_config "pnpm") sample_world
  = run quiet_config sample_world
  /\ last (create_command quiet_config) "" = "--use-npm".
Proof.
  split.
  - exact (proj1 (package_manager_is_ignored quiet_config "pnpm" sample_world)).
  - exact (proj1 (proj2 (proj2 (package_manager_is_ignored
                                  quiet_config "pnpm" sample_world))) eq_refl).
Defined.

(* ================================================================= *)
(** ** Failure of a child *)

Lemma split_at_event {T} (t1 t2 a b : list T) (x : T) :
  (t1 ++ t2 = a ++ x :: b)%list ->
  (exists t, t1 = a ++ x :: t /\ b = t ++ t2)%list
  \/ (exists t, t2 = t ++ x :: b /\ a = t1 ++ t)%list.
Proof.
  intros H. apply app_eq_app in H as [l [[H1 H2] | [H1 H2]]].
  - destruct l as [|y l].
    + right. exists []. rewrite app_nil_r in H1. cbn in H2. split; auto.
      now rewrite app_nil_r.
    + cbn in H2. injection H2 as <- ->. left. now exists l.
  - right. now exists l.
Qed.

Lemma scaffold_line_launches_nothing (P : Event -> Prop) (output : string) :
  (forall text, P (ELog text)) -> (forall text, P (EProgress text)) ->
  emits P (scaffold_line output).
Proof.
  intros Hl Hp. unfold scaffold_line. apply emits_when. cbv zeta.
  apply emits_bind; [apply emits_emit, Hl | intros _].
  repeat match goal with
         | |- emits _ (if ?b then _ else _) => destruct b
         end;
    first [apply emits_ret | apply emits_emit, Hp].
Qed.

(** The outcome of the loop over the prompts: an error exactly when a
    prompt is found while the standard input is broken. *)
Lemma answer_prompt_outcome (pipe : Pipe) (c : Cmd)
      (responses : list (string * string)) (clean buffer : string) :
  outcome (answer_prompt pipe c responses clean buffer)
  = if existsb (fun item => Text.contains (fst item) clean) responses
    then match pipe with
         | PipeOpen => inr ""
         | WriteFails msg => inl (OSError msg)
         | FlushFails msg => inl (OSError msg)
         end
    else inr buffer.
Proof.
  induction responses as [|[q r] rest IH]; cbn [answer_prompt existsb fst];
    [reflexivity|].
  destruct (Text.contains q clean); cbn [orb]; [|exact IH].
  now destruct pipe.
Qed.

Lemma handle_output_outcome (pipe : Pipe) (c : Cmd)
      (responses : list (string * string)) (buffer output : string) :
  outcome (handle_output pipe c responses buffer output)
  = if asks responses output
    then match pipe with
         | PipeOpen => inr ""
         | WriteFails msg => inl (OSError msg)
         | FlushFails msg => inl (OSError msg)
         end
    else inr (if nonempty output
              then buffer ++ Regex.sub_empty Regex.ansi_escape (Text.strip output)
                          ++ LF
              else buffer).
Proof.
  unfold handle_output, asks. destruct (nonempty output); [|reflexivity].
  cbv zeta. rewrite outcome_bind. cbn [outcome log_message emit snd andb].
  apply answer_prompt_outcome.
Qed.

(** The read loop ends with the error of the first answer that cannot be
    written, and returns when there is none. *)
Lemma read_and_respond_outcome (w : World) (c : Cmd)
      (responses : list (string * string)) (buffer : string) (n : nat)
      (lines : list string) :
  match first_broken w c responses n lines with
  | Some msg =>
      outcome (read_and_respond w c responses buffer n lines) = inl (OSError msg)
  | None =>
      exists b, outcome (read_and_respond w c responses buffer n lines) = inr b
  end.
Proof.
  revert buffer n. induction lines as [|l lines IH]; intros buffer n;
    cbn [read_and_respond first_broken].
  - now exists buffer.
  - rewrite outcome_bind, handle_output_outcome.
    destruct (asks responses l).
    + destruct (w_stdin w c n); [apply IH | reflexivity | reflexivity].
    + apply IH.
Qed.

Lemma first_broken_open (w : World) (c : Cmd)
      (responses : list (string * string)) (n : nat) (lines : list string) :
  (forall k, w_stdin w c k = PipeOpen) ->
  first_broken w c responses n lines = None.
Proof.
  intros Hopen. revert n. induction lines as [|l lines IH]; intros n;
    cbn [first_broken]; [reflexivity|].
  rewrite Hopen. destruct (asks responses l); apply IH.
Qed.


Section Abort.
Variable cfg : Config.
Variable w : World.

Lemma propagates_quiet {A} (m : M A) :
  (forall c, ~ In (ESpawn c) (trace m)) -> propagates cfg w m.
Proof. intros H c e Hin. now apply H in Hin. Qed.

Lemma propagates_bind {A B} (m : M A) (f : A -> M B) :
  propagates cfg w m -> (forall a, propagates cfg w (f a)) ->
  propagates cfg w (bind m f).
Proof.
  intros Hm Hf c e Hin Hc. rewrite trace_bind in Hin. rewrite outcome_bind.
  apply in_app_or in Hin as [Hin | Hin].
  - now rewrite (Hm c e Hin Hc).
  - destruct (outcome m) as [e'|a]; [contradiction|]. now apply (Hf a c e).
Qed.

Lemma propagates_log {A} (text : string) (m : M A) :
  propagates cfg w m -> propagates cfg w (log_message text ;; m).
Proof.
  intros Hm. apply propagates_bind; [|intros _; exact Hm].
  apply propagates_quiet. intros c [H|[]]. discriminate.
Qed.

(** The handler of [setup_shadcn_and_utilities] logs and raises again. *)
Lemma propagates_reraise {A} (m : M A) (note : Exn -> string) :
  propagates cfg w m ->
  propagates cfg w
    (try_except m (fun e => log_message (note e) ;; raise e)).
Proof.
  intros Hm c e Hin Hc. rewrite trace_try in Hin. rewrite outcome_try.
  apply in_app_or in Hin as [Hin | Hin].
  - now rewrite (Hm c e Hin Hc).
  - destruct (outcome m) as [e'|a]; [|contradiction].
    destruct Hin as [H|[]]. discriminate.
Qed.

Lemma launches_only_in {A} (c0 c : Cmd) (m : M A) :
  launches_only c0 m -> In (ESpawn c) (trace m) -> c = c0.
Proof.
  unfold launches_only, emits. rewrite Forall_forall. intros H Hin.
  exact (H _ Hin).
Qed.

Lemma child_fails_exit (c : Cmd) (e : Exn) (s : Step) :
  command_step (argv c) = Some s -> s <> Deps -> s <> DevServer ->
  child_fails cfg w c e ->
  exists p, w_launch w c = Launched p
            /\ returncode p <> 0%Z
            /\ e = exit_exception cfg w c p.
Proof.
  unfold child_fails. intros -> Hd Hs H. destruct s; auto; contradiction.
Qed.

(** Only the interactive command can fail to deliver an answer. *)
Lemma exit_exception_plain (c : Cmd) (p : Proc) :
  same_command shadcn_init_command (argv c) = false ->
  exit_exception cfg w c p
  = PyException (describe (argv c) ++ " failed: " ++ p_stderr p).
Proof. unfold exit_exception, undelivered. now intros ->. Qed.

Lemma propagates_run_command (command : list string) (dir : option string)
      (description : string) (overlay : list (string * string)) (s : Step) :
  command_step command = Some s -> s <> Deps -> s <> DevServer ->
  same_command shadcn_init_command command = false ->
  describe command = description ->
  propagates cfg w (run_command w command dir description overlay).
Proof.
  intros Hstep Hd Hs Hplain Hdesc c e Hin Hc.
  assert (c = mkCmd command dir overlay) as ->.
  { apply (launches_only_in _ _ _
             (emits_run_command _ (fun _ => I) w command dir description overlay
                                eq_refl I) Hin). }
  destruct (child_fails_exit (mkCmd command dir overlay) e s Hstep Hd Hs Hc)
    as [p [HL [Hrc ->]]].
  rewrite (exit_exception_plain (mkCmd command dir overlay) p Hplain).
  rewrite (run_command_launched _ _ _ _ _ _ HL). cbn [outcome snd argv].
  apply Z.eqb_neq in Hrc. rewrite Hrc, Hdesc. reflexivity.
Qed.

(** The outcome of the interactive runner: the error of the first answer
    that could not be written, else what the exit code decides. *)
Lemma run_command_with_input_outcome (command : list string)
      (dir : option string) (description : string)
      (responses overlay : list (string * string)) (p : Proc) :
  w_launch w (mkCmd command dir overlay) = Launched p ->
  outcome (run_command_with_input w command dir description responses overlay) =
  match outcome (read_and_respond w (mkCmd command dir overlay) responses ""
                   0 (Text.readlines (p_stdout p))) with
  | inl e => inl e
  | inr _ =>
      if (returncode p =? 0)%Z then inr (returncode p)
      else inl (PyException (description ++ " failed: " ++ p_stderr p))
  end.
Proof.
  intros HL. unfold run_command_with_input. cbv zeta.
  rewrite outcome_bind. cbn [outcome log_message emit snd].
  rewrite outcome_bind. unfold popen at 1.
  rewrite outcome_bind. cbn [outcome emit snd]. rewrite HL. cbn [outcome ret snd].
  rewrite outcome_bind.
  destruct (outcome (read_and_respond w (mkCmd command dir overlay) responses ""
                       0 (Text.readlines (p_stdout p)))) as [e|b]; [reflexivity|].
  rewrite outcome_bind. cbn [outcome emit snd].
  rewrite outcome_bind. cbn [outcome when ret snd nonempty].
  rewrite outcome_bind.
  assert (Hw : outcome (when (nonempty (p_stderr p)) (log_message (p_stderr p)))
               = inr tt).
  { destruct (nonempty (p_stderr p)); reflexivity. }
  rewrite Hw. destruct (returncode p =? 0)%Z; reflexivity.
Qed.

Lemma propagates_shadcn_init (dir : option string)
      (overlay : list (string * string)) :
  propagates cfg w
    (run_command_with_input w shadcn_init_command dir
       "Initializing shadcn/ui" (shadcn_responses cfg) overlay).
Proof.
  intros c e Hin Hc.
  assert (c = mkCmd shadcn_init_command dir overlay) as ->.
  { apply (launches_only_in _ _ _
             (emits_run_command_with_input _ (fun _ => I) w shadcn_init_command
                dir "Initializing shadcn/ui" (shadcn_responses cfg) overlay
                eq_refl I (fun _ => I) I) Hin). }
  destruct (child_fails_exit (mkCmd shadcn_init_command dir overlay) e Shadcn
              eq_refl ltac:(discriminate) ltac:(discriminate) Hc)
    as [p [HL [Hrc ->]]].
  rewrite (run_command_with_input_outcome _ _ _ _ _ _ HL).
  unfold exit_exception, undelivered. cbn [argv].
  change (same_command shadcn_init_command shadcn_init_command) with true.
  cbv iota.
  pose proof (read_and_respond_outcome w (mkCmd shadcn_init_command dir overlay)
                (shadcn_responses cfg) "" 0 (Text.readlines (p_stdout p))) as Hr.
  destruct (first_broken w (mkCmd shadcn_init_command dir overlay)
              (shadcn_responses cfg) 0 (Text.readlines (p_stdout p))) as [msg|].
  - now rewrite Hr.
  - destruct Hr as [b ->]. apply Z.eqb_neq in Hrc. rewrite Hrc. reflexivity.
Qed.

Lemma propagates_setup_shadcn (dir : string) :
  propagates cfg w (setup_shadcn_and_utilities cfg w dir).
Proof.
  unfold setup_shadcn_and_utilities.
  apply (propagates_reraise _ (fun e => "Error setting up shadcn/ui: " ++ exn_str e)).
  apply propagates_log. cbv zeta.
  apply propagates_bind.
  { apply (propagates_run_command _ _ _ _ Shadcn); (reflexivity || discriminate). }
  intros _. apply propagates_bind.
  { apply propagates_shadcn_init. }
  intros _. apply propagates_quiet. intros c [H|[]]. discriminate.
Qed.

Lemma describe_create : describe (create_command cfg) = "Project creation".
Proof. reflexivity. Qed.

Lemma init_is_not_create (cfg' : Config) :
  same_command shadcn_init_command (argv (scaffold_cmd cfg')) = false.
Proof. reflexivity. Qed.

Lemma propagates_scaffold_block (dir : string) :
  propagates cfg w (scaffold_block cfg w dir).
Proof.
  intros c e Hin Hc.
  assert (c = scaffold_cmd cfg) as ->.
  { refine (launches_only_in _ _ _ _ Hin). unfold scaffold_block.
    apply emits_bind; [apply emits_emit; exact I | intros _].
    apply emits_bind; [apply emits_emit; exact I | intros _].
    apply emits_bind; [apply emits_emit; exact I | intros _].
    apply emits_bind; [apply emits_popen; reflexivity | intros process].
    apply emits_bind; [|intros _; apply emits_when, emits_raise].
    apply emits_for_each. intros x.
    apply scaffold_line_launches_nothing; intros; exact I. }
  destruct (child_fails_exit (scaffold_cmd cfg) e Scaffold
              (command_step_create cfg)
              ltac:(discriminate) ltac:(discriminate) Hc) as [p [HL [Hrc ->]]].
  rewrite (exit_exception_plain _ p (init_is_not_create cfg)).
  rewrite (scaffold_block_outcome cfg w dir p HL).
  apply Z.eqb_neq in Hrc. rewrite Hrc. cbn [argv scaffold_cmd].
  now rewrite describe_create.
Qed.

Lemma aborts_quiet {A} (m : M A) :
  (forall c, ~ In (ESpawn c) (trace m)) -> aborts cfg w m.
Proof.
  intros H tr1 c tr2 e Htr. exfalso. apply (H c). rewrite Htr.
  apply in_or_app. right. now left.
Qed.

Lemma aborts_bind {A B} (m : M A) (f : A -> M B) :
  aborts cfg w m -> (forall a, aborts cfg w (f a)) -> aborts cfg w (bind m f).
Proof.
  intros Hm Hf tr1 c tr2 e Htr Hc. rewrite trace_bind in Htr.
  rewrite outcome_bind.
  apply split_at_event in Htr as [[t [H1 H2]] | [t [H1 H2]]].
  - destruct (Hm _ _ _ _ H1 Hc) as [Hout Hq]. rewrite Hout in *.
    rewrite app_nil_r in H2. subst tr2. auto.
  - destruct (outcome m) as [e'|a].
    + destruct t; discriminate.
    + apply (Hf a t c tr2 e H1 Hc).
Qed.

Lemma aborts_when (b : bool) (m : M unit) :
  aborts cfg w m -> aborts cfg w (when b m).
Proof.
  destruct b; [trivial|]. intros _. apply aborts_quiet. intros c [].
Qed.

Lemma aborts_progress {A} (message : string) (m : M A) :
  aborts cfg w m -> aborts cfg w (progress message ;; m).
Proof.
  intros Hm. apply aborts_bind; [|intros _; exact Hm].
  apply aborts_quiet. intros c [H|[]]. discriminate.
Qed.

Lemma step_event_quiet (s : Step) (c : Cmd) (e : Event) :
  command_step (argv c) = Some s -> s <> DevServer ->
  step_event s e -> quiet_after c e.
Proof.
  intros Hc Hs He. destruct e; cbn in *; try exact I; try congruence.
Qed.

(** A part of the work of one step, other than the first and the last. *)
Lemma aborts_leaf {A} (s : Step) (m : M A) :
  s <> DevServer ->
  emits (step_event s) m -> propagates cfg w m -> aborts cfg w m.
Proof.
  intros Hs Hem Hp tr1 c tr2 e Htr Hc. split.
  - apply (Hp c e); [|exact Hc]. rewrite Htr. apply in_or_app. right. now left.
  - unfold emits in Hem. rewrite Htr in Hem.
    apply Forall_app in Hem as [_ Hem].
    apply Forall_cons_iff in Hem as [Hsp Hem]. cbn in Hsp.
    revert Hem. apply Forall_impl. intros ev. now apply step_event_quiet.
Qed.

Lemma aborts_deps_block : aborts cfg w (deps_block w).
Proof.
  intros tr1 c tr2 e Htr Hc. exfalso.
  pose proof (deps_block_emits w) as Hem. unfold emits in Hem.
  rewrite Htr in Hem. apply Forall_app in Hem as [_ Hem].
  apply Forall_cons_iff in Hem as [[Hsp | [message [Hm _]]] _]; [|discriminate].
  cbn in Hsp. unfold child_fails in Hc. now rewrite Hsp in Hc.
Qed.

Lemma aborts_run_command_block (b : bool) (s : Step) (message : string)
      (command : list string) (dir : option string) (description : string) :
  command_step command = Some s -> s <> Deps -> s <> DevServer ->
  same_command shadcn_init_command command = false ->
  describe command = description ->
  aborts cfg w
    (when b (progress message ;;
             _ <- run_command w command dir description [] ;;
             ret tt)).
Proof.
  intros Hc Hd Hs Hplain Hdesc. apply aborts_when, aborts_progress.
  apply (aborts_leaf s); [exact Hs | |].
  - apply emits_bind; [|intros _; apply emits_ret].
    apply emits_run_command; auto; exact Hc.
  - apply propagates_bind.
    + now apply (propagates_run_command _ _ _ _ s).
    + intros _. apply propagates_quiet. intros c [].
Qed.

Lemma propagates_inner {A} (message : string) (m : M A) :
  propagates cfg w (progress message ;; m) -> propagates cfg w m.
Proof.
  intros H c e Hin Hc. rewrite <- (outcome_progress_bind message).
  apply (H c e); [|exact Hc]. rewrite trace_progress_bind. now right.
Qed.

Lemma aborts_scaffold_block (dir : string) : aborts cfg w (scaffold_block cfg w dir).
Proof.
  apply aborts_progress. apply (aborts_leaf Scaffold); [discriminate | |].
  - apply scaffold_inner_emits.
  - apply (propagates_inner "Creating Next.js project structure...").
    apply propagates_scaffold_block.
Qed.

Lemma aborts_features_block (dir : string) : aborts cfg w (features_block cfg dir).
Proof.
  apply aborts_quiet. intros c. unfold features_block, when.
  destruct (any_feature cfg); [|intros []].
  intros [H|[]]. discriminate.
Qed.

Lemma aborts_shadcn_block (dir : string) : aborts cfg w (shadcn_block cfg w dir).
Proof.
  apply aborts_progress. apply (aborts_leaf Shadcn); [discriminate | |].
  - apply setup_shadcn_emits.
  - apply propagates_setup_shadcn.
Qed.

Lemma parse_port_silent (output : string) : trace (parse_port w output) = [].
Proof.
  unfold parse_port. destruct (nth_error _ 1); [|reflexivity].
  unfold py_int. destruct (Text.parse_int _ _); reflexivity.
Qed.

(** When the wait loop raises it has only logged. *)
Lemma wait_ready_raises (lines : list string) (e : Exn) :
  outcome (wait_ready w lines) = inl e ->
  Forall is_log (trace (wait_ready w lines)).
Proof.
  induction lines as [|l lines IH]; cbn [wait_ready]; [discriminate|].
  destruct (nonempty l); [|exact IH].
  rewrite outcome_bind, trace_bind. cbn [outcome log_message emit snd trace fst].
  intros H. apply Forall_cons; [now exists (Text.strip l)|].
  destruct (is_ready_line l); [|now apply IH].
  rewrite trace_bind, parse_port_silent. rewrite outcome_bind in H.
  destruct (outcome (parse_port w l)); [constructor | discriminate].
Qed.

Lemma start_dev_server_raises (dir : string) (e : Exn) :
  outcome (start_dev_server cfg w dir) = inl e ->
  exists logs,
    trace (start_dev_server cfg w dir)
    = ELog "Starting development server..."
        :: ESpawn (mkCmd dev_command (Some dir) []) :: logs
    /\ Forall is_log logs.
Proof.
  unfold start_dev_server, popen.
  rewrite outcome_bind, trace_bind. cbn [outcome log_message emit snd trace fst].
  rewrite outcome_bind, trace_bind, outcome_bind, trace_bind.
  cbn [outcome emit snd trace fst app].
  destruct (w_launch w (mkCmd dev_command (Some dir) [])) as [msg|p].
  - intros _. exists []. split; [reflexivity | constructor].
  - cbn [outcome ret snd trace fst app]. rewrite outcome_bind, trace_bind.
    set (wr := wait_ready w _).
    destruct (outcome wr) as [e'|[port|]] eqn:Hwr.
    + intros _. exists (trace wr). rewrite app_nil_r. split; [reflexivity|].
      apply (wait_ready_raises _ e' Hwr).
    + rewrite outcome_bind. cbn [outcome log_message emit snd].
      unfold when. destruct (open_browser cfg); [|discriminate].
      rewrite outcome_bind. cbn. discriminate.
    + discriminate.
Qed.

Lemma aborts_dev_block (dir : string) : aborts cfg w (dev_block cfg w dir).
Proof.
  apply aborts_when, aborts_progress.
  intros tr1 c tr2 e Htr Hc.
  assert (c = mkCmd dev_command (Some dir) []) as ->.
  { apply (launches_only_in _ _ (start_dev_server cfg w dir)).
    - apply emits_start_dev_server; intros; exact I || reflexivity.
    - rewrite Htr. apply in_or_app. right. now left. }
  unfold child_fails in Hc. cbn in Hc. destruct Hc as [dir' [Hd Hout]].
  injection Hd as <-. split; [exact Hout|].
  destruct (start_dev_server_raises dir e Hout) as [logs [Hlogs Hfa]].
  rewrite Hlogs in Htr.
  destruct tr1 as [|e1 tr1]; [discriminate|]. injection Htr as <- Htr.
  destruct tr1 as [|e2 tr1].
  - injection Htr as <-. revert Hfa. apply Forall_impl.
    intros ev [text ->]. exact I.
  - injection Htr as <- Htr. rewrite Htr in Hfa.
    apply Forall_app in Hfa as [_ Hfa]. apply Forall_cons_iff in Hfa as [[t Ht] _].
    discriminate.
Qed.

Lemma aborts_run_body : aborts cfg w (run_body cfg w).
Proof.
  unfold run_body. cbv zeta.
  apply aborts_bind; [apply aborts_deps_block | intros _].
  apply aborts_bind; [apply aborts_scaffold_block | intros _].
  apply aborts_bind; [apply aborts_features_block | intros _].
  apply aborts_bind; [apply aborts_shadcn_block | intros _].
  apply aborts_bind.
  { apply (aborts_run_command_block _ Git); reflexivity || discriminate. }
  intros _. apply aborts_bind.
  { apply (aborts_run_command_block _ Build); reflexivity || discriminate. }
  intros _. apply aborts_bind.
  { apply (aborts_run_command_block _ Editor); reflexivity || discriminate. }
  intros _. apply aborts_bind; [apply aborts_dev_block | intros _].
  apply aborts_quiet. intros c [H|[H|[]]]; discriminate.
Qed.


End Abort.

(* ================================================================= *)
(** ** The dependency check *)

Lemma bind_raise {A B} (tr : list Event) (e : Exn) (f : A -> M B) :
  bind (tr, inl e) f = (tr, inl e).
Proof. reflexivity. Qed.

Lemma bind_value {A B} (tr : list Event) (a : A) (f : A -> M B) :
  bind (tr, inr a) f = ((tr ++ trace (f a))%list, outcome (f a)).
Proof. cbn. destruct (f a); reflexivity. Qed.

Lemma subprocess_run_cases (w : World) (command : list string) :
  match w_launch w (mkCmd command None []) with
  | LaunchError msg =>
      subprocess_run w command
      = ([ESpawn (mkCmd command None [])], inl (OSError msg))
  | Launched p =>
      subprocess_run w command
      = ([ESpawn (mkCmd command None []); EWait (mkCmd command None [])], inr p)
  end.
Proof.
  unfold subprocess_run, popen. cbv zeta.
  destruct (w_launch w (mkCmd command None [])); reflexivity.
Qed.




Lemma check_dependencies_outcome (w : World) :
  exists b, outcome (check_dependencies w) = inr b.
Proof.
  unfold check_dependencies. rewrite outcome_try.
  destruct (outcome _) as [e|b]; [|now exists b].
  rewrite outcome_bind. cbn. now exists false.
Qed.











(* ================================================================= *)
(** ** The dev server *)

Lemma wait_ready_found (w : World) (before after : list string) (line : string)
      (port : Z) :
  Forall (fun l => l <> "") (before ++ [line]) ->
  Forall (fun l => is_ready_line l = false) before ->
  is_ready_line line = true ->
  parse_port w line = ([], inr port) ->
  wait_ready w (before ++ line :: after) =
  ((map (fun l => ELog (Text.strip l)) (before ++ [line]) ++ [ESleep 2])%list,
   inr (Some port)).
Proof.
  intros Hne Hnot Hready Hport.
  induction before as [|l before IH]; cbn [app wait_ready map].
  - apply Forall_cons_iff in Hne as [Hl _]. rewrite (nonempty_true _ Hl), Hready.
    rewrite Hport. reflexivity.
  - apply Forall_cons_iff in Hne as [Hl Hne].
    apply Forall_cons_iff in Hnot as [Hnl Hnot].
    rewrite (nonempty_true _ Hl), Hnl.
    rewrite (M_eta (bind _ _)), trace_bind, outcome_bind, (IH Hne Hnot).
    reflexivity.
Qed.


Lemma Forall_firstn_keeps {T} (P : T -> Prop) (n : nat) (l : list T) :
  Forall P l -> Forall P (firstn n l).
Proof.
  intros H. revert n. induction H as [|x l Hx _ IH]; intros [|n]; cbn;
    constructor; auto.
Qed.

Lemma window_lines_nonempty (n : nat) (text : string) (before after : list string)
      (line : string) :
  firstn n (Text.readlines text) = (before ++ line :: after)%list ->
  Forall (fun l => l <> "") (before ++ [line]).
Proof.
  intros H.
  pose proof (Forall_firstn_keeps _ n _ (TextFacts.readlines_nonempty text)) as Hf.
  rewrite H in Hf. apply Forall_app in Hf as [Hb Hl].
  apply Forall_app. split; [exact Hb|].
  apply Forall_cons_iff in Hl as [Hl _]. now constructor.
Qed.

(** C7, as stated, fails: a ready line in which [localhost:3001] is
    followed by a slash makes [int] raise, and no port is reported. *)
Lemma ready_line_with_trailing_slash :
  ~ (forall (cfg : Config) (w : World) (dir : string) (p : Proc) (line : string),
        w_launch w (dev_cmd dir) = Launched p ->
        In line (firstn (w_dev_window w) (Text.readlines (p_stdout p))) ->
        (exists a marker b d,
            (marker = "ready - started server on" \/ marker = "Local:")
            /\ line = a ++ marker ++ b ++ "localhost:3001" ++ d) ->
        In (ELog "Development server is ready on port 3001!")
           (trace (start_dev_server cfg w dir))).
Proof.
  intros H.
  specialize (H sample_config
                (dev_world ("  - Local: http://localhost:3001/" ++ LF))
                "/tmp/app"
                (mkProc ("  - Local: http://localhost:3001/" ++ LF) "" 0)
                ("  - Local: http://localhost:3001/" ++ LF)
                eq_refl (or_introl eq_refl)).
  assert (Hin : In (ELog "Development server is ready on port 3001!")
                   (trace (start_dev_server
                             sample_config
                             (dev_world ("  - Local: http://localhost:3001/" ++ LF))
                             "/tmp/app"))).
  { apply H. exists "  - ", "Local:", " http://", ("/" ++ LF). split; [now right|].
    reflexivity. }
  vm_compute in Hin. intuition discriminate.
Qed.

(** What [start_dev_server] does once a ready line gives a port. *)
Lemma start_dev_server_ready
      (cfg : Config) (w : World) (dir : string) (p : Proc)
      (before after : list string) (line : string) (port : Z) :
  w_launch w (dev_cmd dir) = Launched p ->
  firstn (w_dev_window w) (Text.readlines (p_stdout p))
  = (before ++ line :: after)%list ->
  Forall (fun l => is_ready_line l = false) before ->
  is_ready_line line = true ->
  parse_port w line = ([], inr port) ->
  start_dev_server cfg w dir =
  (([ELog "Starting development server..."; ESpawn (dev_cmd dir)]
      ++ map (fun l => ELog (Text.strip l)) (before ++ [line])
      ++ [ESleep 2;
          ELog ("Development server is ready on port "
                  ++ Text.str_of_int port ++ "!")]
      ++ (if open_browser cfg
          then [ELog ("Opening in browser at port "
                        ++ Text.str_of_int port ++ "...");
                EBrowser ("http://localhost:" ++ Text.str_of_int port)]
          else []))%list,
   inr tt).
Proof.
  intros HL Hwin Hnot Hready Hport.
  unfold start_dev_server, popen. fold (dev_cmd dir). rewrite HL.
  cbv beta iota delta [bind emit log_message ret]. rewrite Hwin.
  rewrite (wait_ready_found w before after line port
             (window_lines_nonempty _ _ _ _ _ Hwin) Hnot Hready Hport).
  cbv beta iota delta [when ret].
  destruct (open_browser cfg); cbn [app]; rewrite <- ?app_assoc; reflexivity.
Qed.


(** C7, amended: when the first ready line the wait loop reads before its
    deadline has, between its first [localhost:] and the next one (or the
    end of the line), the text [3001] and nothing but whitespace around
    it, [start_dev_server] logs the lines read, waits two seconds, reports
    port 3001 and, when browser opening is on, asks for exactly
    [http://localhost:3001]. *)
Theorem port_3001_is_reported
        (cfg : Config) (w : World) (dir : string) (p : Proc)
        (before after : list string) (line piece : string) :
  w_launch w (dev_cmd dir) = Launched p ->
  firstn (w_dev_window w) (Text.readlines (p_stdout p))
  = (before ++ line :: after)%list ->
  Forall (fun l => is_ready_line l = false) before ->
  is_ready_line line = true ->
  nth_error (Text.split "localhost:" line) 1 = Some piece ->
  Text.strip piece = "3001" ->
  start_dev_server cfg w dir =
  (([ELog "Starting development server..."; ESpawn (dev_cmd dir)]
      ++ map (fun l => ELog (Text.strip l)) (before ++ [line])
      ++ [ESleep 2; ELog "Development server is ready on port 3001!"]
      ++ (if open_browser cfg
          then [ELog "Opening in browser at port 3001...";
                EBrowser "http://localhost:3001"]
          else []))%list,
   inr tt).
Proof.
  intros HL Hwin Hnot Hready Hpiece Hstrip.
  assert (Hport : parse_port w line = ([], inr 3001%Z)).
  { unfold parse_port. rewrite Hpiece, Hstrip. reflexivity. }
  exact (start_dev_server_ready cfg w dir p before after line 3001
           HL Hwin Hnot Hready Hport).
Qed.

Lemma port_3001_is_reported_witness :
  browser_requests
    (trace (start_dev_server sample_config sample_world "/tmp/app"))
  = ["http://localhost:3001"].
Proof.
  rewrite (port_3001_is_reported
             sample_config sample_world "/tmp/app"
             (mkProc ("> dev" ++ LF ++ "   - Local:        http://localhost:3001"
                        ++ LF ++ "more" ++ LF) "" 0)
             ["> dev" ++ LF]
             ["more" ++ LF]
             ("   - Local:        http://localhost:3001" ++ LF)
             ("3001" ++ LF));
    [reflexivity | reflexivity | reflexivity | repeat constructor
     | reflexivity | reflexivity | reflexivity].
Defined.

(* ================================================================= *)
(** ** Ready lines whose port cannot be read *)













(* ================================================================= *)
(** ** Sample runs *)

Example sample_run_steps :
  steps_run (run sample_config sample_world)
  = [Deps; Scaffold; Shadcn; Git; Build; Editor; DevServer].
Proof. reflexivity. Qed.

Example sample_run_result :
  last (run sample_config sample_world) (ELog "")
  = EFinished true "Project created successfully!".
Proof. reflexivity. Qed.

(** With a feature install asked for, the run stops at the lookup of the
    method that is not there. *)
Example feature_install_result :
  steps_run (run redux_config sample_world) = [Deps; Scaffold; Features]
  /\ last (run redux_config sample_world) (ELog "")
     = EFinished false
         "Error: 'ProjectSetupThread' object has no attribute 'install_additional_features'".
Proof. split; reflexivity. Qed.

(** A dev server that says nothing before the deadline: the run still
    reports success, and no browser is opened. *)
Example silent_dev_server_result :
  last (run sample_config (dev_world "")) (ELog "")
  = EFinished true "Project created successfully!"
  /\ browser_requests (run sample_config (dev_world "")) = [].
Proof. split; reflexivity. Qed.

(** A component-library tool that exits with code 1 right after its first
    question: the answer meets a broken pipe, and the run reports the
    error of the write, not the exit of the tool, which is not waited
    for. *)
Example broken_pipe_result :
  last (run sample_config broken_pipe_world) (ELog "")
  = EFinished false "Error: [Errno 32] Broken pipe"
  /\ writes (run sample_config broken_pipe_world) = ["new-york" ++ LF]
  /\ filter (fun e => match e with
                      | EWait c => same_command shadcn_init_command (argv c)
                      | _ => false
                      end)
            (run sample_config broken_pipe_world) = [].
Proof. repeat split; reflexivity. Qed.

(* ================================================================= *)
(** ** What the dependency check decides *)

Lemma forallb_over_map {A B} (f : B -> bool) (g : A -> B) (l : list A) :
  forallb f (map g l) = forallb (fun x => f (g x)) l.
Proof. induction l as [|x l IH]; cbn; [reflexivity | now rewrite IH]. Qed.

Lemma required_globals_loop (w : World) (pkgs : list string) :
  match outcome
          (for_each pkgs
             (fun pkg =>
                result <- subprocess_run w ["npm"; "list"; "-g"; pkg] ;;
                when (negb (returncode result =? 0)%Z)
                     (raise (PyException
                               ("Required global package " ++ pkg ++ " not found")))))
  with
  | inr _ =>
      forallb (fun pkg => exits_zero w (deps_cmd ["npm"; "list"; "-g"; pkg])) pkgs
      = true
  | inl _ =>
      forallb (fun pkg => exits_zero w (deps_cmd ["npm"; "list"; "-g"; pkg])) pkgs
      = false
  end.
Proof.
  induction pkgs as [|pkg pkgs IH]; [reflexivity|].
  cbn [for_each forallb]. rewrite outcome_bind.
  pose proof (subprocess_run_cases w ["npm"; "list"; "-g"; pkg]) as Hsr.
  unfold exits_zero at 1 3, deps_cmd at 1 3.
  destruct (w_launch w (mkCmd ["npm"; "list"; "-g"; pkg] None [])) as [msg|p];
    rewrite Hsr.
  - rewrite bind_raise. reflexivity.
  - rewrite bind_value. cbn [outcome snd].
    destruct (returncode p =? 0)%Z; cbn [negb when outcome raise ret snd andb].
    + exact IH.
    + reflexivity.
Qed.

(** The check as its [try] body and handler: the body returns only [True],
    and raises exactly when some command fails. *)
Lemma check_dependencies_split (w : World) :
  exists inner : M bool,
    check_dependencies w
    = try_except inner
        (fun e => log_message ("Dependency check failed: " ++ exn_str e) ;;
                  ret false)
    /\ match outcome inner with
       | inr b => b = true /\ tools_installed w = true
       | inl _ => tools_installed w = false
       end.
Proof.
  eexists. split; [reflexivity|].
  unfold tools_installed, deps_commands. cbn [forallb].
  rewrite forallb_over_map.
  pose proof (subprocess_run_cases w ["node"; "--version"]) as H1.
  unfold exits_zero, deps_cmd.
  destruct (w_launch w (mkCmd ["node"; "--version"] None [])) as [m1|p1];
    rewrite H1; [rewrite bind_raise; reflexivity|].
  rewrite bind_value. cbn [outcome snd].
  pose proof (subprocess_run_cases w ["npm"; "--version"]) as H2.
  destruct (w_launch w (mkCmd ["npm"; "--version"] None [])) as [m2|p2];
    rewrite H2;
    [rewrite bind_raise; cbn [outcome snd]; now rewrite andb_false_r|].
  rewrite bind_value. cbn [outcome snd].
  destruct (returncode p1 =? 0)%Z; cbn [negb orb andb];
    [|rewrite outcome_bind; reflexivity].
  destruct (returncode p2 =? 0)%Z; cbn [negb orb andb];
    [|rewrite outcome_bind; reflexivity].
  rewrite outcome_bind. cbn [when outcome ret snd]. rewrite outcome_bind.
  pose proof (required_globals_loop w required_globals) as Hloop.
  destruct (outcome (for_each required_globals _)); [exact Hloop|].
  split; [reflexivity | exact Hloop].
Qed.

Lemma check_dependencies_decides (w : World) :
  outcome (check_dependencies w) = inr (tools_installed w).
Proof.
  destruct (check_dependencies_split w) as [inner [-> Hinner]].
  rewrite outcome_try. destruct (outcome inner) as [e|b].
  - rewrite Hinner, outcome_bind. reflexivity.
  - destruct Hinner as [-> ->]. reflexivity.
Qed.

(** A failed check ends with the log entry of its reason. *)
Lemma check_dependencies_failed (w : World) :
  tools_installed w = false ->
  exists pre e,
    trace (check_dependencies w)
    = (pre ++ [ELog ("Dependency check failed: " ++ exn_str e)])%list.
Proof.
  intros Hno. destruct (check_dependencies_split w) as [inner [-> Hinner]].
  rewrite trace_try. destruct (outcome inner) as [e|b].
  - exists (trace inner), e. reflexivity.
  - destruct Hinner as [_ Hyes]. congruence.
Qed.

Lemma deps_block_trace (w : World) :
  trace (deps_block w)
  = EProgress "Checking dependencies..." :: trace (check_dependencies w).
Proof.
  unfold deps_block. rewrite trace_progress_bind, trace_bind.
  destruct (check_dependencies_outcome w) as [b ->].
  destruct b; cbn; now rewrite app_nil_r.
Qed.

Lemma deps_block_decides (w : World) :
  outcome (deps_block w)
  = if tools_installed w then inr tt
    else inl (PyException
                "Required dependencies not found. Please run setup.py first").
Proof.
  unfold deps_block.
  rewrite outcome_progress_bind, outcome_bind, check_dependencies_decides.
  now destruct (tools_installed w).
Qed.

(** X1: the dependency check never raises, and it passes exactly when each
    of its five commands ([node --version], [npm --version] and
    [npm list -g <package>] for next, create-next-app and typescript) can
    be launched and exits with 0; a tool that is missing and a tool that
    exits with another code both give [False]. *)
Theorem check_dependencies_result (w : World) :
  outcome (check_dependencies w)
  = inr (forallb (fun command => exits_zero w (mkCmd command None []))
                 [["node"; "--version"]; ["npm"; "--version"];
                  ["npm"; "list"; "-g"; "next"];
                  ["npm"; "list"; "-g"; "create-next-app"];
                  ["npm"; "list"; "-g"; "typescript"]]).
Proof. exact (check_dependencies_decides w). Qed.

(** X2: when one of the five commands of the dependency check cannot be
    launched or exits with a non-zero code, the run is the milestone of the
    check, the check itself, which ends by logging its reason, and the
    report of failure with the fixed text that points to setup.py; no
    command of a later step is launched. *)
Theorem missing_tool_stops_run (cfg : Config) (w : World) :
  tools_installed w = false ->
  run cfg w
  = (EProgress "Checking dependencies..."
       :: trace (check_dependencies w)
       ++ failure_report
            "Required dependencies not found. Please run setup.py first")%list
  /\ (exists pre e,
         trace (check_dependencies w)
         = (pre ++ [ELog ("Dependency check failed: " ++ exn_str e)])%list)
  /\ Forall (fun c => command_step (argv c) = Some Deps) (spawned (run cfg w)).
Proof.
  intros Hno.
  assert (Hrun : run cfg w
                 = (EProgress "Checking dependencies..."
                      :: trace (check_dependencies w)
                      ++ failure_report
                           "Required dependencies not found. Please run setup.py first")%list).
  { rewrite run_unfold. unfold run_body. cbv zeta.
    rewrite trace_bind, outcome_bind, deps_block_decides, Hno, deps_block_trace.
    rewrite app_nil_r. reflexivity. }
  split; [exact Hrun | split; [now apply check_dependencies_failed|]].
  rewrite Hrun. change (EProgress ?m :: ?t ++ ?r)%list
    with ([EProgress m] ++ t ++ r)%list.
  rewrite !spawned_app. cbn [spawned flat_map failure_report app].
  rewrite app_nil_r.
  apply (spawned_block Deps).
  apply (emits_weaken (step_event Deps)); [apply step_event_block|].
  apply check_dependencies_emits.
Qed.

Lemma missing_tool_stops_run_witness :
  run sample_config no_node_world
  = [EProgress "Checking dependencies...";
     ESpawn (mkCmd ["node"; "--version"] None []);
     ELog "Dependency check failed: [Errno 2] No such file or directory: 'node'";
     ELog "Error: Required dependencies not found. Please run setup.py first";
     EProgress "Error occurred during project creation";
     EFinished false
       "Error: Required dependencies not found. Please run setup.py first"].
Proof.
  exact (proj1 (missing_tool_stops_run sample_config no_node_world eq_refl)).
Defined.

(* ================================================================= *)
(** ** The result of a run *)




(* ================================================================= *)
(** ** The feature installs *)

Lemma features_block_raises (cfg : Config) (dir : string) :
  any_feature cfg = true ->
  features_block cfg dir
  = ([EProgress "Installing additional features..."],
     inl (AttributeError "ProjectSetupThread" "install_additional_features")).
Proof. intros H. unfold features_block. rewrite H. reflexivity. Qed.

(** The run when a feature install is asked for. *)
Lemma run_with_feature (cfg : Config) (w : World) :
  any_feature cfg = true ->
  forall dir, dir = w_path_join w (project_path cfg) (project_name cfg) ->
  run cfg w
  = (trace (deps_block w)
       ++ match outcome (deps_block w) with
          | inl e => failure_report (exn_str e)
          | inr _ =>
              trace (scaffold_block cfg w dir)
                ++ match outcome (scaffold_block cfg w dir) with
                   | inl e => failure_report (exn_str e)
                   | inr _ =>
                       EProgress "Installing additional features..."
                         :: failure_report
                              "'ProjectSetupThread' object has no attribute 'install_additional_features'"
                   end
          end)%list.
Proof.
  intros Hf dir ->. rewrite run_unfold. unfold run_body. cbv zeta.
  rewrite trace_bind, outcome_bind.
  destruct (outcome (deps_block w)) as [e|u]; [now rewrite app_nil_r|].
  rewrite <- app_assoc. f_equal.
  rewrite trace_bind, outcome_bind.
  destruct (outcome (scaffold_block cfg w _)) as [e|u']; [now rewrite app_nil_r|].
  rewrite <- app_assoc. f_equal.
  rewrite (features_block_raises cfg _ Hf), bind_raise. reflexivity.
Qed.

(** X4: with any of the seven feature installs asked for (Redux, Axios,
    router, auth, Prisma, forms, query), no run reports success: the method
    that would install them is not defined, so the run fails at the latest
    when it is looked up.  No step past the feature installs is announced,
    no command but those of the dependency check and the scaffold is
    launched, and when the tools are installed and the scaffold child exits
    with 0 the failure reported is the missing attribute. *)
Theorem feature_install_never_succeeds (cfg : Config) (w : World) :
  any_feature cfg = true ->
  (exists pre msg, run cfg w = (pre ++ [EFinished false msg])%list)
  /\ (exists n, steps_run (run cfg w) = firstn n [Deps; Scaffold; Features])
  /\ Forall (fun c => In (command_step (argv c)) [Some Deps; Some Scaffold])
            (spawned (run cfg w))
  /\ (tools_installed w = true ->
      (exists p, w_launch w (scaffold_cmd cfg) = Launched p
                 /\ returncode p = 0%Z) ->
      exists pre,
        run cfg w
        = (pre ++ failure_report
                    "'ProjectSetupThread' object has no attribute 'install_additional_features'")%list).
Proof.
  intros Hf. pose proof (run_with_feature cfg w Hf _ eq_refl) as Hrun.
  set (dir := w_path_join w (project_path cfg) (project_name cfg)) in *.
  assert (Hrep : forall msg,
             failure_report msg
             = ([ELog ("Error: " ++ msg);
                 EProgress "Error occurred during project creation"]
                  ++ [EFinished false ("Error: " ++ msg)])%list)
    by reflexivity.
  split; [|split; [|split]].
  - rewrite Hrun.
    destruct (outcome (deps_block w)) as [e|u].
    { rewrite Hrep, app_assoc. eauto. }
    destruct (outcome (scaffold_block cfg w dir)) as [e|u'].
    { rewrite Hrep, !app_assoc. eauto. }
    change (EProgress ?m :: ?r)%list with ([EProgress m] ++ r)%list.
    rewrite Hrep, !app_assoc. eauto.
  - rewrite Hrun, steps_run_app, deps_block_steps.
    destruct (outcome (deps_block w)) as [e|u]; [now exists 1%nat|].
    rewrite steps_run_app, scaffold_block_steps.
    destruct (outcome (scaffold_block cfg w dir)) as [e|u'];
      [now exists 2%nat | now exists 3%nat].
  - assert (Hin : forall s tr,
               In (Some s) [Some Deps; Some Scaffold] ->
               Forall (block_event s) tr ->
               Forall (fun c => In (command_step (argv c))
                                   [Some Deps; Some Scaffold])
                      (spawned tr)).
    { intros s tr Hs Htr. apply spawned_block in Htr.
      revert Htr. apply Forall_impl. intros c ->. exact Hs. }
    rewrite Hrun, spawned_app. apply Forall_app. split.
    { apply (Hin Deps); [cbn; auto | apply deps_block_emits]. }
    destruct (outcome (deps_block w)) as [e|u]; [constructor|].
    rewrite spawned_app. apply Forall_app. split.
    { apply (Hin Scaffold); [cbn; auto | apply scaffold_block_emits]. }
    destruct (outcome (scaffold_block cfg w dir)); constructor.
  - intros Hdeps [p [HL Hrc]]. rewrite Hrun.
    rewrite deps_block_decides, Hdeps.
    rewrite (scaffold_block_outcome cfg w dir p HL), Hrc. cbn [Z.eqb].
    exists (trace (deps_block w) ++ trace (scaffold_block cfg w dir)
              ++ [EProgress "Installing additional features..."])%list.
    rewrite <- !app_assoc. reflexivity.
Qed.

Lemma feature_install_never_succeeds_witness :
  exists pre,
    run redux_config sample_world
    = (pre ++ failure_report
                "'ProjectSetupThread' object has no attribute 'install_additional_features'")%list.
Proof.
  refine (proj2 (proj2 (proj2 (feature_install_never_succeeds
                                 redux_config sample_world eq_refl))) eq_refl _).
  exists (mkProc ("Creating files" ++ LF) "" 0). split; reflexivity.
Defined.

(* ================================================================= *)
(** ** The interactive runner *)

Lemma answer_prompt_trace_buffer (pipe : Pipe) (c : Cmd)
      (responses : list (string * string)) (clean b1 b2 : string) :
  trace (answer_prompt pipe c responses clean b1)
  = trace (answer_prompt pipe c responses clean b2).
Proof.
  induction responses as [|[q r] rest IH]; cbn [answer_prompt]; [reflexivity|].
  destruct (Text.contains q clean); [reflexivity | exact IH].
Qed.

Lemma handle_output_trace_buffer (pipe : Pipe) (c : Cmd)
      (responses : list (string * string)) (b1 b2 output : string) :
  trace (handle_output pipe c responses b1 output)
  = trace (handle_output pipe c responses b2 output).
Proof.
  unfold handle_output. destruct (nonempty output); [|reflexivity].
  cbv zeta. rewrite !trace_bind. cbn [outcome log_message emit snd].
  f_equal. apply answer_prompt_trace_buffer.
Qed.

(** A line that does not ask leaves the standard input alone. *)
Lemma answer_prompt_silent (pipe : Pipe) (c : Cmd)
      (responses : list (string * string)) (clean buffer : string) :
  existsb (fun item => Text.contains (fst item) clean) responses = false ->
  answer_prompt pipe c responses clean buffer = ([], inr buffer).
Proof.
  intros H. apply answer_prompt_no_match. intros q r Hin.
  destruct (Text.contains q clean) eqn:Hq; [|reflexivity].
  assert (Ht : existsb (fun item => Text.contains (fst item) clean) responses
               = true).
  { apply existsb_exists. now exists (q, r). }
  congruence.
Qed.

Lemma handle_output_silent (pipe : Pipe) (c : Cmd)
      (responses : list (string * string)) (buffer output : string) :
  asks responses output = false ->
  trace (handle_output pipe c responses buffer output)
  = if nonempty output
    then [ELog (Regex.sub_empty Regex.ansi_escape (Text.strip output))]
    else [].
Proof.
  unfold asks, handle_output. destruct (nonempty output); [|reflexivity].
  cbn [andb]. intros H. cbv zeta. rewrite trace_bind.
  cbn [outcome log_message emit snd trace fst].
  now rewrite (answer_prompt_silent _ _ _ _ _ H).
Qed.

Lemma read_and_respond_trace (w : World) (c : Cmd)
      (responses : list (string * string)) (buffer : string) (n : nat)
      (lines : list string) :
  trace (read_and_respond w c responses buffer n lines)
  = handled_trace w c responses (read_lines w c responses n lines).
Proof.
  unfold handled_trace.
  revert buffer n. induction lines as [|l lines IH]; intros buffer n;
    cbn [read_and_respond read_lines flat_map fst snd]; [reflexivity|].
  rewrite trace_bind, (handle_output_trace_buffer _ c responses buffer "").
  f_equal. rewrite handle_output_outcome.
  destruct (asks responses l); [|apply IH].
  destruct (w_stdin w c n); [apply IH | reflexivity | reflexivity].
Qed.

(** When every answer can be written all the lines are handled, as with a
    standard input that stays open. *)
Lemma handled_trace_open (w : World) (c : Cmd)
      (responses : list (string * string)) (n : nat) (lines : list string) :
  first_broken w c responses n lines = None ->
  handled_trace w c responses (read_lines w c responses n lines)
  = flat_map (fun output => trace (handle_output PipeOpen c responses "" output))
             lines.
Proof.
  unfold handled_trace.
  revert n. induction lines as [|l lines IH]; intros n;
    cbn [first_broken read_lines flat_map fst snd]; [reflexivity|].
  destruct (asks responses l) eqn:Ha.
  - destruct (w_stdin w c n); [|discriminate|discriminate].
    intros H. now rewrite (IH _ H).
  - intros H. rewrite (IH _ H).
    now rewrite !(handle_output_silent _ _ _ _ _ Ha).
Qed.

Lemma writes_app (t1 t2 : list Event) :
  writes (t1 ++ t2) = (writes t1 ++ writes t2)%list.
Proof. apply flat_map_app. Qed.

Lemma no_prompt_never_asks (responses : list (string * string))
      (output : string) :
  (forall prompt response,
      In (prompt, response) responses ->
      Text.contains prompt
        (Regex.sub_empty Regex.ansi_escape (Text.strip output)) = false) ->
  asks responses output = false.
Proof.
  intros H. unfold asks. apply andb_false_iff. right.
  destruct (existsb _ responses) eqn:He; [|reflexivity].
  apply existsb_exists in He as [[q r] [Hin Hq]]. cbn [fst] in Hq.
  now rewrite (H q r Hin) in Hq.
Qed.

(** X5: the read loop of the interactive runner treats every line on its
    own: what it logs and writes is the concatenation of what each line it
    handles gives with an empty buffer, whatever the buffer holds; the lines
    handled are all those up to the first whose answer cannot be written,
    hence, when the standard input of the child stays open, all of them.
    The accumulation buffer is filled and cleared but never searched, so a
    prompt is answered only when one line holds the whole of it: when no
    line holds a key of the table, nothing is written to the child. *)
Theorem lines_are_answered_one_by_one
        (w : World) (c : Cmd) (responses : list (string * string))
        (buffer : string) (n : nat) (lines : list string) :
  trace (read_and_respond w c responses buffer n lines)
  = handled_trace w c responses (read_lines w c responses n lines)
  /\ ((forall k, w_stdin w c k = PipeOpen) ->
      trace (read_and_respond w c responses buffer n lines)
      = flat_map (fun output =>
                    trace (handle_output PipeOpen c responses "" output)) lines)
  /\ ((forall output prompt response,
          In output lines -> In (prompt, response) responses ->
          Text.contains prompt
            (Regex.sub_empty Regex.ansi_escape (Text.strip output)) = false) ->
      writes (trace (read_and_respond w c responses buffer n lines)) = []).
Proof.
  split; [apply read_and_respond_trace|]. split.
  { intros Hopen. rewrite read_and_respond_trace.
    apply handled_trace_open. now apply first_broken_open. }
  intros Hno.
  assert (Hnever : forall m, first_broken w c responses m lines = None).
  { induction lines as [|l lines IH]; intros m; cbn [first_broken];
      [reflexivity|].
    rewrite no_prompt_never_asks.
    - apply IH. intros output q r Hin. apply Hno. now right.
    - intros q r Hin. apply (Hno l q r); [now left | exact Hin]. }
  rewrite read_and_respond_trace, (handled_trace_open _ _ _ _ _ (Hnever n)).
  clear Hnever.
  induction lines as [|l lines IH]; [reflexivity|].
  cbn [flat_map]. rewrite writes_app, IH.
  - rewrite app_nil_r. rewrite handle_output_silent.
    + now destruct (nonempty l).
    + apply no_prompt_never_asks. intros q r Hin.
      apply (Hno l q r); [now left | exact Hin].
  - intros output q r Hin. apply Hno. now right.
Qed.

Lemma lines_are_answered_one_by_one_witness :
  writes (trace (read_and_respond sample_world
                   (mkCmd shadcn_init_command (Some "/tmp/app") [])
                   (shadcn_responses sample_config) "" 0
                   ["Which style would you" ++ LF; "like to use?" ++ LF]))
  = [].
Proof.
  apply (lines_are_answered_one_by_one sample_world
           (mkCmd shadcn_init_command (Some "/tmp/app") [])
           (shadcn_responses sample_config) "" 0
           ["Which style would you" ++ LF; "like to use?" ++ LF]).
  intros output prompt response Hl Hr.
  destruct Hl as [<- | [<- | []]];
    destruct Hr as [Hr | [Hr | [Hr | [Hr | []]]]];
    injection Hr as <- <-; reflexivity.
Defined.

Lemma handled_trace_no_wait (w : World) (c c' : Cmd)
      (responses : list (string * string)) (handled : list (nat * string)) :
  ~ In (EWait c') (handled_trace w c responses handled).
Proof.
  unfold handled_trace. intros Hin. apply in_flat_map in Hin as [line [_ Hin]].
  revert Hin. generalize (w_stdin w c (fst line)). intros pipe Hin.
  assert (Hem : emits (fun e => e <> EWait c')
                      (handle_output pipe c responses "" (snd line))).
  { unfold handle_output. destruct (nonempty (snd line)); [|apply emits_ret].
    cbv zeta. apply emits_bind; [apply emits_emit; discriminate | intros _].
    apply emits_answer_prompt; intros; discriminate. }
  unfold emits in Hem. rewrite Forall_forall in Hem. now apply (Hem _ Hin).
Qed.

(** X6: the whole of [run_command_with_input].  A command that cannot be
    launched raises the launch error right after its launch is logged.
    Otherwise the lines of the child's standard output are handled in
    order.  When an answer cannot be written because the standard input of
    the child is broken, the call ends there with the error of the write:
    the child is not waited for, its standard error is not logged and its
    exit code is not read.  When every answer is written, all the lines
    are handled, the child is waited for, its standard error (if any) is
    logged in one entry, and then the exit code decides: 0 is returned for
    0, and any other code raises [<description> failed: <stderr>]; what was
    written to the child plays no part in it. *)
Theorem run_command_with_input_contract
        (w : World) (command : list string) (dir : option string)
        (description : string) (responses overlay : list (string * string)) :
  match w_launch w (mkCmd command dir overlay) with
  | LaunchError msg =>
      run_command_with_input w command dir description responses overlay
      = ([ELog ("Running: " ++ description); ESpawn (mkCmd command dir overlay)],
         inl (OSError msg))
  | Launched p =>
      match first_broken w (mkCmd command dir overlay) responses 0
                         (Text.readlines (p_stdout p)) with
      | Some msg =>
          run_command_with_input w command dir description responses overlay
          = (([ELog ("Running: " ++ description);
               ESpawn (mkCmd command dir overlay)]
                ++ handled_trace w (mkCmd command dir overlay) responses
                     (read_lines w (mkCmd command dir overlay) responses 0
                                 (Text.readlines (p_stdout p))))%list,
             inl (OSError msg))
          /\ ~ In (EWait (mkCmd command dir overlay))
                  (trace (run_command_with_input w command dir description
                                                 responses overlay))
      | None =>
          run_command_with_input w command dir description responses overlay
          = (([ELog ("Running: " ++ description);
               ESpawn (mkCmd command dir overlay)]
                ++ flat_map (fun output =>
                               trace (handle_output PipeOpen
                                        (mkCmd command dir overlay)
                                        responses "" output))
                            (Text.readlines (p_stdout p))
                ++ [EWait (mkCmd command dir overlay)]
                ++ (if nonempty (p_stderr p) then [ELog (p_stderr p)] else []))%list,
             if (returncode p =? 0)%Z then inr 0%Z
             else inl (PyException (description ++ " failed: " ++ p_stderr p)))
      end
  end.
Proof.
  destruct (w_launch w (mkCmd command dir overlay)) as [msg|p] eqn:HL.
  - unfold run_command_with_input, popen. cbv zeta. rewrite HL. reflexivity.
  - set (c := mkCmd command dir overlay) in *.
    assert (Hrun : run_command_with_input w command dir description responses
                                          overlay
                   = bind (log_message ("Running: " ++ description))
                       (fun _ =>
                          bind (bind (emit (ESpawn c)) (fun _ => ret p))
                            (fun process =>
                               bind (read_and_respond w c responses "" 0
                                       (Text.readlines (p_stdout process)))
                                 (fun _ =>
                                    emit (EWait c) ;;
                                    when (nonempty "") (log_message "") ;;
                                    when (nonempty (p_stderr process))
                                         (log_message (p_stderr process)) ;;
                                    if negb (returncode process =? 0)%Z
                                    then raise (PyException
                                                  (description ++ " failed: "
                                                     ++ p_stderr process))
                                    else ret (returncode process))))).
    { unfold run_command_with_input, popen. cbv zeta. fold c. now rewrite HL. }
    assert (Hp : bind (emit (ESpawn c)) (fun _ => ret p) = ([ESpawn c], inr p))
      by reflexivity.
    rewrite Hp in Hrun. unfold log_message at 1, emit at 1 in Hrun.
    rewrite bind_value, bind_value in Hrun. cbn [outcome snd trace fst] in Hrun.
    pose proof (read_and_respond_outcome w c responses "" 0
                  (Text.readlines (p_stdout p))) as Hout.
    pose proof (read_and_respond_trace w c responses "" 0
                  (Text.readlines (p_stdout p))) as Htr.
    destruct (first_broken w c responses 0 (Text.readlines (p_stdout p)))
      as [msg|] eqn:Hfb.
    + assert (Heq : run_command_with_input w command dir description responses
                                           overlay
                    = (([ELog ("Running: " ++ description); ESpawn c]
                          ++ handled_trace w c responses
                               (read_lines w c responses 0
                                           (Text.readlines (p_stdout p))))%list,
                       inl (OSError msg))).
      { rewrite Hrun, trace_bind, outcome_bind, Hout, Htr.
        now rewrite app_nil_r. }
      split; [exact Heq|]. rewrite Heq. cbn [trace fst app].
      intros [H|[H|H]]; [discriminate | discriminate |].
      now apply handled_trace_no_wait in H.
    + destruct Hout as [b Hout].
      rewrite Hrun, trace_bind, outcome_bind, Hout, Htr.
      rewrite (handled_trace_open _ _ _ _ _ Hfb).
      rewrite trace_bind, outcome_bind. cbn [outcome emit snd trace fst].
      rewrite trace_bind, outcome_bind.
      cbn [outcome when ret snd trace fst nonempty].
      rewrite trace_bind, outcome_bind.
      destruct (nonempty (p_stderr p)), (returncode p =? 0)%Z eqn:Hz;
        cbn [when outcome trace log_message emit ret raise snd fst negb app];
        rewrite ?app_nil_r;
        try (apply Z.eqb_eq in Hz; rewrite Hz); reflexivity.
Qed.

(* ================================================================= *)
(** ** The prompt table of the component-library tool *)

Lemma mismatch_prefix (q p s : string) :
  mismatch q p = true -> prefix q (p ++ s) = false.
Proof.
  revert p. induction q as [|a q IH]; intros [|b p]; cbn; try discriminate.
  destruct (ascii_dec a b) as [->|Hne].
  - rewrite Ascii.eqb_refl. apply IH.
  - reflexivity.
Qed.

Lemma mismatch_all_contains (q p s : string) :
  mismatch_all q p = true ->
  Text.contains q (p ++ s) = Text.contains q s.
Proof.
  induction p as [|b p IH]; [reflexivity|].
  cbn [mismatch_all]. intros H. apply andb_true_iff in H as [H1 H2].
  pose proof (mismatch_prefix q (String b p) s H1) as Hp.
  change (String b p ++ s) with (String b (p ++ s)) in *.
  cbn [Text.contains]. rewrite Hp. now apply IH.
Qed.

(** A text without the first character of [q] does not hold [q]. *)
Lemma contains_first_char (a : ascii) (q s : string) :
  has_char (Ascii.eqb a) s = false ->
  Text.contains (String a q) s = false.
Proof.
  induction s as [|b s IH]; [reflexivity|].
  cbn [has_char Text.contains]. intros H. apply orb_false_iff in H as [H1 H2].
  rewrite (IH H2), orb_false_r. cbn [prefix].
  destruct (ascii_dec a b) as [->|Hne]; [|reflexivity].
  now rewrite Ascii.eqb_refl in H1.
Qed.

Lemma contains_first_char_app (a : ascii) (q pre s : string) :
  has_char (Ascii.eqb a) pre = false ->
  Text.contains (String a q) (pre ++ s) = Text.contains (String a q) s.
Proof.
  induction pre as [|b pre IH]; [reflexivity|].
  cbn [has_char]. intros H. apply orb_false_iff in H as [H1 H2].
  change (String b pre ++ s) with (String b (pre ++ s)).
  cbn [Text.contains]. rewrite (IH H2). cbn [prefix].
  destruct (ascii_dec a b) as [->|Hne]; [|reflexivity].
  now rewrite Ascii.eqb_refl in H1.
Qed.

Lemma no_question_start (a : ascii) (s : string) :
  starts_question a = true ->
  has_char starts_question s = false ->
  has_char (Ascii.eqb a) s = false.
Proof.
  intros Ha. induction s as [|b s IH]; [reflexivity|].
  cbn [has_char]. intros H. apply orb_false_iff in H as [H1 H2].
  rewrite (IH H2), orb_false_r.
  destruct (Ascii.eqb a b) eqn:E; [|reflexivity].
  apply Ascii.eqb_eq in E. congruence.
Qed.

(** Among decoration without a capital W or H, a question [q] of the
    table occurs around another question [p] only if it starts inside
    [p]. *)
Lemma other_question_absent (a : ascii) (q p before after : string) :
  starts_question a = true ->
  has_char starts_question before = false ->
  has_char starts_question after = false ->
  mismatch_all (String a q) p = true ->
  Text.contains (String a q) (before ++ p ++ after) = false.
Proof.
  intros Ha Hb Haf Hm.
  rewrite contains_first_char_app by now apply no_question_start.
  rewrite mismatch_all_contains by exact Hm.
  apply contains_first_char. now apply no_question_start.
Qed.

(** X7: each of the four questions of the prompt table gets the response
    configured for it, for every configuration: when the cleaned line shows
    the question among decoration that holds no capital W or H (the letters
    the questions start with), the response written is that of this very
    question, since no question of the table occurs inside another. *)
Theorem each_question_gets_its_answer
        (cfg : Config) (pipe : Pipe) (c : Cmd)
        (buffer output before after prompt response : string) :
  output <> "" ->
  Regex.sub_empty Regex.ansi_escape (Text.strip output)
  = before ++ prompt ++ after ->
  has_char starts_question before = false ->
  has_char starts_question after = false ->
  In (prompt, response) (shadcn_responses cfg) ->
  handle_output pipe c (shadcn_responses cfg) buffer output
  = match pipe with
    | PipeOpen =>
        ([ELog (before ++ prompt ++ after);
          ELog ("Responding to prompt: " ++ prompt);
          EWrite c response; EFlush c], inr "")
    | WriteFails msg =>
        ([ELog (before ++ prompt ++ after);
          ELog ("Responding to prompt: " ++ prompt);
          EWrite c response], inl (OSError msg))
    | FlushFails msg =>
        ([ELog (before ++ prompt ++ after);
          ELog ("Responding to prompt: " ++ prompt);
          EWrite c response; EFlush c], inl (OSError msg))
    end.
Proof.
  intros Hne Hclean Hb Ha Hin.
  unfold handle_output. rewrite (nonempty_true _ Hne). cbv zeta.
  rewrite Hclean. rewrite (M_eta (bind _ _)), trace_bind, outcome_bind.
  cbn [outcome log_message emit snd trace fst].
  assert (Hhere : Text.contains prompt (before ++ prompt ++ after) = true).
  { apply TextFacts.contains_spec. now exists before, after. }
  assert (Hans : answer_prompt pipe c (shadcn_responses cfg)
                   (before ++ prompt ++ after)
                   (buffer ++ (before ++ prompt ++ after) ++ LF)
                 = (log_message ("Responding to prompt: " ++ prompt) ;;
                    stdin_write pipe c response ;;
                    stdin_flush pipe c ;;
                    ret "")).
  { unfold shadcn_responses in *. cbv zeta in *.
    destruct Hin as [Hin | [Hin | [Hin | [Hin | []]]]];
      injection Hin as <- <-; cbn [answer_prompt]; rewrite Hhere;
      repeat (rewrite other_question_absent;
              [| reflexivity | exact Hb | exact Ha | reflexivity]);
      reflexivity. }
  rewrite Hans. now destruct pipe.
Qed.

Lemma each_question_gets_its_answer_witness :
  handle_output PipeOpen (mkCmd shadcn_init_command (Some "/tmp/app") [])
                (shadcn_responses sample_config) ""
                (ESC ++ "[36m? " ++ ESC ++ "[1m"
                     ++ "Which color would you like to use as the base color?"
                     ++ ESC ++ "[22m - use arrow-keys. Return to submit." ++ LF)
  = ([ELog "? Which color would you like to use as the base color? - use arrow-keys. Return to submit.";
      ELog "Responding to prompt: Which color would you like to use as the base color?";
      EWrite (mkCmd shadcn_init_command (Some "/tmp/app") []) ("zinc" ++ LF);
      EFlush (mkCmd shadcn_init_command (Some "/tmp/app") [])], inr "").
Proof.
  apply (each_question_gets_its_answer
           sample_config PipeOpen
           (mkCmd shadcn_init_command (Some "/tmp/app") []) ""
           (ESC ++ "[36m? " ++ ESC ++ "[1m"
                ++ "Which color would you like to use as the base color?"
                ++ ESC ++ "[22m - use arrow-keys. Return to submit." ++ LF)
           "? " " - use arrow-keys. Return to submit."
           "Which color would you like to use as the base color?"
           ("zinc" ++ LF));
    [discriminate | reflexivity | reflexivity | reflexivity
     | right; left; reflexivity].
Defined.

(* ================================================================= *)
(** ** The commands of a run *)

Lemma subseq_nil_l {T} (l : list T) : subseq [] l.
Proof. induction l; constructor; assumption. Qed.

Lemma subseq_refl {T} (l : list T) : subseq l l.
Proof. induction l; constructor; assumption. Qed.

Lemma subseq_app {T} (a a' b b' : list T) :
  subseq a a' -> subseq b b' -> subseq (a ++ b) (a' ++ b').
Proof.
  intros Ha Hb. induction Ha; cbn; try (constructor; assumption). exact Hb.
Qed.

Lemma subseq_In {T} (a b : list T) (x : T) : subseq a b -> In x a -> In x b.
Proof.
  induction 1 as [|y a b _ IH|y a b _ IH]; cbn; auto.
  intros [H|H]; auto.
Qed.

Lemma subseq_NoDup {T} (a b : list T) : subseq a b -> NoDup b -> NoDup a.
Proof.
  induction 1 as [|y a b Hs IH|y a b Hs IH]; intros Hb.
  - constructor.
  - inversion Hb; subst. auto.
  - inversion Hb; subst. constructor; [|auto].
    intros Hin. apply (subseq_In _ _ _ Hs) in Hin. contradiction.
Qed.

Lemma spawned_In (c : Cmd) (tr : list Event) :
  In c (spawned tr) <-> In (ESpawn c) tr.
Proof.
  unfold spawned. rewrite in_flat_map. split.
  - intros [e [He Hc]]. destruct e; cbn in Hc; try contradiction.
    destruct Hc as [->|[]]. exact He.
  - intros H. exists (ESpawn c). split; [exact H | now left].
Qed.

Lemma spawned_no_launch (tr : list Event) :
  Forall no_launch tr -> spawned tr = [].
Proof.
  induction 1 as [|e tr He _ IH]; [reflexivity|].
  cbn [spawned flat_map]. fold (spawned tr). rewrite IH.
  destruct e; try reflexivity. contradiction.
Qed.

Lemma launches_quiet {A} (m : M A) (cmds : list Cmd) :
  emits no_launch m -> launches m cmds.
Proof.
  intros H. unfold launches. rewrite (spawned_no_launch _ H).
  apply subseq_nil_l.
Qed.

Lemma launches_bind {A B} (m : M A) (f : A -> M B) (l1 l2 : list Cmd) :
  launches m l1 -> (forall a, launches (f a) l2) ->
  launches (bind m f) (l1 ++ l2).
Proof.
  unfold launches. intros Hm Hf. rewrite trace_bind, spawned_app.
  apply subseq_app; [exact Hm|].
  destruct (outcome m); [apply subseq_nil_l | apply Hf].
Qed.

Lemma launches_try {A} (m : M A) (h : Exn -> M A) (l : list Cmd) :
  launches m l -> (forall e, emits no_launch (h e)) ->
  launches (try_except m h) l.
Proof.
  unfold launches. intros Hm Hh. rewrite trace_try, spawned_app.
  replace (spawned match outcome m with
                   | inl e => trace (h e)
                   | inr _ => []
                   end) with (@nil Cmd).
  - now rewrite app_nil_r.
  - destruct (outcome m); [|reflexivity].
    symmetry. apply spawned_no_launch, Hh.
Qed.

Lemma launches_when (b : bool) (m : M unit) (l : list Cmd) :
  launches m l -> launches (when b m) l.
Proof. destruct b; [trivial|]. intros _. apply subseq_nil_l. Qed.

Lemma launches_popen (w : World) (c : Cmd) : launches (popen w c) [c].
Proof.
  unfold launches, popen. rewrite trace_bind. cbn [trace emit fst outcome snd].
  destruct (w_launch w c); apply subseq_refl.
Qed.

Lemma launches_run_command (w : World) (command : list string)
      (dir : option string) (description : string)
      (overlay : list (string * string)) :
  launches (run_command w command dir description overlay)
           [mkCmd command dir overlay].
Proof.
  unfold run_command. cbv zeta.
  apply (launches_bind _ _ [] [_]);
    [apply launches_quiet, emits_emit; exact I | intros _].
  apply (launches_bind _ _ [_] []); [apply launches_popen | intros process].
  apply launches_quiet.
  apply emits_bind.
  { apply emits_for_each. intros x. unfold log_line.
    apply emits_when, emits_emit. exact I. }
  intros _. apply emits_bind; [apply emits_emit; exact I | intros _].
  apply emits_bind; [apply emits_when, emits_emit; exact I | intros _].
  apply emits_bind; [apply emits_when, emits_emit; exact I | intros _].
  destruct (negb _); [apply emits_raise | apply emits_ret].
Qed.

Lemma launches_run_command_with_input (w : World) (command : list string)
      (dir : option string) (description : string)
      (responses overlay : list (string * string)) :
  launches (run_command_with_input w command dir description responses overlay)
           [mkCmd command dir overlay].
Proof.
  unfold run_command_with_input. cbv zeta.
  apply (launches_bind _ _ [] [_]);
    [apply launches_quiet, emits_emit; exact I | intros _].
  apply (launches_bind _ _ [_] []); [apply launches_popen | intros process].
  apply launches_quiet.
  apply emits_bind.
  { apply emits_read_and_respond; intros; exact I. }
  intros _. apply emits_bind; [apply emits_emit; exact I | intros _].
  apply emits_bind; [apply emits_when, emits_emit; exact I | intros _].
  apply emits_bind; [apply emits_when, emits_emit; exact I | intros _].
  destruct (negb _); [apply emits_raise | apply emits_ret].
Qed.

Lemma launches_subprocess_run (w : World) (command : list string) :
  launches (subprocess_run w command) [deps_cmd command].
Proof.
  unfold subprocess_run. cbv zeta.
  apply (launches_bind _ _ [_] []); [apply launches_popen | intros process].
  apply launches_quiet.
  apply emits_bind; [apply emits_emit; exact I | intros _; apply emits_ret].
Qed.

Lemma launches_check_dependencies (w : World) :
  launches (check_dependencies w) (map deps_cmd deps_commands).
Proof.
  unfold check_dependencies. apply launches_try.
  - apply (launches_bind _ _ [_] [_; _; _; _]);
      [apply launches_subprocess_run | intros node_version].
    apply (launches_bind _ _ [_] [_; _; _]);
      [apply launches_subprocess_run | intros npm_version].
    apply (launches_bind _ _ [] [_; _; _]);
      [apply launches_quiet, emits_when, emits_raise | intros _].
    apply (launches_bind _ _ [_; _; _] []);
      [|intros _; apply launches_quiet, emits_ret].
    unfold required_globals. cbn [for_each].
    assert (Hpkg : forall pkg,
               launches
                 (result <- subprocess_run w ["npm"; "list"; "-g"; pkg] ;;
                  when (negb (returncode result =? 0)%Z)
                       (raise (PyException
                                 ("Required global package " ++ pkg ++ " not found"))))
                 [deps_cmd ["npm"; "list"; "-g"; pkg]]).
    { intros pkg.
      apply (launches_bind _ _ [_] []);
        [apply launches_subprocess_run | intros result].
      apply launches_quiet, emits_when, emits_raise. }
    apply (launches_bind _ _ [_] [_; _]); [apply Hpkg | intros _].
    apply (launches_bind _ _ [_] [_]); [apply Hpkg | intros _].
    apply (launches_bind _ _ [_] []); [apply Hpkg | intros _].
    apply launches_quiet, emits_ret.
  - intros e. apply emits_bind; [apply emits_emit; exact I | intros _].
    apply emits_ret.
Qed.

Lemma launches_run_body (cfg : Config) (w : World) :
  launches (run_body cfg w) (pipeline_commands cfg w).
Proof.
  unfold run_body, pipeline_commands. cbv zeta.
  set (dir := w_path_join w (project_path cfg) (project_name cfg)).
  apply launches_bind.
  { unfold deps_block.
    apply (launches_bind _ _ [] (map deps_cmd deps_commands ++ []));
      [apply launches_quiet, emits_emit; exact I | intros _].
    apply launches_bind; [apply launches_check_dependencies | intros ok].
    apply launches_quiet, emits_when, emits_raise. }
  intros _. apply (launches_bind _ _ [_] [_; _; _; _; _; _]).
  { unfold scaffold_block.
    apply (launches_bind _ _ [] [_]);
      [apply launches_quiet, emits_emit; exact I | intros _].
    apply (launches_bind _ _ [] [_]);
      [apply launches_quiet, emits_emit; exact I | intros _].
    apply (launches_bind _ _ [] [_]);
      [apply launches_quiet, emits_emit; exact I | intros _].
    apply (launches_bind _ _ [_] []); [apply launches_popen | intros process].
    apply launches_quiet. apply emits_bind.
    - apply emits_for_each. intros x.
      apply scaffold_line_launches_nothing; intros; exact I.
    - intros _. apply emits_when, emits_raise. }
  intros _. apply (launches_bind _ _ [] [_; _; _; _; _; _]).
  { apply launches_quiet. unfold features_block. apply emits_when.
    apply emits_bind; [apply emits_emit; exact I | intros _; apply emits_raise]. }
  intros _. apply (launches_bind _ _ [_; _] [_; _; _; _]).
  { unfold shadcn_block.
    apply (launches_bind _ _ [] [_; _]);
      [apply launches_quiet, emits_emit; exact I | intros _].
    unfold setup_shadcn_and_utilities. apply launches_try.
    - apply (launches_bind _ _ [] [_; _]);
        [apply launches_quiet, emits_emit; exact I | intros _].
      cbv zeta.
      apply (launches_bind _ _ [_] [_]); [apply launches_run_command | intros _].
      apply (launches_bind _ _ [_] []);
        [apply launches_run_command_with_input | intros _].
      apply launches_quiet, emits_emit. exact I.
    - intros e. apply emits_bind; [apply emits_emit; exact I | intros _].
      apply emits_raise. }
  assert (Hblock : forall b message command description,
             launches
               (when b (progress message ;;
                        _ <- run_command w command (Some dir) description [] ;;
                        ret tt))
               [mkCmd command (Some dir) []]).
  { intros b message command description. apply launches_when.
    apply (launches_bind _ _ [] [_]);
      [apply launches_quiet, emits_emit; exact I | intros _].
    apply (launches_bind _ _ [_] []); [apply launches_run_command | intros _].
    apply launches_quiet, emits_ret. }
  intros _. apply (launches_bind _ _ [_] [_; _; _]); [apply Hblock | intros _].
  apply (launches_bind _ _ [_] [_; _]); [apply Hblock | intros _].
  apply (launches_bind _ _ [_] [_]); [apply Hblock | intros _].
  apply (launches_bind _ _ [_] []).
  { unfold dev_block. apply launches_when.
    apply (launches_bind _ _ [] [_]);
      [apply launches_quiet, emits_emit; exact I | intros _].
    unfold start_dev_server.
    apply (launches_bind _ _ [] [_]);
      [apply launches_quiet, emits_emit; exact I | intros _].
    apply (launches_bind _ _ [_] []); [apply launches_popen | intros process].
    apply launches_quiet.
    apply emits_bind; [apply emits_wait_ready; intros; exact I | intros [port|]];
      [|apply emits_ret].
    apply emits_bind; [apply emits_emit; exact I | intros _].
    apply emits_when.
    apply emits_bind; [apply emits_emit; exact I | intros _].
    apply emits_emit. exact I. }
  intros _. apply launches_quiet.
  apply emits_bind; apply emits_emit || intros _; try exact I.
  apply emits_emit. exact I.
Qed.

Lemma spawned_run (cfg : Config) (w : World) :
  spawned (run cfg w) = spawned (trace (run_body cfg w)).
Proof.
  rewrite run_unfold, spawned_app.
  destruct (outcome (run_body cfg w)); cbn; now rewrite app_nil_r.
Qed.

Lemma pipeline_commands_distinct (cfg : Config) (w : World) :
  NoDup (pipeline_commands cfg w).
Proof.
  unfold pipeline_commands, deps_commands, required_globals, deps_cmd,
    scaffold_cmd, dev_cmd, create_command, shadcn_init_command, dev_command.
  cbn [map app]. cbv zeta.
  repeat (apply NoDup_cons;
          [cbn [In]; intros H;
           repeat (destruct H as [H|H]; [discriminate H|]); exact H|]).
  apply NoDup_nil.
Qed.

(** X8: the commands a run launches are, in this order and each at most
    once, among twelve: the five of the dependency check (no working
    directory, no overlay), the scaffold (in the parent directory, with
    [CI] and [NEXT_TELEMETRY_DISABLED] set), and in the project directory
    the install of the component-library dependencies, the component-library
    init (with [NPM_CONFIG_LEGACY_PEER_DEPS] set), [git init],
    [npm run build], [code .] and [npm run dev].  No command is launched
    twice, for every configuration and whatever the tools do. *)
Theorem commands_of_a_run (cfg : Config) (w : World) :
  subseq (spawned (run cfg w)) (pipeline_commands cfg w)
  /\ NoDup (spawned (run cfg w)).
Proof.
  assert (H : subseq (spawned (run cfg w)) (pipeline_commands cfg w)).
  { rewrite spawned_run. apply launches_run_body. }
  split; [exact H|].
  apply (subseq_NoDup _ _ H), pipeline_commands_distinct.
Qed.

(* ================================================================= *)
(** ** Tools that cannot be launched *)

Section Raises.
Variable F : Cmd -> Exn -> Prop.

Lemma raises_quiet {A} (m : M A) : emits no_launch m -> raises_for F m.
Proof.
  unfold emits. rewrite Forall_forall. intros H c e Hin.
  destruct (H _ Hin).
Qed.

Lemma raises_bind {A B} (m : M A) (f : A -> M B) :
  raises_for F m -> (forall a, raises_for F (f a)) -> raises_for F (bind m f).
Proof.
  intros Hm Hf c e Hin Hc. rewrite trace_bind in Hin. rewrite outcome_bind.
  apply in_app_or in Hin as [Hin | Hin].
  - now rewrite (Hm c e Hin Hc).
  - destruct (outcome m) as [e'|a]; [contradiction|]. now apply (Hf a c e).
Qed.

Lemma raises_when (b : bool) (m : M unit) :
  raises_for F m -> raises_for F (when b m).
Proof. destruct b; [trivial|]. intros _ c e []. Qed.

Lemma raises_after_emit {A} (ev : Event) (m : M A) :
  no_launch ev -> raises_for F m -> raises_for F (emit ev ;; m).
Proof.
  intros Hev Hm. apply raises_bind; [|intros _; exact Hm].
  apply raises_quiet, emits_emit, Hev.
Qed.

Lemma raises_reraise {A} (m : M A) (note : Exn -> string) :
  raises_for F m ->
  raises_for F (try_except m (fun e => log_message (note e) ;; raise e)).
Proof.
  intros Hm c e Hin Hc. rewrite trace_try in Hin. rewrite outcome_try.
  apply in_app_or in Hin as [Hin | Hin].
  - now rewrite (Hm c e Hin Hc).
  - destruct (outcome m) as [e'|a]; [|contradiction].
    destruct Hin as [H|[]]. discriminate.
Qed.

(** A computation that launches [c0] only and raises [e] whenever [F]
    relates [c0] to [e]. *)
Lemma raises_single {A} (c0 : Cmd) (m : M A) :
  launches m [c0] ->
  (forall e, F c0 e -> outcome m = inl e) ->
  raises_for F m.
Proof.
  intros Hl Hm c e Hin Hc. apply spawned_In in Hin.
  apply (subseq_In _ _ _ Hl) in Hin. destruct Hin as [<-|[]].
  now apply Hm.
Qed.
End Raises.

Lemma popen_launch_error {B} (w : World) (c : Cmd) (msg : string)
      (f : Proc -> M B) :
  w_launch w c = LaunchError msg ->
  outcome (bind (popen w c) f) = inl (OSError msg).
Proof.
  intros HL. rewrite outcome_bind. unfold popen.
  rewrite outcome_bind. cbn [outcome emit snd]. now rewrite HL.
Qed.

Lemma raises_run_command (w : World) (command : list string)
      (dir : option string) (description : string)
      (overlay : list (string * string)) :
  raises_for (launch_fails w) (run_command w command dir description overlay).
Proof.
  apply (raises_single _ _ _ (launches_run_command w command dir description overlay)).
  intros e [_ [msg [HL ->]]].
  now rewrite (run_command_launch_error _ _ _ _ _ _ HL).
Qed.

Lemma raises_run_command_with_input (w : World) (command : list string)
      (dir : option string) (description : string)
      (responses overlay : list (string * string)) :
  raises_for (launch_fails w)
             (run_command_with_input w command dir description responses overlay).
Proof.
  apply (raises_single _ _ _
           (launches_run_command_with_input w command dir description
                                            responses overlay)).
  intros e [_ [msg [HL ->]]].
  unfold run_command_with_input. cbv zeta.
  rewrite outcome_bind. cbn [outcome log_message emit snd].
  now apply popen_launch_error.
Qed.

Lemma raises_run_body (cfg : Config) (w : World) :
  raises_for (launch_fails w) (run_body cfg w).
Proof.
  unfold run_body. cbv zeta.
  set (dir := w_path_join w (project_path cfg) (project_name cfg)).
  apply raises_bind.
  { intros c e Hin [Hstep _]. exfalso. apply Hstep.
    pose proof (spawned_block Deps _ (deps_block_emits w)) as Hd.
    rewrite Forall_forall in Hd. apply Hd. now apply spawned_In. }
  intros _. apply raises_bind.
  { unfold scaffold_block.
    do 3 (apply raises_after_emit; [exact I|]).
    apply (raises_single _ (scaffold_cmd cfg)).
    - apply (launches_bind _ _ [_] []); [apply launches_popen | intros process].
      apply launches_quiet. apply emits_bind.
      + apply emits_for_each. intros x.
        apply scaffold_line_launches_nothing; intros; exact I.
      + intros _. apply emits_when, emits_raise.
    - intros e [_ [msg [HL ->]]]. now apply popen_launch_error. }
  intros _. apply raises_bind.
  { apply raises_quiet. unfold features_block. apply emits_when.
    apply emits_bind; [apply emits_emit; exact I | intros _; apply emits_raise]. }
  intros _. apply raises_bind.
  { unfold shadcn_block. apply raises_after_emit; [exact I|].
    unfold setup_shadcn_and_utilities.
    apply (raises_reraise _ _ (fun e => "Error setting up shadcn/ui: " ++ exn_str e)).
    apply raises_after_emit; [exact I|]. cbv zeta.
    apply raises_bind; [apply raises_run_command | intros _].
    apply raises_bind; [apply raises_run_command_with_input | intros _].
    apply raises_quiet, emits_emit. exact I. }
  assert (Hblock : forall b message command description,
             raises_for (launch_fails w)
               (when b (progress message ;;
                        _ <- run_command w command (Some dir) description [] ;;
                        ret tt))).
  { intros b message command description. apply raises_when.
    apply raises_after_emit; [exact I|].
    apply raises_bind; [apply raises_run_command | intros _].
    apply raises_quiet, emits_ret. }
  intros _. apply raises_bind; [apply Hblock | intros _].
  apply raises_bind; [apply Hblock | intros _].
  apply raises_bind; [apply Hblock | intros _].
  apply raises_bind.
  { unfold dev_block. apply raises_when.
    apply raises_after_emit; [exact I|].
    unfold start_dev_server. apply raises_after_emit; [exact I|].
    apply (raises_single _ (dev_cmd dir)).
    - apply (launches_bind _ _ [_] []); [apply launches_popen | intros process].
      apply launches_quiet.
      apply emits_bind; [apply emits_wait_ready; intros; exact I | intros [port|]];
        [|apply emits_ret].
      apply emits_bind; [apply emits_emit; exact I | intros _].
      apply emits_when.
      apply emits_bind; [apply emits_emit; exact I | intros _].
      apply emits_emit. exact I.
    - intros e [_ [msg [HL ->]]]. now apply popen_launch_error. }
  intros _. apply raises_quiet.
  apply emits_bind; [apply emits_emit; exact I | intros _].
  apply emits_emit. exact I.
Qed.

Lemma In_run_body (cfg : Config) (w : World) (c : Cmd) :
  In (ESpawn c) (run cfg w) -> In (ESpawn c) (trace (run_body cfg w)).
Proof.
  intros H. apply spawned_In. rewrite <- spawned_run. now apply spawned_In.
Qed.

(** X9: a tool past the dependency check that cannot be launched (it is
    not installed, or not on the search path) fails the run: whichever of
    the scaffold, the component-library commands, [git], the build, the
    editor or the dev server it is, the run ends with the report of failure
    whose text is [Error: ] and the text of the launch error. *)
Theorem unlaunchable_tool_fails_the_run
        (cfg : Config) (w : World) (c : Cmd) (msg : string) :
  In (ESpawn c) (run cfg w) ->
  command_step (argv c) <> Some Deps ->
  w_launch w c = LaunchError msg ->
  exists pre, run cfg w = (pre ++ failure_report msg)%list.
Proof.
  intros Hin Hstep HL. apply In_run_body in Hin.
  assert (Hout : outcome (run_body cfg w) = inl (OSError msg)).
  { apply (raises_run_body cfg w c); [exact Hin|].
    split; [exact Hstep|]. now exists msg. }
  exists (trace (run_body cfg w)). rewrite run_unfold, Hout. reflexivity.
Qed.

Lemma unlaunchable_tool_fails_the_run_witness :
  exists pre,
    run sample_config no_git_world
    = (pre ++ failure_report "[Errno 2] No such file or directory: 'git'")%list.
Proof.
  apply (unlaunchable_tool_fails_the_run
           sample_config no_git_world
           (mkCmd ["git"; "init"] (Some "/tmp/app") [])
           "[Errno 2] No such file or directory: 'git'");
    [vm_compute; intuition | discriminate | reflexivity].
Defined.

(* ================================================================= *)
(** ** What a report of success means *)

Lemma pipeline_command_steps (cfg : Config) (w : World) (c : Cmd) :
  In c (pipeline_commands cfg w) ->
  In c (map deps_cmd deps_commands)
  \/ exists s, command_step (argv c) = Some s /\ s <> Deps.
Proof.
  unfold pipeline_commands. cbv zeta. intros H.
  apply in_app_or in H as [H|H]; [now left | right].
  destruct H as [<-|H]; [exists Scaffold; split; [reflexivity | discriminate]|].
  repeat (destruct H as [<-|H];
          [eexists; split; [reflexivity | discriminate]|]).
  destruct H.
Qed.

(** X10: a run that reports success has got everything it asked for: each
    command it launched could be launched and exited with 0; for the dev
    server, whose exit code is never read, it could be launched. *)
Theorem success_means_every_tool_worked
        (cfg : Config) (w : World) (pre : list Event) (msg : string) (c : Cmd) :
  run cfg w = (pre ++ [EFinished true msg])%list ->
  In c (spawned (run cfg w)) ->
  worked w c.
Proof.
  intros Hrun Hin.
  assert (Hout : exists u, outcome (run_body cfg w) = inr u).
  { destruct (outcome (run_body cfg w)) as [e|u] eqn:Hout; [|now exists u].
    rewrite run_unfold, Hout in Hrun. unfold failure_report in Hrun.
    change [ELog ?a; EProgress ?b; EFinished ?x ?y]
      with ([ELog a; EProgress b] ++ [EFinished x y])%list in Hrun.
    rewrite app_assoc in Hrun. apply app_inj_tail in Hrun as [_ Heq].
    discriminate. }
  destruct Hout as [u Hout].
  assert (Hpipe : In c (pipeline_commands cfg w)).
  { apply (subseq_In (spawned (run cfg w))); [|exact Hin].
    rewrite spawned_run. apply launches_run_body. }
  apply spawned_In in Hin. pose proof (In_run_body _ _ _ Hin) as Hbody.
  destruct (pipeline_command_steps cfg w c Hpipe) as [Hdeps | [s [Hs Hnd]]].
  - (* a command of the dependency check *)
    assert (Hok : tools_installed w = true).
    { assert (Hd : outcome (deps_block w) = inr tt).
      { unfold run_body in Hout. cbv zeta in Hout. rewrite outcome_bind in Hout.
        destruct (outcome (deps_block w)) as [e|[]]; [discriminate | reflexivity]. }
      rewrite deps_block_decides in Hd.
      destruct (tools_installed w); [reflexivity | discriminate]. }
    apply in_map_iff in Hdeps as [command [<- Hcmd]].
    unfold tools_installed in Hok. rewrite forallb_forall in Hok.
    specialize (Hok command Hcmd).
    unfold worked.
    destruct (command_step (argv (deps_cmd command))) as [[]|] eqn:E;
      try exact Hok.
    exfalso. revert E. clear - Hcmd.
    repeat (destruct Hcmd as [<-|Hcmd]; [discriminate|]). destruct Hcmd.
  - (* a command of a later step *)
    unfold worked. rewrite Hs.
    destruct (w_launch w c) as [m|p] eqn:HL.
    + (* it could not be launched *)
      exfalso.
      assert (He : outcome (run_body cfg w) = inl (OSError m)).
      { apply (raises_run_body cfg w c); [exact Hbody|].
        split; [congruence | now exists m]. }
      congruence.
    + destruct s; try congruence; try (now exists p);
        unfold exits_zero; rewrite HL;
        destruct (returncode p =? 0)%Z eqn:Hz; try reflexivity;
        exfalso; apply Z.eqb_neq in Hz;
        apply in_split in Hbody as [t1 [t2 Hsplit]];
        (assert (Hc : child_fails cfg w c (exit_exception cfg w c p))
          by (unfold child_fails; rewrite Hs; exists p; auto));
        destruct (aborts_run_body cfg w _ _ _ _ Hsplit Hc) as [He _];
        congruence.
Qed.

Lemma success_means_every_tool_worked_witness :
  worked sample_world (mkCmd ["git"; "init"] (Some "/tmp/app") []).
Proof.
  apply (success_means_every_tool_worked
           sample_config sample_world
           (removelast (run sample_config sample_world))
           "Project created successfully!");
    [reflexivity | vm_compute; intuition].
Defined.

(* ================================================================= *)
(** ** What a run reads of the configuration *)

(** X11: two configurations that agree on what [run] reads give the same
    run in every world.  So the package manager, the Turbopack toggle and
    the additional-dependencies entry never change a run; the text of the
    import alias matters only when the custom alias is on; which of the
    seven feature installs are on matters only through whether any is; and
    the browser toggle matters only when the dev server is started. *)
Theorem run_reads_only_its_inputs (cfg1 cfg2 : Config) (w : World) :
  run_inputs cfg1 = run_inputs cfg2 -> run cfg1 w = run cfg2 w.
Proof.
  destruct cfg1, cfg2. unfold run_inputs, any_feature.
  cbn [project_name project_path use_typescript use_tailwind use_eslint
       use_src_dir use_app_router custom_import_alias import_alias
       use_redux use_axios use_router use_auth use_prisma use_forms use_query
       init_git build_project open_vscode start_dev open_browser
       ui_style ui_color use_css_vars react_compat].
  intros H. injection H as; subst.
  unfold run, run_body, features_block, any_feature.
  cbn [use_redux use_axios use_router use_auth use_prisma use_forms use_query].
  match goal with
  | Hf : (_ || _)%bool = (_ || _)%bool |- _ => rewrite Hf; clear Hf
  end.
  repeat match goal with
         | Hi : (if ?b then _ else _) = (if ?b' then _ else _) |- _ =>
             destruct b, b'; try discriminate Hi;
             try (injection Hi as ->)
         end;
    reflexivity.
Qed.

Lemma run_reads_only_its_inputs_witness :
  run turbo_config sample_world = run sample_config sample_world.
Proof.
  exact (run_reads_only_its_inputs turbo_config sample_config sample_world
                                   eq_refl).
Defined.

(* ================================================================= *)
(** ** The run around the dev server *)

Lemma block_event_before_dev (s : Step) (e : Event) :
  s <> DevServer -> block_event s e -> before_dev e.
Proof.
  intros Hs [He | [message [-> _]]]; [|exact I].
  destruct e; cbn in *; try exact I; congruence.
Qed.

Lemma ends_with_dev_server_bind {A} (s : Step) (sds : M unit) (m : M A)
      (f : A -> M unit) :
  s <> DevServer ->
  emits (block_event s) m ->
  (forall a, ends_with_dev_server sds (f a)) ->
  ends_with_dev_server sds (bind m f).
Proof.
  intros Hs Hm Hf.
  assert (Hpre : Forall before_dev (trace m)).
  { revert Hm. apply Forall_impl. intros e. now apply block_event_before_dev. }
  destruct (outcome m) as [e|a] eqn:Hout.
  - exists (trace m). split; [exact Hpre | left].
    rewrite trace_bind, Hout. apply app_nil_r.
  - destruct (Hf a) as [pre [Hp [H | H]]].
    + exists (trace m ++ pre)%list. split; [now apply Forall_app | left].
      rewrite trace_bind, Hout, H. reflexivity.
    + exists (trace m ++ pre)%list. split; [now apply Forall_app | right].
      rewrite (M_eta (bind m f)), trace_bind, outcome_bind, Hout, H.
      cbn [trace outcome fst snd]. now rewrite app_assoc.
Qed.

Lemma run_body_ends_with_dev_server (cfg : Config) (w : World) :
  ends_with_dev_server
    (start_dev_server cfg w (w_path_join w (project_path cfg) (project_name cfg)))
    (run_body cfg w)
  /\ (start_dev cfg = false ->
      Forall before_dev (trace (run_body cfg w))).
Proof.
  assert (Hgen : forall k : M unit,
             ends_with_dev_server
               (start_dev_server cfg w
                  (w_path_join w (project_path cfg) (project_name cfg))) k ->
             ends_with_dev_server
               (start_dev_server cfg w
                  (w_path_join w (project_path cfg) (project_name cfg)))
               (deps_block w ;;
                scaffold_block cfg w
                  (w_path_join w (project_path cfg) (project_name cfg)) ;;
                features_block cfg
                  (w_path_join w (project_path cfg) (project_name cfg)) ;;
                shadcn_block cfg w
                  (w_path_join w (project_path cfg) (project_name cfg)) ;;
                git_block cfg w
                  (w_path_join w (project_path cfg) (project_name cfg)) ;;
                build_block cfg w
                  (w_path_join w (project_path cfg) (project_name cfg)) ;;
                editor_block cfg w
                  (w_path_join w (project_path cfg) (project_name cfg)) ;;
                k)).
  { intros k Hk.
    apply (ends_with_dev_server_bind Deps);
      [discriminate | apply deps_block_emits | intros _].
    apply (ends_with_dev_server_bind Scaffold);
      [discriminate | apply scaffold_block_emits | intros _].
    apply (ends_with_dev_server_bind Features);
      [discriminate | apply features_block_emits | intros _].
    apply (ends_with_dev_server_bind Shadcn);
      [discriminate | apply shadcn_block_emits | intros _].
    apply (ends_with_dev_server_bind Git);
      [discriminate | apply git_block_emits | intros _].
    apply (ends_with_dev_server_bind Build);
      [discriminate | apply build_block_emits | intros _].
    apply (ends_with_dev_server_bind Editor);
      [discriminate | apply editor_block_emits | intros _].
    exact Hk. }
  unfold run_body. cbv zeta.
  set (dir := w_path_join w (project_path cfg) (project_name cfg)) in *.
  unfold dev_block. destruct (start_dev cfg) eqn:Hdev.
  - split; [|discriminate]. apply Hgen.
    exists [EProgress "Starting development server..."].
    split; [repeat constructor | right].
    cbn [when]. rewrite (M_eta (bind _ _)). rewrite !trace_bind, !outcome_bind.
    cbn [outcome trace progress emit fst snd app].
    destruct (outcome (start_dev_server cfg w dir)) as [e|[]]; reflexivity.
  - assert (Hlast : ends_with_dev_server (start_dev_server cfg w dir)
                      (when false (progress "Starting development server..." ;;
                                   start_dev_server cfg w dir) ;;
                       progress ("Project creation completed! " ++ ROCKET) ;;
                       emit (EFinished true "Project created successfully!"))).
    { exists [EProgress ("Project creation completed! " ++ ROCKET);
              EFinished true "Project created successfully!"].
      split; [repeat constructor | left; reflexivity]. }
    split; [exact (Hgen _ Hlast) | intros _].
    match goal with |- Forall ?P (trace ?m) => change (emits P m) end.
    assert (Hb : forall (s : Step) (m : M unit),
               s <> DevServer -> emits (block_event s) m -> emits before_dev m).
    { intros s m Hs. apply emits_weaken. intros e.
      now apply block_event_before_dev. }
    apply emits_bind;
      [apply (Hb Deps); [discriminate | apply deps_block_emits] | intros _].
    apply emits_bind;
      [apply (Hb Scaffold); [discriminate | apply scaffold_block_emits] | intros _].
    apply emits_bind;
      [apply (Hb Features); [discriminate | apply features_block_emits] | intros _].
    apply emits_bind;
      [apply (Hb Shadcn); [discriminate | apply shadcn_block_emits] | intros _].
    apply emits_bind;
      [apply (Hb Git); [discriminate | apply git_block_emits] | intros _].
    apply emits_bind;
      [apply (Hb Build); [discriminate | apply build_block_emits] | intros _].
    apply emits_bind;
      [apply (Hb Editor); [discriminate | apply editor_block_emits] | intros _].
    repeat constructor.
Qed.

(** The run as what comes before the dev server, the dev server and what
    follows it. *)
Lemma run_around_dev_server (cfg : Config) (w : World) :
  forall dir, dir = w_path_join w (project_path cfg) (project_name cfg) ->
  exists pre,
    Forall before_dev pre
    /\ (run cfg w = pre
        \/ (start_dev cfg = true
            /\ run cfg w
               = (pre ++ trace (start_dev_server cfg w dir)
                    ++ match outcome (start_dev_server cfg w dir) with
                       | inr _ =>
                           [EProgress ("Project creation completed! " ++ ROCKET);
                            EFinished true "Project created successfully!"]
                       | inl e => failure_report (exn_str e)
                       end)%list)).
Proof.
  intros dir ->.
  destruct (run_body_ends_with_dev_server cfg w) as [[pre [Hpre Hk]] Hoff].
  rewrite run_unfold.
  destruct (start_dev cfg) eqn:Hdev.
  2:{ exists (trace (run_body cfg w)
                ++ match outcome (run_body cfg w) with
                   | inl e => failure_report (exn_str e)
                   | inr _ => []
                   end)%list.
      split; [|now left]. apply Forall_app. split; [now apply Hoff|].
      destruct (outcome (run_body cfg w)); repeat constructor. }
  destruct Hk as [Hk | Hk].
  - exists (pre ++ match outcome (run_body cfg w) with
                   | inl e => failure_report (exn_str e)
                   | inr _ => []
                   end)%list.
    split; [|left; now rewrite Hk].
    apply Forall_app. split; [exact Hpre|].
    destruct (outcome (run_body cfg w)); repeat constructor.
  - exists pre. split; [exact Hpre | right]. split; [reflexivity|].
    rewrite Hk. cbn [trace outcome fst snd].
    destruct (outcome (start_dev_server cfg w _)) as [e|u];
      rewrite <- !app_assoc; [now rewrite app_nil_l | now rewrite app_nil_r].
Qed.

Lemma browser_requests_app (t1 t2 : list Event) :
  browser_requests (t1 ++ t2)
  = (browser_requests t1 ++ browser_requests t2)%list.
Proof. apply flat_map_app. Qed.

Lemma browser_requests_before_dev (tr : list Event) :
  Forall before_dev tr -> browser_requests tr = [].
Proof.
  induction 1 as [|e tr He _ IH]; [reflexivity|].
  cbn [browser_requests flat_map]. fold (browser_requests tr). rewrite IH.
  destruct e; try reflexivity. contradiction.
Qed.





(** The browser requests of [start_dev_server]. *)
Lemma start_dev_server_browser (cfg : Config) (w : World) (dir : string) :
  browser_requests (trace (start_dev_server cfg w dir)) = []
  \/ (open_browser cfg = true
      /\ exists port,
          browser_requests (trace (start_dev_server cfg w dir))
          = ["http://localhost:" ++ Text.str_of_int port]
          /\ In (ELog ("Development server is ready on port "
                         ++ Text.str_of_int port ++ "!"))
                (trace (start_dev_server cfg w dir))
          /\ outcome (start_dev_server cfg w dir) = inr tt).
Proof.
  unfold start_dev_server.
  rewrite trace_bind, outcome_bind. cbn [outcome log_message emit snd trace fst].
  rewrite trace_bind, outcome_bind.
  assert (Hpopen : browser_requests (trace (popen w (mkCmd dev_command (Some dir) [])))
                   = []).
  { unfold popen. rewrite trace_bind. cbn [trace emit fst outcome snd].
    destruct (w_launch w _); reflexivity. }
  destruct (outcome (popen w (mkCmd dev_command (Some dir) []))) as [e|process].
  { left. rewrite app_nil_r. cbn [app browser_requests flat_map]. exact Hpopen. }
  rewrite trace_bind, outcome_bind.
  set (wr := wait_ready w _).
  assert (Hwr : browser_requests (trace wr) = []).
  { assert (Hem : emits (fun e => match e with EBrowser _ => False | _ => True end) wr)
      by (apply emits_wait_ready; intros; exact I).
    unfold emits in Hem. induction Hem as [|e tr He _ IH]; [reflexivity|].
    cbn [browser_requests flat_map]. fold (browser_requests tr). rewrite IH.
    destruct e; try reflexivity. contradiction. }
  destruct (outcome wr) as [e|[port|]].
  - left. rewrite app_nil_r.
    cbn [app browser_requests flat_map]. fold (browser_requests (trace (popen w (mkCmd dev_command (Some dir) [])) ++ trace wr)).
    now rewrite browser_requests_app, Hpopen, Hwr.
  - destruct (open_browser cfg).
    + right. split; [reflexivity|]. exists port.
      cbn [when]. rewrite trace_bind, outcome_bind.
      cbn [outcome log_message emit snd trace fst].
      rewrite trace_bind, outcome_bind.
      cbn [outcome log_message emit snd trace fst app].
      split; [|split; [|reflexivity]].
      * change (ELog ?a :: ?l)%list with ([ELog a] ++ l)%list.
        rewrite !browser_requests_app, Hpopen, Hwr. reflexivity.
      * right. apply in_or_app. right. apply in_or_app. right. now left.
    + left. cbn [when]. rewrite trace_bind.
      cbn [outcome log_message emit snd trace fst ret app].
      change (ELog ?a :: ?l)%list with ([ELog a] ++ l)%list.
      rewrite !browser_requests_app, Hpopen, Hwr. reflexivity.
  - left. cbn [trace ret fst]. rewrite app_nil_r.
    change (ELog ?a :: ?l)%list with ([ELog a] ++ l)%list.
    rewrite !browser_requests_app, Hpopen, Hwr. reflexivity.
Qed.

(** X13: a run asks for the browser at most once, and only when both the
    dev server and the browser toggle are on; the address asked for is
    then [http://localhost:<port>] for the port the run has just announced
    in its log, and the run reports success. *)
Theorem browser_is_opened_at_most_once (cfg : Config) (w : World) :
  browser_requests (run cfg w) = []
  \/ (start_dev cfg = true /\ open_browser cfg = true
      /\ exists port pre,
          browser_requests (run cfg w)
          = ["http://localhost:" ++ Text.str_of_int port]
          /\ In (ELog ("Development server is ready on port "
                         ++ Text.str_of_int port ++ "!")) (run cfg w)
          /\ run cfg w
             = (pre ++ [EFinished true "Project created successfully!"])%list).
Proof.
  destruct (run_around_dev_server cfg w _ eq_refl) as [pre [Hpre [Hrun | [Hdev Hrun]]]].
  { left. rewrite Hrun. now apply browser_requests_before_dev. }
  set (dir := w_path_join w (project_path cfg) (project_name cfg)) in *.
  assert (Htail : browser_requests
                    match outcome (start_dev_server cfg w dir) with
                    | inr _ =>
                        [EProgress ("Project creation completed! " ++ ROCKET);
                         EFinished true "Project created successfully!"]
                    | inl e => failure_report (exn_str e)
                    end = []).
  { destruct (outcome (start_dev_server cfg w dir)); reflexivity. }
  assert (Hreq : browser_requests (run cfg w)
                 = browser_requests (trace (start_dev_server cfg w dir))).
  { rewrite Hrun, !browser_requests_app, Htail,
      (browser_requests_before_dev _ Hpre), app_nil_r. reflexivity. }
  destruct (start_dev_server_browser cfg w dir)
    as [Hnone | [Hopen [port [Hone [Hlog Hout]]]]].
  - left. now rewrite Hreq.
  - right. split; [exact Hdev | split; [exact Hopen|]].
    exists port,
      (pre ++ trace (start_dev_server cfg w dir)
           ++ [EProgress ("Project creation completed! " ++ ROCKET)])%list.
    split; [now rewrite Hreq | split].
    + rewrite Hrun. apply in_or_app. right. apply in_or_app. now left.
    + rewrite Hrun, Hout, <- !app_assoc. reflexivity.
Qed.

(* ================================================================= *)
(** ** Escape sequences that are removed *)

Lemma length_app (a b : string) :
  String.length (a ++ b) = (String.length a + String.length b)%nat.
Proof. induction a as [|c a IH]; cbn; [reflexivity | now rewrite IH]. Qed.

Lemma star_class_run (p : ascii -> bool) (pre rest : string)
      (k : string -> option string) (r : string) :
  all_chars p pre = true ->
  Regex.star_class p rest k = Some r ->
  Regex.star_class p (pre ++ rest) k = Some r.
Proof.
  intros Hpre Hrest. induction pre as [|c pre IH]; [exact Hrest|].
  cbn [all_chars] in Hpre. apply andb_true_iff in Hpre as [Hc Hpre].
  change (String c pre ++ rest) with (String c (pre ++ rest)).
  cbn [Regex.star_class]. now rewrite Hc, (IH Hpre).
Qed.

Lemma final_not_param (c : ascii) :
  Regex.is_final c = true -> Regex.is_param c = false.
Proof.
  unfold Regex.is_final, Regex.is_param, Text.in_range. intros H.
  apply andb_true_iff in H as [H1 _]. apply N.leb_le in H1.
  apply andb_false_iff. right. apply N.leb_gt. lia.
Qed.

Lemma final_not_intermediate (c : ascii) :
  Regex.is_final c = true -> Regex.is_intermediate c = false.
Proof.
  unfold Regex.is_final, Regex.is_intermediate, Text.in_range. intros H.
  apply andb_true_iff in H as [H1 _]. apply N.leb_le in H1.
  apply andb_false_iff. right. apply N.leb_gt. lia.
Qed.

Lemma intermediate_not_param (c : ascii) :
  Regex.is_intermediate c = true -> Regex.is_param c = false.
Proof.
  unfold Regex.is_intermediate, Regex.is_param, Text.in_range. intros H.
  apply andb_true_iff in H as [_ H2]. apply N.leb_le in H2.
  apply andb_false_iff. left. apply N.leb_gt. lia.
Qed.

(** The pattern matches a whole control sequence at the head of a text. *)
Lemma match_control_sequence (params inters b : string) (f : ascii) :
  all_chars Regex.is_param params = true ->
  all_chars Regex.is_intermediate inters = true ->
  Regex.is_final f = true ->
  Regex.match_at Regex.ansi_escape
                 (ESC ++ "[" ++ params ++ inters ++ String f b)
  = Some b.
Proof.
  intros Hp Hi Hf.
  assert (Hlast : Regex.star_class Regex.is_intermediate (String f b)
                    (fun s' => Regex.match_k (Regex.Class Regex.is_final) s'
                                             (fun rest => Some rest))
                  = Some b).
  { cbn [Regex.star_class Regex.match_k].
    now rewrite (final_not_intermediate f Hf), Hf. }
  cbn. apply star_class_run; [exact Hp|].
  destruct inters as [|i inters].
  - cbn [append Regex.star_class]. rewrite (final_not_param f Hf).
    exact Hlast.
  - pose proof Hi as Hi'. cbn [all_chars] in Hi'.
    apply andb_true_iff in Hi' as [Hic _].
    change (String i inters ++ String f b)
      with (String i (inters ++ String f b)).
    cbn [Regex.star_class]. rewrite (intermediate_not_param i Hic).
    change (String i (inters ++ String f b))
      with (String i inters ++ String f b).
    apply (star_class_run _ _ _ _ _ Hi Hlast).
Qed.

Lemma sub_go_skip (r : Regex.re) (pre rest : string) :
  Regex.sub_go r (pre ++ rest) (String.length pre) = Regex.sub_go r rest 0.
Proof. induction pre as [|c pre IH]; [reflexivity | exact IH]. Qed.

Lemma sub_go_clean_prefix (a s : string) :
  has_char Regex.is_esc a = false ->
  Regex.sub_go Regex.ansi_escape (a ++ s) 0
  = a ++ Regex.sub_go Regex.ansi_escape s 0.
Proof.
  induction a as [|c a IH]; intros H; [reflexivity|].
  cbn [has_char] in H. apply orb_false_iff in H as [Hc Ha].
  change (String c a ++ s) with (String c (a ++ s)).
  cbn [Regex.sub_go]. rewrite (ansi_match_starts_with_esc c _ Hc), (IH Ha).
  reflexivity.
Qed.

(** A match at the head of [ESC ++ body ++ b] that leaves [b] is cut out. *)
Lemma sub_go_cut (body b : string) :
  Regex.match_at Regex.ansi_escape (ESC ++ body ++ b) = Some b ->
  Regex.sub_go Regex.ansi_escape (ESC ++ body ++ b) 0
  = Regex.sub_go Regex.ansi_escape b 0.
Proof.
  intros Hm. change (ESC ++ body ++ b) with (String (ascii_of_N 27) (body ++ b)) in *.
  cbn [Regex.sub_go]. rewrite Hm.
  replace (String.length (String (ascii_of_N 27) (body ++ b)) - String.length b - 1)%nat
    with (String.length body).
  - apply sub_go_skip.
  - cbn [String.length]. rewrite length_app. lia.
Qed.

(** X14: the stripping removes every well-formed escape sequence that
    follows text without an escape character, and nothing else of that
    text: both the two-character sequences (ESC and one character of
    [@-Z] or [\-_]) and the control sequences (ESC, [[], parameter
    characters [0-?], intermediate characters from space to [/], one final
    character [@-~]), such as the colour codes of the tools.  What comes
    after the sequence is stripped in the same way. *)
Theorem escape_sequences_are_removed (a b params inters : string) (f : ascii) :
  has_char Regex.is_esc a = false ->
  (Regex.is_fe f = true ->
   remove_ansi_escape_sequences (a ++ ESC ++ String f b)
   = a ++ remove_ansi_escape_sequences b)
  /\ (all_chars Regex.is_param params = true ->
      all_chars Regex.is_intermediate inters = true ->
      Regex.is_final f = true ->
      remove_ansi_escape_sequences
        (a ++ ESC ++ "[" ++ params ++ inters ++ String f b)
      = a ++ remove_ansi_escape_sequences b).
Proof.
  intros Ha. unfold remove_ansi_escape_sequences, Regex.sub_empty. split.
  - intros Hf. rewrite (sub_go_clean_prefix _ _ Ha). f_equal.
    apply (sub_go_cut (String f "") b). cbn. now rewrite Hf.
  - intros Hp Hi Hf. rewrite (sub_go_clean_prefix _ _ Ha). f_equal.
    assert (Heq : ESC ++ "[" ++ params ++ inters ++ String f b
                  = ESC ++ ("[" ++ params ++ inters ++ String f "") ++ b).
    { cbn [append]. do 2 f_equal.
      rewrite !TextFacts.app_assoc. reflexivity. }
    rewrite Heq. apply sub_go_cut. rewrite <- Heq.
    now apply match_control_sequence.
Qed.

Lemma escape_sequences_are_removed_witness :
  remove_ansi_escape_sequences ("? " ++ ESC ++ "[1;32mWhich style")
  = "? Which style".
Proof.
  exact (proj2 (escape_sequences_are_removed "? " "Which style" "1;32" "" "m"
                                             eq_refl)
               eq_refl eq_refl eq_refl).
Defined.

(* ================================================================= *)
(** ** The window *)

Lemma nonempty_false (s : string) : nonempty s = false <-> s = "".
Proof. destruct s; split; intros H; (reflexivity || discriminate). Qed.

(** X15: pressing the button starts a run only when both the project
    name and the project path are non-empty; otherwise the window warns and
    no thread is started.  The configuration of a started thread carries
    the name and the path as typed, so the scaffold is asked for a
    non-empty project name and is run in the path typed; and while the
    custom-alias box is unchecked the text of the alias field changes
    nothing of the run. *)
Theorem only_named_projects_are_started (f : Form) (w : World) :
  (pressed f w = None <-> name_input f = "" \/ path_input f = "")
  /\ (forall cfg,
         create_project f = ThreadStarted cfg ->
         project_name cfg <> "" /\ project_path cfg <> ""
         /\ nth_error (create_command cfg) 3 = Some (name_input f)
         /\ cwd (scaffold_cmd cfg) = Some (path_input f))
  /\ (alias_check f = false ->
      forall name path alias,
        pressed (typed f name path alias) w
        = pressed (typed f name path "") w).
Proof.
  split; [|split].
  - unfold pressed, create_project. split.
    + intros H. destruct (name_input f) eqn:Hn; [now left|].
      destruct (path_input f) eqn:Hp; [now right|].
      cbn in H. discriminate.
    + intros [H | H]; rewrite H; cbn [nonempty negb orb]; [reflexivity|].
      destruct (nonempty (name_input f)); reflexivity.
  - intros cfg. unfold create_project.
    destruct (nonempty (name_input f)) eqn:Hn;
      destruct (nonempty (path_input f)) eqn:Hp; cbn [negb orb];
      try discriminate.
    intros H. injection H as <-. cbn.
    repeat split; try reflexivity; intros H; rewrite H in *; discriminate.
  - intros Hoff name path alias. unfold pressed, create_project, typed.
    cbn [name_input path_input alias_check alias_input]. rewrite Hoff.
    reflexivity.
Qed.

Lemma only_named_projects_are_started_witness :
  pressed (typed initial_form "app" "" "@/*") sample_world = None.
Proof.
  apply (proj1 (only_named_projects_are_started
                  (typed initial_form "app" "" "@/*") sample_world)).
  right. reflexivity.
Defined.

Lemma dict_get_missing (d : list (string * string)) (key default : string) :
  ~ In key (map fst d) -> dict_get d key default = default.
Proof.
  induction d as [|[k v] d IH]; intros H; [reflexivity|].
  cbn [dict_get]. destruct (String.eqb k key) eqn:E.
  - apply String.eqb_eq in E. exfalso. apply H. now left.
  - apply IH. intros Hin. apply H. now right.
Qed.

Lemma answer_to_style (cfg : Config) :
  answer_to cfg "Which style would you like to use?"
  = dict_get style_map (ui_style cfg) "default" ++ LF.
Proof. reflexivity. Qed.

Lemma answer_to_colour (cfg : Config) :
  answer_to cfg "Which color would you like to use as the base color?"
  = Text.lower (ui_color cfg) ++ LF.
Proof. reflexivity. Qed.

(** X16: the answers to the style and colour questions.  A style that is
    none of the six of the selector is answered with [default].  For a
    palette style (Zinc, Slate, Stone, Gray) the colour selector is
    disabled and offers the name of the style only, and then the colour
    answered is the style answered; for Default and New York the selector
    offers the five colours and the colour answered is the colour chosen, in
    lower case. *)
Theorem style_and_colour_answers (cfg : Config) :
  (~ In (ui_style cfg) style_items ->
   answer_to cfg "Which style would you like to use?" = "default" ++ LF)
  /\ (In (ui_style cfg) style_items ->
      In (ui_color cfg) (fst (update_color_options (ui_style cfg))) ->
      if snd (update_color_options (ui_style cfg))
      then In (ui_style cfg) ["Default"; "New York"]
           /\ In (answer_to cfg "Which color would you like to use as the base color?")
                 (map (fun colour => Text.lower colour ++ LF) color_items)
      else answer_to cfg "Which color would you like to use as the base color?"
           = answer_to cfg "Which style would you like to use?").
Proof.
  rewrite answer_to_style, answer_to_colour. split.
  - intros Hno.
    now rewrite (dict_get_missing style_map (ui_style cfg) "default" Hno).
  - intros Hs. unfold style_items in Hs.
    repeat (destruct Hs as [Hs | Hs];
            [rewrite <- Hs;
             set (options := update_color_options _);
             vm_compute in options; subst options; cbn [fst snd];
             intros Hc |]).
    + split; [now left|].
      apply (in_map (fun colour => Text.lower colour ++ LF)) in Hc. exact Hc.
    + split; [right; now left|].
      apply (in_map (fun colour => Text.lower colour ++ LF)) in Hc. exact Hc.
    + destruct Hc as [<- | []]. reflexivity.
    + destruct Hc as [<- | []]. reflexivity.
    + destruct Hc as [<- | []]. reflexivity.
    + destruct Hc as [<- | []]. reflexivity.
    + destruct Hs.
Qed.

Lemma style_and_colour_answers_witness :
  answer_to (mkConfig "app" "/tmp" "npm" true true true true true false false "@/*"
                      false false false false false false false
                      false false true false false false
                      "Stone" "Stone" true "Use --force")
            "Which color would you like to use as the base color?"
  = "stone" ++ LF.
Proof.
  apply (proj2 (style_and_colour_answers
                  (mkConfig "app" "/tmp" "npm" true true true true true false false
                            "@/*" false false false false false false false
                            false false true false false false
                            "Stone" "Stone" true "Use --force")));
    [do 4 right; left; reflexivity | left; reflexivity].
Defined.

(* ================================================================= *)
(** ** The install that nothing calls *)

Lemma spawned_logs (f : string -> string) (lines : list string) :
  spawned (map (fun l => ELog (f l)) lines) = [].
Proof. induction lines as [|l lines IH]; [reflexivity | exact IH]. Qed.

(** X17: [install_project_dependencies] launches one command, the install
    of the seven component-library dependencies in the project directory
    (the very command [setup_shadcn_and_utilities] launches), returns when
    its child exits with 0, and turns every failure into a plain exception
    whose text starts with [Failed to install project dependencies: ]: a
    launch error keeps its text after it, a non-zero exit code the text
    [Installing project dependencies failed: <stderr>]. *)
Theorem install_project_dependencies_wraps_failures (w : World) (dir : string) :
  spawned (trace (install_project_dependencies w dir))
  = [mkCmd (["npm"; "install"; "--save-dev"] ++ shadcn_deps) (Some dir) []]
  /\ match w_launch w (mkCmd (["npm"; "install"; "--save-dev"] ++ shadcn_deps)
                             (Some dir) []) with
     | LaunchError msg =>
         outcome (install_project_dependencies w dir)
         = inl (PyException ("Failed to install project dependencies: " ++ msg))
     | Launched p =>
         outcome (install_project_dependencies w dir)
         = if (returncode p =? 0)%Z then inr tt
           else inl (PyException
                       ("Failed to install project dependencies: "
                          ++ "Installing project dependencies failed: "
                          ++ p_stderr p))
     end.
Proof.
  unfold install_project_dependencies. cbv zeta.
  rewrite trace_try, outcome_try, trace_bind, !outcome_bind.
  destruct (w_launch w (mkCmd (["npm"; "install"; "--save-dev"] ++ shadcn_deps)
                              (Some dir) [])) as [msg|p] eqn:HL.
  - rewrite (run_command_launch_error _ _ _ _ _ _ HL).
    cbn [outcome trace fst snd]. split; reflexivity.
  - rewrite (run_command_launched _ _ _ _ _ _ HL).
    cbn [outcome trace fst snd].
    destruct (returncode p =? 0)%Z; cbn [outcome trace ret raise fst snd exn_str];
      rewrite ?app_nil_r, !spawned_app, spawned_logs;
      (split; [destruct (nonempty (p_stderr p)); reflexivity | reflexivity]).
Qed.

(* ================================================================= *)
(** ** Closing the window *)






(* ================================================================= *)
(** ** The setup script *)

Lemma setup_trace_bind {A B} (m : Setup.M A) (f : A -> Setup.M B) :
  Setup.trace (Setup.bind m f)
  = (Setup.trace m ++ match Setup.outcome m with
                      | inr a => Setup.trace (f a)
                      | inl _ => []
                      end)%list.
Proof.
  destruct m as [tr [e|a]]; cbn.
  - now rewrite app_nil_r.
  - destruct (f a); reflexivity.
Qed.

Lemma setup_outcome_bind {A B} (m : Setup.M A) (f : A -> Setup.M B) :
  Setup.outcome (Setup.bind m f)
  = match Setup.outcome m with
    | inr a => Setup.outcome (f a)
    | inl e => inl e
    end.
Proof.
  destruct m as [tr [e|a]]; cbn; [reflexivity | destruct (f a); reflexivity].
Qed.

Lemma setup_runs_app (t1 t2 : list Setup.Event) :
  setup_runs (t1 ++ t2) = (setup_runs t1 ++ setup_runs t2)%list.
Proof. apply flat_map_app. Qed.

Lemma until_first_failure_all (w : Setup.World) (cmds : list (list string * bool)) :
  forallb (setup_okb w) cmds = true -> until_first_failure w cmds = cmds.
Proof.
  induction cmds as [|c cmds IH]; [reflexivity|].
  cbn [forallb until_first_failure]. intros H.
  apply andb_true_iff in H as [Hc H]. now rewrite Hc, (IH H).
Qed.

Lemma until_first_failure_app (w : Setup.World) (c1 c2 : list (list string * bool)) :
  until_first_failure w (c1 ++ c2)
  = if forallb (setup_okb w) c1
    then (c1 ++ until_first_failure w c2)%list
    else until_first_failure w c1.
Proof.
  induction c1 as [|c c1 IH]; [reflexivity|].
  cbn [app forallb until_first_failure].
  destruct (setup_okb w c); cbn [andb]; [|reflexivity].
  rewrite IH. now destruct (forallb (setup_okb w) c1).
Qed.

(** First [m1] with its commands, then [m2] with its own. *)
Lemma runs_through_bind (w : Setup.World) (m1 m2 : Setup.M unit)
      (c1 c2 : list (list string * bool)) (then_ok : bool) :
  runs_through w m1 c1 true ->
  runs_through w m2 c2 then_ok ->
  runs_through w (Setup.bind m1 (fun _ => m2)) (c1 ++ c2) then_ok.
Proof.
  unfold runs_through. intros [Hr1 Ho1] [Hr2 Ho2].
  rewrite setup_trace_bind, setup_outcome_bind, setup_runs_app,
    until_first_failure_app, forallb_app, Hr1.
  rewrite andb_true_r in Ho1.
  destruct (forallb (setup_okb w) c1) eqn:H1; cbn [andb].
  - rewrite Ho1, Hr2, (until_first_failure_all w c1 H1). split; [reflexivity|].
    exact Ho2.
  - destruct Ho1 as [e [-> He]]. rewrite app_nil_r. split; [reflexivity|].
    now exists e.
Qed.

(** After [m1], a computation that runs nothing and does not fail. *)
Lemma runs_through_then (w : Setup.World) (m1 m2 : Setup.M unit)
      (c1 : list (list string * bool)) (then_ok : bool) :
  runs_through w m1 c1 then_ok ->
  runs_through w m2 [] true ->
  runs_through w (Setup.bind m1 (fun _ => m2)) c1 then_ok.
Proof.
  unfold runs_through. intros [Hr1 Ho1] [Hr2 Ho2].
  rewrite setup_trace_bind, setup_outcome_bind, setup_runs_app, Hr1.
  cbn in Hr2, Ho2.
  destruct (forallb (setup_okb w) c1 && then_ok).
  - rewrite Ho1, Hr2, Ho2, app_nil_r. now split.
  - destruct Ho1 as [e [-> He]]. rewrite app_nil_r. split; [reflexivity|].
    now exists e.
Qed.

Lemma runs_through_print (w : Setup.World) (text : string) :
  runs_through w (Setup.print w text) []
               (Setup.all_ascii text || Setup.stdout_encodes w text).
Proof.
  unfold runs_through, Setup.print. cbn [forallb andb].
  destruct (Setup.all_ascii text || Setup.stdout_encodes w text).
  - split; reflexivity.
  - split; [reflexivity|]. eexists. split; reflexivity.
Qed.

Lemma runs_through_print_ascii (w : Setup.World) (text : string) :
  Setup.all_ascii text = true ->
  runs_through w (Setup.print w text) [] true.
Proof.
  intros H. pose proof (runs_through_print w text) as Hp.
  now rewrite H in Hp.
Qed.

Lemma handler_leaves (w : Setup.World) (text : string) :
  exists tr e,
    Setup.bind (Setup.print w text) (fun _ => Setup.raise (Setup.SystemExit 1))
    = (tr, @inl _ unit e)
    /\ setup_runs tr = []
    /\ status_of (@inl _ unit e) = 1%Z.
Proof.
  unfold Setup.print.
  destruct (Setup.all_ascii text || Setup.stdout_encodes w text).
  - exists [Setup.Print text], (Setup.SystemExit 1). now repeat split.
  - exists [], (Setup.UnicodeEncodeError (Setup.encode_error w text)).
    now repeat split.
Qed.

(** A handler that prints and leaves with status 1 keeps the commands and
    the way the computation ends. *)
Lemma runs_through_handler (w : Setup.World) (m : Setup.M unit)
      (catches : Setup.Exn -> bool) (text : Setup.Exn -> string)
      (cmds : list (list string * bool)) (then_ok : bool) :
  runs_through w m cmds then_ok ->
  runs_through w
    (Setup.try_except m catches
       (fun e => Setup.bind (Setup.print w (text e))
                            (fun _ => Setup.raise (Setup.SystemExit 1))))
    cmds then_ok.
Proof.
  unfold runs_through. intros [Hr Ho].
  destruct m as [tr [e|[]]]; cbn [Setup.try_except];
    cbn [Setup.trace Setup.outcome fst snd] in *.
  - destruct (forallb (setup_okb w) cmds && then_ok); [discriminate|].
    destruct (catches e); [|now split].
    destruct (handler_leaves w (text e)) as [tr' [e' [-> [Hr' Hs]]]].
    cbn [Setup.trace Setup.outcome fst snd].
    rewrite setup_runs_app, Hr', app_nil_r.
    split; [exact Hr | now exists e'].
  - now split.
Qed.

Lemma runs_through_subprocess_run (w : Setup.World) (cmd : list string)
      (capture : bool) :
  runs_through w (Setup.subprocess_run w cmd capture) [(cmd, capture)] true.
Proof.
  unfold runs_through, Setup.subprocess_run, setup_okb.
  cbn [forallb until_first_failure fst snd andb].
  rewrite setup_trace_bind, setup_outcome_bind.
  cbn [Setup.emit Setup.trace Setup.outcome fst snd].
  unfold setup_okb. cbn [fst snd].
  destruct (Setup.launch w cmd capture) as [nf msg|rc].
  - split; [reflexivity|]. eexists. split; reflexivity.
  - destruct (rc =? 0)%Z; split; try reflexivity.
    eexists. split; reflexivity.
Qed.

Lemma runs_through_run_command (w : Setup.World) (cmd : list string) :
  runs_through w (Setup.run_command w cmd) [(cmd, false)] true.
Proof.
  unfold Setup.run_command.
  apply (runs_through_handler w _ _
           (fun e => "Error running command " ++ Text.join " " cmd ++ ": "
                       ++ Setup.exn_str w e)).
  apply runs_through_subprocess_run.
Qed.

Lemma runs_through_check_tool (w : Setup.World) (cmd : list string)
      (advice : string) :
  runs_through w (Setup.check_tool w cmd advice) [(cmd, true)] true.
Proof.
  unfold Setup.check_tool.
  apply (runs_through_handler w _ _ (fun _ => advice)).
  apply runs_through_subprocess_run.
Qed.

Lemma runs_through_setup_environment (w : Setup.World) :
  runs_through w (Setup.setup_environment w) (setup_commands w)
               (Setup.stdout_encodes w setup_complete_line).
Proof.
  unfold Setup.setup_environment, setup_commands.
  apply (runs_through_bind w _ _ []);
    [apply runs_through_print_ascii; reflexivity|].
  apply runs_through_bind.
  { destruct (Setup.venv_exists w); cbn [negb Setup.when].
    - split; reflexivity.
    - apply (runs_through_bind w _ _ [] [_]);
        [apply runs_through_print_ascii; reflexivity|].
      apply runs_through_run_command. }
  apply (runs_through_bind w _ _ []);
    [apply runs_through_print_ascii; reflexivity|].
  apply (runs_through_bind w _ _ [_]); [apply runs_through_run_command|].
  apply (runs_through_bind w _ _ []);
    [apply runs_through_print_ascii; reflexivity|].
  apply (runs_through_bind w _ _ [_]); [apply runs_through_run_command|].
  apply (runs_through_bind w _ _ [_]); [apply runs_through_check_tool|].
  apply (runs_through_bind w _ _ [_]); [apply runs_through_check_tool|].
  apply (runs_through_bind w _ _ []);
    [apply runs_through_print_ascii; reflexivity|].
  apply (runs_through_bind w _ _ [_]); [apply runs_through_run_command|].
  apply (runs_through_bind w _ _ []);
    [apply runs_through_print_ascii; reflexivity|].
  apply (runs_through_handler w _ _
           (fun e => "Error during verification: " ++ Setup.exn_str w e)).
  apply (runs_through_bind w _ _ [_]); [apply runs_through_run_command|].
  apply (runs_through_bind w _ _ [_]); [apply runs_through_run_command|].
  apply (runs_through_bind w _ _ [_]); [apply runs_through_run_command|].
  apply (runs_through_bind w _ _ [_] []); [apply runs_through_run_command|].
  apply runs_through_then; [apply (runs_through_print w setup_complete_line)|].
  apply (runs_through_bind w _ _ [] []);
    [apply runs_through_print_ascii; reflexivity|].
  apply (runs_through_bind w _ _ [] []).
  { destruct (Setup.os_nt w); apply runs_through_print_ascii; reflexivity. }
  apply (runs_through_bind w _ _ [] []);
    apply runs_through_print_ascii; reflexivity.
Qed.

Lemma runs_through_main (w : Setup.World) :
  runs_through w
    (Setup.try_except (Setup.setup_environment w) Setup.is_exception
       (fun e => Setup.bind (Setup.print w ("Setup failed: " ++ Setup.exn_str w e))
                            (fun _ => Setup.raise (Setup.SystemExit 1))))
    (setup_commands w) (Setup.stdout_encodes w setup_complete_line).
Proof.
  apply (runs_through_handler w _ _
           (fun e => "Setup failed: " ++ Setup.exn_str w e)).
  apply runs_through_setup_environment.
Qed.

(** X20: the setup script runs its commands in one fixed order and stops
    at the first that fails: what it has run is always the list of its
    ten commands (nine where the virtual environment exists already) up to
    and including the first one that cannot be launched or exits with a
    non-zero code.  Nothing is installed after a failure, and nothing is
    left out before one. *)
Theorem setup_stops_at_first_failure (w : Setup.World) :
  setup_runs (fst (Setup.main w)) = until_first_failure w (setup_commands w).
Proof. exact (proj1 (runs_through_main w)). Qed.

(** X21: the exit status of the setup script is 0 or 1, and it is 0
    exactly when every one of its commands can be launched and exits with
    0 and the standard output can take the line with the rocket that ends
    a setup; on a standard output that cannot, the script fails with
    status 1 after everything has been installed. *)
Theorem setup_exit_status (w : Setup.World) :
  snd (Setup.main w)
  = if forallb (setup_okb w) (setup_commands w)
       && Setup.stdout_encodes w setup_complete_line
    then 0%Z else 1%Z.
Proof.
  destruct (runs_through_main w) as [_ Hout].
  change (snd (Setup.main w))
    with (status_of
            (Setup.outcome
               (Setup.try_except (Setup.setup_environment w) Setup.is_exception
                  (fun e =>
                     Setup.bind
                       (Setup.print w ("Setup failed: " ++ Setup.exn_str w e))
                       (fun _ => Setup.raise (Setup.SystemExit 1)))))).
  destruct (forallb (setup_okb w) (setup_commands w)
            && Setup.stdout_encodes w setup_complete_line).
  - now rewrite Hout.
  - destruct Hout as [e [-> He]]. exact He.
Qed.

(** The setup script on a machine where everything works, and on one
    without Node.js: there it stops at the check for [node], before
    anything is installed globally. *)
Example setup_on_ready_machine :
  snd (Setup.main ready_machine) = 0%Z
  /\ List.length (setup_runs (fst (Setup.main ready_machine))) = 10%nat.
Proof. split; reflexivity. Qed.

Example setup_without_node :
  Setup.main no_node_machine
  = ([Setup.Print "Setting up development environment...";
      Setup.Print "Creating Python virtual environment...";
      Setup.Run ["/usr/bin/python3"; "-m"; "venv"; ".venv"] false;
      Setup.Print "Upgrading pip...";
      Setup.Run [".venv/bin/pip"; "install"; "--upgrade"; "pip"] false;
      Setup.Print "Installing Python dependencies...";
      Setup.Run [".venv/bin/pip"; "install"; "-r"; "requirements.txt"] false;
      Setup.Run ["node"; "--version"] true;
      Setup.Print
        "Node.js not found. Please install Node.js (version 20+) from https://nodejs.org/"],
     1%Z).
Proof. reflexivity. Qed.

(* ================================================================= *)
(** ** Why the dependency check fails *)

Lemma required_globals_loop_reason (w : World) (pkgs : list string) (e : Exn) :
  outcome
    (for_each pkgs
       (fun pkg =>
          result <- subprocess_run w ["npm"; "list"; "-g"; pkg] ;;
          when (negb (returncode result =? 0)%Z)
               (raise (PyException
                         ("Required global package " ++ pkg ++ " not found")))))
  = inl e ->
  (exists pkg, In pkg pkgs
               /\ w_launch w (deps_cmd ["npm"; "list"; "-g"; pkg])
                  = LaunchError (exn_str e))
  \/ (exists pkg p,
         In pkg pkgs
         /\ exn_str e = "Required global package " ++ pkg ++ " not found"
         /\ w_launch w (deps_cmd ["npm"; "list"; "-g"; pkg]) = Launched p
         /\ returncode p <> 0%Z).
Proof.
  induction pkgs as [|pkg pkgs IH]; [discriminate|].
  cbn [for_each]. rewrite outcome_bind.
  pose proof (subprocess_run_cases w ["npm"; "list"; "-g"; pkg]) as Hsr.
  destruct (w_launch w (mkCmd ["npm"; "list"; "-g"; pkg] None [])) as [msg|p] eqn:HL;
    rewrite Hsr.
  - rewrite bind_raise. cbn [outcome snd]. intros H. injection H as <-.
    left. exists pkg. split; [now left | exact HL].
  - rewrite bind_value. cbn [outcome snd].
    destruct (returncode p =? 0)%Z eqn:Hz; cbn [negb when outcome raise ret snd].
    + intros H. destruct (IH H) as [[q [Hq Hl]] | [q [p' [Hq Hrest]]]].
      * left. exists q. split; [now right | exact Hl].
      * right. exists q, p'. split; [now right | exact Hrest].
    + intros H. injection H as <-. right. exists pkg, p.
      split; [now left|]. split; [reflexivity|]. split; [exact HL|].
      now apply Z.eqb_neq.
Qed.

(** The check as its [try] body and handler, with the reasons for which
    the body raises. *)
Lemma check_dependencies_reason (w : World) :
  exists inner : M bool,
    check_dependencies w
    = try_except inner
        (fun e => log_message ("Dependency check failed: " ++ exn_str e) ;;
                  ret false)
    /\ match outcome inner with
       | inl e => dependency_failure w (exn_str e)
       | inr b => b = true
       end.
Proof.
  eexists. split; [reflexivity|].
  pose proof (subprocess_run_cases w ["node"; "--version"]) as H1.
  destruct (w_launch w (mkCmd ["node"; "--version"] None [])) as [m1|p1] eqn:E1;
    rewrite H1.
  { rewrite bind_raise. cbn [outcome snd exn_str].
    left. exists ["node"; "--version"]. split; [now left | exact E1]. }
  rewrite bind_value. cbn [outcome snd].
  pose proof (subprocess_run_cases w ["npm"; "--version"]) as H2.
  destruct (w_launch w (mkCmd ["npm"; "--version"] None [])) as [m2|p2] eqn:E2;
    rewrite H2.
  { rewrite bind_raise. cbn [outcome snd exn_str].
    left. exists ["npm"; "--version"]. split; [right; now left | exact E2]. }
  rewrite bind_value. cbn [outcome snd].
  destruct (returncode p1 =? 0)%Z eqn:Hz1; cbn [negb orb].
  2:{ rewrite outcome_bind. cbn [when outcome raise snd exn_str].
      right. left. split; [reflexivity|].
      exists ["node"; "--version"], p1.
      split; [now left|]. split; [exact E1 | now apply Z.eqb_neq]. }
  destruct (returncode p2 =? 0)%Z eqn:Hz2; cbn [negb orb].
  2:{ rewrite outcome_bind. cbn [when outcome raise snd exn_str].
      right. left. split; [reflexivity|].
      exists ["npm"; "--version"], p2.
      split; [right; now left|]. split; [exact E2 | now apply Z.eqb_neq]. }
  rewrite outcome_bind. cbn [when outcome ret snd]. rewrite outcome_bind.
  destruct (outcome (for_each required_globals _)) as [e'|u] eqn:Hloop;
    [|reflexivity].
  destruct (required_globals_loop_reason w required_globals e' Hloop)
    as [[pkg [Hpkg HL]] | [pkg [p [Hpkg [Htext [HL Hrc]]]]]].
  - left. exists ["npm"; "list"; "-g"; pkg]. split; [|exact HL].
    unfold deps_commands. do 2 right.
    exact (in_map (fun pkg => ["npm"; "list"; "-g"; pkg]) _ _ Hpkg).
  - right. right. exists pkg, p. repeat split; auto.
    unfold required_globals in Hpkg.
    destruct Hpkg as [<- | [<- | [<- | []]]]; cbn; auto.
Qed.

(** X22: a failed dependency check always logs why, and the reason is one
    of three kinds: the error text of a command of the check that could not
    be launched; [Node.js and npm are required but not found] when
    [node --version] or [npm --version] exits with a non-zero code; or
    [Required global package <pkg> not found] for the first of next,
    create-next-app and typescript whose [npm list -g] exits with a
    non-zero code, each of which is a package that [setup.py] installs,
    the script the failure report of the run points to. *)
Theorem dependency_failure_reasons (w : World) :
  tools_installed w = false ->
  exists pre reason,
    trace (check_dependencies w)
    = (pre ++ [ELog ("Dependency check failed: " ++ reason)])%list
    /\ dependency_failure w reason.
Proof.
  intros Hno.
  destruct (check_dependencies_reason w) as [inner [Heq Hreason]].
  pose proof (check_dependencies_decides w) as Hout.
  rewrite Hno, Heq, outcome_try in Hout. rewrite Heq, trace_try.
  destruct (outcome inner) as [e|b].
  - exists (trace inner), (exn_str e). now split.
  - subst b. discriminate.
Qed.

Lemma dependency_failure_reasons_witness :
  exists pre reason,
    trace (check_dependencies no_node_world)
    = (pre ++ [ELog ("Dependency check failed: " ++ reason)])%list
    /\ dependency_failure no_node_world reason.
Proof.
  exact (dependency_failure_reasons no_node_world eq_refl).
Defined.

(* ================================================================= *)
(** ** The scaffold step *)

(** X23: the whole of the scaffold step.  The milestone and two log
    entries (the project directory and the command line) come first, then
    the launch.  A scaffold that cannot be launched raises the launch
    error.  Otherwise each line of its standard output is logged, stripped,
    with the milestone that goes with it; its standard error is never
    logged, and it is read only when the child exits with a non-zero code,
    for the text [Project creation failed: <stderr>] of the exception. *)
Theorem scaffold_step_contract (cfg : Config) (w : World) (dir : string) :
  match w_launch w (scaffold_cmd cfg) with
  | LaunchError msg =>
      scaffold_block cfg w dir
      = ([EProgress "Creating Next.js project structure...";
          ELog ("Creating project at: " ++ dir);
          ELog ("Running command: " ++ Text.join " " (create_command cfg));
          ESpawn (scaffold_cmd cfg)],
         inl (OSError msg))
  | Launched p =>
      scaffold_block cfg w dir
      = (([EProgress "Creating Next.js project structure...";
           ELog ("Creating project at: " ++ dir);
           ELog ("Running command: " ++ Text.join " " (create_command cfg));
           ESpawn (scaffold_cmd cfg)]
            ++ flat_map (fun output => trace (scaffold_line output))
                        (Text.readlines (p_stdout p)))%list,
         if (returncode p =? 0)%Z then inr tt
         else inl (PyException ("Project creation failed: " ++ p_stderr p)))
  end.
Proof.
  unfold scaffold_block, popen.
  destruct (w_launch w (scaffold_cmd cfg)) as [msg|p]; [reflexivity|].
  cbv beta iota delta [bind emit progress log_message ret].
  rewrite (for_each_total _ _ scaffold_line_outcome).
  destruct (returncode p =? 0)%Z; cbn [negb when ret raise app];
    rewrite ?app_nil_r; reflexivity.
Qed.

(* ================================================================= *)
(** ** The steps and the commands of a run that succeeds *)

Lemma announces_up_to_bind {A B} (m : M A) (f : A -> M B) (l1 l2 : list Step) :
  steps_run (trace m) = l1 ->
  (forall a, announces_up_to (f a) l2) ->
  announces_up_to (bind m f) (l1 ++ l2).
Proof.
  intros Hm Hf. unfold announces_up_to.
  rewrite trace_bind, outcome_bind, steps_run_app, Hm.
  destruct (outcome m) as [e|a].
  - split; [|discriminate]. exists (List.length l1 + 0)%nat.
    now rewrite firstn_app_2.
  - destruct (Hf a) as [[n Hn] Hall]. split.
    + exists (List.length l1 + n)%nat. now rewrite firstn_app_2, Hn.
    + intros b Hb. now rewrite (Hall b Hb).
Qed.

Lemma optional_block_steps (w : World) (b : bool) (s : Step) (message : string)
      (command : list string) (dir : option string) (description : string) :
  milestone_step message = Some s ->
  command_step command = Some s ->
  steps_run (trace (when b (progress message ;;
                            _ <- run_command w command dir description [] ;;
                            ret tt)))
  = if b then [s] else [].
Proof.
  intros Hm Hc. destruct b; [|reflexivity]. cbn [when].
  apply steps_run_block; [exact Hm|].
  apply emits_bind; [|intros _; apply emits_ret].
  apply emits_run_command; [intros; exact I | exact Hc | exact Hc].
Qed.

Lemma run_body_announces (cfg : Config) (w : World) :
  announces_up_to (run_body cfg w) (enabled_steps cfg).
Proof.
  unfold run_body, enabled_steps. cbv zeta.
  apply (announces_up_to_bind _ _ [Deps]); [apply deps_block_steps | intros _].
  apply (announces_up_to_bind _ _ [Scaffold]);
    [apply scaffold_block_steps | intros _].
  apply announces_up_to_bind.
  { unfold features_block. destruct (any_feature cfg); reflexivity. }
  intros _. apply (announces_up_to_bind _ _ [Shadcn]);
    [apply shadcn_block_steps | intros _].
  apply announces_up_to_bind; [now apply optional_block_steps | intros _].
  apply announces_up_to_bind; [now apply optional_block_steps | intros _].
  apply announces_up_to_bind; [now apply optional_block_steps | intros _].
  rewrite <- (app_nil_r (if start_dev cfg then [DevServer] else [])).
  apply announces_up_to_bind.
  { unfold dev_block. destruct (start_dev cfg); [|reflexivity]. cbn [when].
    apply steps_run_block; [reflexivity | apply start_dev_server_emits]. }
  intros _. split; [now exists 0%nat | reflexivity].
Qed.

Lemma launches_all_bind {A B} (m : M A) (f : A -> M B) (l1 l2 : list Cmd) :
  launches_all m l1 -> (forall a, launches_all (f a) l2) ->
  launches_all (bind m f) (l1 ++ l2).
Proof.
  intros Hm Hf b. rewrite outcome_bind, trace_bind, spawned_app.
  destruct (outcome m) as [e|a] eqn:Hout; [discriminate|].
  intros Hb. now rewrite (Hm a Hout), (Hf a b Hb).
Qed.

Lemma launches_all_always {A} (m : M A) (l : list Cmd) :
  spawned (trace m) = l -> launches_all m l.
Proof. intros H a _. exact H. Qed.

Lemma launches_all_quiet {A} (m : M A) : emits no_launch m -> launches_all m [].
Proof. intros H a _. now apply spawned_no_launch. Qed.

Lemma launches_all_reraise {A} (m : M A) (note : Exn -> string) (l : list Cmd) :
  launches_all m l ->
  launches_all (try_except m (fun e => log_message (note e) ;; raise e)) l.
Proof.
  intros Hm a. rewrite outcome_try, trace_try.
  destruct (outcome m) as [e|a'] eqn:Hout.
  - rewrite outcome_bind. discriminate.
  - intros _. rewrite app_nil_r. apply (Hm a' Hout).
Qed.

(** A launch followed by work that launches nothing. *)
Lemma spawned_after_popen {A} (w : World) (c : Cmd) (rest : Proc -> M A) :
  (forall p, emits no_launch (rest p)) ->
  spawned (trace (bind (popen w c) rest)) = [c].
Proof.
  intros Hrest. rewrite trace_bind, spawned_app.
  assert (Hp : spawned (trace (popen w c)) = [c]).
  { unfold popen. rewrite trace_bind. cbn [trace emit fst outcome snd].
    destruct (w_launch w c); reflexivity. }
  rewrite Hp. destruct (outcome (popen w c)) as [e|p]; [reflexivity|].
  now rewrite (spawned_no_launch _ (Hrest p)).
Qed.

Lemma spawned_after_emit {A} (ev : Event) (m : M A) :
  no_launch ev -> spawned (trace (emit ev ;; m)) = spawned (trace m).
Proof.
  intros Hev. rewrite trace_bind. cbn [trace outcome emit fst snd app].
  destruct ev; try reflexivity. contradiction.
Qed.

Lemma spawned_run_command (w : World) (command : list string)
      (dir : option string) (description : string)
      (overlay : list (string * string)) :
  spawned (trace (run_command w command dir description overlay))
  = [mkCmd command dir overlay].
Proof.
  unfold run_command, log_message at 1. cbv zeta.
  rewrite spawned_after_emit by exact I.
  apply spawned_after_popen. intros process.
  apply emits_bind.
  { apply emits_for_each. intros x. unfold log_line.
    apply emits_when, emits_emit. exact I. }
  intros _. apply emits_bind; [apply emits_emit; exact I | intros _].
  apply emits_bind; [apply emits_when, emits_emit; exact I | intros _].
  apply emits_bind; [apply emits_when, emits_emit; exact I | intros _].
  destruct (negb _); [apply emits_raise | apply emits_ret].
Qed.

Lemma spawned_run_command_with_input (w : World) (command : list string)
      (dir : option string) (description : string)
      (responses overlay : list (string * string)) :
  spawned (trace (run_command_with_input w command dir description
                                         responses overlay))
  = [mkCmd command dir overlay].
Proof.
  unfold run_command_with_input, log_message at 1. cbv zeta.
  rewrite spawned_after_emit by exact I.
  apply spawned_after_popen. intros process.
  apply emits_bind.
  { apply emits_read_and_respond; intros; exact I. }
  intros _. apply emits_bind; [apply emits_emit; exact I | intros _].
  apply emits_bind; [apply emits_when, emits_emit; exact I | intros _].
  apply emits_bind; [apply emits_when, emits_emit; exact I | intros _].
  destruct (negb _); [apply emits_raise | apply emits_ret].
Qed.

Lemma spawned_subprocess_run (w : World) (command : list string) :
  spawned (trace (subprocess_run w command)) = [deps_cmd command].
Proof.
  unfold subprocess_run. cbv zeta. apply spawned_after_popen. intros process.
  apply emits_bind; [apply emits_emit; exact I | intros _; apply emits_ret].
Qed.

(** A check that passes has launched its five commands. *)
Lemma check_dependencies_all_launched (w : World) :
  outcome (check_dependencies w) = inr true ->
  spawned (trace (check_dependencies w)) = map deps_cmd deps_commands.
Proof.
  unfold check_dependencies. rewrite outcome_try, trace_try.
  set (inner := bind (subprocess_run w ["node"; "--version"]) _).
  assert (Hinner : launches_all inner (map deps_cmd deps_commands)).
  { subst inner.
    apply (launches_all_bind _ _ [_] [_; _; _; _]);
      [apply launches_all_always, spawned_subprocess_run | intros node_version].
    apply (launches_all_bind _ _ [_] [_; _; _]);
      [apply launches_all_always, spawned_subprocess_run | intros npm_version].
    apply (launches_all_bind _ _ [] [_; _; _]);
      [apply launches_all_quiet, emits_when, emits_raise | intros _].
    apply (launches_all_bind _ _ [_; _; _] []);
      [|intros _; apply launches_all_quiet, emits_ret].
    unfold required_globals. cbn [for_each].
    assert (Hpkg : forall pkg,
               launches_all
                 (result <- subprocess_run w ["npm"; "list"; "-g"; pkg] ;;
                  when (negb (returncode result =? 0)%Z)
                       (raise (PyException
                                 ("Required global package " ++ pkg ++ " not found"))))
                 [deps_cmd ["npm"; "list"; "-g"; pkg]]).
    { intros pkg.
      apply (launches_all_bind _ _ [_] []);
        [apply launches_all_always, spawned_subprocess_run | intros result].
      apply launches_all_quiet, emits_when, emits_raise. }
    apply (launches_all_bind _ _ [_] [_; _]); [apply Hpkg | intros _].
    apply (launches_all_bind _ _ [_] [_]); [apply Hpkg | intros _].
    apply (launches_all_bind _ _ [_] []); [apply Hpkg | intros _].
    apply launches_all_quiet, emits_ret. }
  destruct (outcome inner) as [e|b] eqn:Hout.
  - rewrite outcome_bind. discriminate.
  - intros _. rewrite app_nil_r. apply (Hinner b Hout).
Qed.

Lemma launches_all_run_body (cfg : Config) (w : World) :
  launches_all (run_body cfg w) (enabled_commands cfg w).
Proof.
  unfold run_body, enabled_commands. cbv zeta.
  set (dir := w_path_join w (project_path cfg) (project_name cfg)).
  apply launches_all_bind.
  { intros u Hu. rewrite deps_block_decides in Hu.
    destruct (tools_installed w) eqn:Hok; [|discriminate].
    rewrite deps_block_trace. apply check_dependencies_all_launched.
    now rewrite check_dependencies_decides, Hok. }
  intros _. apply launches_all_bind.
  { apply launches_all_always. unfold scaffold_block, progress, log_message.
    rewrite !spawned_after_emit by exact I.
    apply spawned_after_popen. intros process. apply emits_bind.
    - apply emits_for_each. intros x.
      apply scaffold_line_launches_nothing; intros; exact I.
    - intros _. apply emits_when, emits_raise. }
  intros _. apply (launches_all_bind _ _ []).
  { apply launches_all_quiet. unfold features_block. apply emits_when.
    apply emits_bind; [apply emits_emit; exact I | intros _; apply emits_raise]. }
  intros _. apply (launches_all_bind _ _ [_; _]).
  { unfold shadcn_block. apply (launches_all_bind _ _ [] [_; _]);
      [apply launches_all_quiet, emits_emit; exact I | intros _].
    unfold setup_shadcn_and_utilities.
    apply (launches_all_reraise _ (fun e => "Error setting up shadcn/ui: " ++ exn_str e)).
    apply (launches_all_bind _ _ [] [_; _]);
      [apply launches_all_quiet, emits_emit; exact I | intros _].
    cbv zeta.
    apply (launches_all_bind _ _ [_] [_]);
      [apply launches_all_always, spawned_run_command | intros _].
    apply (launches_all_bind _ _ [_] []);
      [apply launches_all_always, spawned_run_command_with_input | intros _].
    apply launches_all_quiet, emits_emit. exact I. }
  assert (Hblock : forall b message command description,
             launches_all
               (when b (progress message ;;
                        _ <- run_command w command (Some dir) description [] ;;
                        ret tt))
               (if b then [mkCmd command (Some dir) []] else [])).
  { intros b message command description. destruct b; cbn [when].
    - apply (launches_all_bind _ _ [] [_]);
        [apply launches_all_quiet, emits_emit; exact I | intros _].
      apply (launches_all_bind _ _ [_] []);
        [apply launches_all_always, spawned_run_command | intros _].
      apply launches_all_quiet, emits_ret.
    - apply launches_all_quiet, emits_ret. }
  intros _. apply launches_all_bind; [apply Hblock | intros _].
  apply launches_all_bind; [apply Hblock | intros _].
  apply launches_all_bind; [apply Hblock | intros _].
  rewrite <- (app_nil_r (if start_dev cfg then [dev_cmd dir] else [])).
  apply launches_all_bind.
  { unfold dev_block. destruct (start_dev cfg); cbn [when].
    - apply launches_all_always.
      unfold start_dev_server, progress, log_message at 1.
      rewrite !spawned_after_emit by exact I.
      apply spawned_after_popen. intros process.
      apply emits_bind; [apply emits_wait_ready; intros; exact I | intros [port|]];
        [|apply emits_ret].
      apply emits_bind; [apply emits_emit; exact I | intros _].
      apply emits_when.
      apply emits_bind; [apply emits_emit; exact I | intros _].
      apply emits_emit. exact I.
    - apply launches_all_quiet, emits_ret. }
  intros _. apply launches_all_quiet.
  apply emits_bind; [apply emits_emit; exact I | intros _].
  apply emits_emit. exact I.
Qed.

Lemma success_returns (cfg : Config) (w : World) (pre : list Event) (msg : string) :
  run cfg w = (pre ++ [EFinished true msg])%list ->
  exists u, outcome (run_body cfg w) = inr u
            /\ run cfg w = trace (run_body cfg w).
Proof.
  intros Hrun. destruct (outcome (run_body cfg w)) as [e|u] eqn:Hout.
  - exfalso. rewrite run_unfold, Hout in Hrun. unfold failure_report in Hrun.
    change [ELog ?a; EProgress ?b; EFinished ?x ?y]
      with ([ELog a; EProgress b] ++ [EFinished x y])%list in Hrun.
    rewrite app_assoc in Hrun. apply app_inj_tail in Hrun as [_ Heq].
    discriminate.
  - exists u. split; [reflexivity|]. rewrite run_unfold, Hout. apply app_nil_r.
Qed.

(** A command runner returns exactly when its child is launched and exits
    with 0. *)
Lemma run_command_passes (w : World) (command : list string)
      (dir : option string) (description : string)
      (overlay : list (string * string)) :
  match outcome (run_command w command dir description overlay) with
  | inr _ => exits_zero w (mkCmd command dir overlay) = true
  | inl _ => exits_zero w (mkCmd command dir overlay) = false
  end.
Proof.
  unfold exits_zero.
  destruct (w_launch w (mkCmd command dir overlay)) as [msg|p] eqn:HL.
  - now rewrite (run_command_launch_error _ _ _ _ _ _ HL).
  - rewrite (run_command_launched _ _ _ _ _ _ HL). cbn [outcome snd].
    now destruct (returncode p =? 0)%Z.
Qed.

Lemma scaffold_block_passes (cfg : Config) (w : World) (dir : string) :
  match outcome (scaffold_block cfg w dir) with
  | inr _ => exits_zero w (scaffold_cmd cfg) = true
  | inl _ => exits_zero w (scaffold_cmd cfg) = false
  end.
Proof.
  unfold exits_zero.
  destruct (w_launch w (scaffold_cmd cfg)) as [msg|p] eqn:HL.
  - unfold scaffold_block. rewrite outcome_progress_bind.
    do 2 (rewrite outcome_bind; cbn [outcome log_message emit snd]).
    now rewrite (popen_launch_error _ _ _ _ HL).
  - rewrite (scaffold_block_outcome cfg w dir p HL).
    now destruct (returncode p =? 0)%Z.
Qed.

Lemma spawned_scaffold_block (cfg : Config) (w : World) (dir : string) :
  spawned (trace (scaffold_block cfg w dir)) = [scaffold_cmd cfg].
Proof.
  unfold scaffold_block, progress, log_message.
  rewrite !spawned_after_emit by exact I.
  apply spawned_after_popen. intros process. apply emits_bind.
  - apply emits_for_each. intros x.
    apply scaffold_line_launches_nothing; intros; exact I.
  - intros _. apply emits_when, emits_raise.
Qed.

(** The component-library step launches the install of its packages, and
    the init exactly when the install exits with 0. *)
Lemma spawned_shadcn_block (cfg : Config) (w : World) (dir : string) :
  spawned (trace (shadcn_block cfg w dir))
  = shadcn_install_cmd dir
      :: if exits_zero w (shadcn_install_cmd dir) then [shadcn_init_cmd dir]
         else [].
Proof.
  unfold shadcn_block, progress. rewrite spawned_after_emit by exact I.
  unfold setup_shadcn_and_utilities. rewrite trace_try, spawned_app.
  match goal with
  | |- (_ ++ spawned ?h)%list = _ =>
      assert (Hh : spawned h = []) by (destruct (outcome _); reflexivity);
      rewrite Hh, app_nil_r; clear Hh
  end.
  unfold log_message at 1. rewrite spawned_after_emit by exact I. cbv zeta.
  rewrite trace_bind, spawned_app, spawned_run_command.
  pose proof (run_command_passes w (["npm"; "install"; "--save-dev"] ++ shadcn_deps)
                (Some dir) "Installing dependencies" []) as Hpass.
  fold (shadcn_install_cmd dir) in *.
  destruct (outcome (run_command w _ _ _ _)) as [e|z]; rewrite Hpass;
    [reflexivity|].
  cbn [app]. f_equal.
  rewrite trace_bind, spawned_app, spawned_run_command_with_input.
  fold (shadcn_init_cmd dir).
  destruct (outcome (run_command_with_input w _ _ _ _ _)); reflexivity.
Qed.

(** The dependency check always starts by launching [node --version]. *)
Lemma check_dependencies_starts (w : World) :
  exists rest,
    spawned (trace (check_dependencies w))
    = deps_cmd ["node"; "--version"] :: rest.
Proof.
  unfold check_dependencies. rewrite trace_try, spawned_app, trace_bind,
    spawned_app, spawned_subprocess_run.
  eexists. cbn [app]. reflexivity.
Qed.

(** C5: with every optional toggle off, the steps that run are the
    dependency check, the scaffold and the component-library init and no
    other.  The steps announced are always a first part of that list, every
    command launched belongs to one of the three, and when the dependency
    check passes and the scaffold child exits with 0 the steps announced
    are exactly these three.  The steps are carried out, not only
    announced: the run always starts by launching [node --version]; and
    when the dependency check passes, the commands launched are exactly
    the five commands of the check and the scaffold command, then, when
    the scaffold exits with 0, the install of the component-library
    packages, then, when this install exits with 0, the interactive init
    of the component library, and nothing else. *)
Theorem only_three_steps_when_toggles_off (cfg : Config) (w : World) :
  optional_toggles_off cfg = true ->
  (exists n, steps_run (run cfg w) = firstn n [Deps; Scaffold; Shadcn])
  /\ Forall (fun c => In (command_step (argv c))
                         [Some Deps; Some Scaffold; Some Shadcn])
            (spawned (run cfg w))
  /\ (outcome (check_dependencies w) = inr true ->
      (exists p, w_launch w (scaffold_cmd cfg) = Launched p
                 /\ returncode p = 0%Z) ->
      steps_run (run cfg w) = [Deps; Scaffold; Shadcn])
  /\ (exists rest,
        spawned (run cfg w) = deps_cmd ["node"; "--version"] :: rest)
  /\ (outcome (check_dependencies w) = inr true ->
      let dir := w_path_join w (project_path cfg) (project_name cfg) in
      spawned (run cfg w)
      = (map deps_cmd deps_commands
           ++ scaffold_cmd cfg
           :: if exits_zero w (scaffold_cmd cfg)
              then shadcn_install_cmd dir
                     :: if exits_zero w (shadcn_install_cmd dir)
                        then [shadcn_init_cmd dir]
                        else []
              else [])%list).
Proof.
  intros Hoff.
  pose proof (run_body_toggles_off cfg w Hoff _ eq_refl) as Hbody.
  set (dir := w_path_join w (project_path cfg) (project_name cfg)) in *.
  assert (Hrep : forall e : Exn + unit,
             steps_run (match e with
                        | inl e => failure_report (exn_str e)
                        | inr _ => []
                        end) = []
             /\ spawned (match e with
                         | inl e => failure_report (exn_str e)
                         | inr _ => []
                         end) = []).
  { intros [e|u]; split; reflexivity. }
  destruct (Hrep (outcome (run_body cfg w))) as [Hr1 Hr2].
  assert (Hdone : forall o : Exn + unit,
             spawned (match o with
                      | inl _ => []
                      | inr _ =>
                          [EProgress ("Project creation completed! " ++ ROCKET);
                           EFinished true "Project created successfully!"]
                      end) = []).
  { intros [e|u]; reflexivity. }
  assert (Hdeps_spawned : spawned (trace (deps_block w))
                          = spawned (trace (check_dependencies w))).
  { now rewrite deps_block_trace. }
  split; [|split; [|split; [|split]]].
  - rewrite run_unfold, steps_run_app, Hr1, app_nil_r, Hbody.
    rewrite steps_run_app, deps_block_steps.
    destruct (outcome (deps_block w)); [now exists 1%nat|].
    rewrite steps_run_app, scaffold_block_steps.
    destruct (outcome (scaffold_block cfg w dir)); [now exists 2%nat|].
    rewrite steps_run_app, shadcn_block_steps.
    exists 3%nat. destruct (outcome (shadcn_block cfg w dir)); reflexivity.
  - rewrite run_unfold, spawned_app, Hr2, app_nil_r, Hbody.
    assert (Hin : forall s tr,
               In (Some s) [Some Deps; Some Scaffold; Some Shadcn] ->
               Forall (block_event s) tr ->
               Forall (fun c => In (command_step (argv c))
                                   [Some Deps; Some Scaffold; Some Shadcn])
                      (spawned tr)).
    { intros s tr Hs Htr. apply spawned_block in Htr.
      revert Htr. apply Forall_impl. intros c ->. exact Hs. }
    rewrite spawned_app. apply Forall_app. split.
    { apply (Hin Deps); [cbn; auto | apply deps_block_emits]. }
    destruct (outcome (deps_block w)); [constructor|].
    rewrite spawned_app. apply Forall_app. split.
    { apply (Hin Scaffold); [cbn; auto | apply scaffold_block_emits]. }
    destruct (outcome (scaffold_block cfg w dir)); [constructor|].
    rewrite spawned_app. apply Forall_app. split.
    { apply (Hin Shadcn); [cbn; auto | apply shadcn_block_emits]. }
    destruct (outcome (shadcn_block cfg w dir)); constructor.
  - intros Hdeps [p [HL Hrc]].
    rewrite run_unfold, steps_run_app, Hr1, app_nil_r, Hbody.
    rewrite (deps_block_outcome w Hdeps).
    rewrite (scaffold_block_outcome cfg w dir p HL), Hrc. cbn [Z.eqb].
    rewrite !steps_run_app, deps_block_steps, scaffold_block_steps,
      shadcn_block_steps.
    destruct (outcome (shadcn_block cfg w dir)); reflexivity.
  - rewrite run_unfold, spawned_app, Hr2, app_nil_r, Hbody.
    rewrite spawned_app, Hdeps_spawned.
    destruct (check_dependencies_starts w) as [rest ->].
    eexists. cbn [app]. reflexivity.
  - intros Hdeps. cbv zeta.
    rewrite run_unfold, spawned_app, Hr2, app_nil_r, Hbody.
    rewrite spawned_app, Hdeps_spawned,
      (check_dependencies_all_launched w Hdeps).
    rewrite (deps_block_outcome w Hdeps). f_equal.
    rewrite spawned_app, spawned_scaffold_block. cbn [app]. f_equal.
    pose proof (scaffold_block_passes cfg w dir) as Hpass.
    destruct (outcome (scaffold_block cfg w dir)); rewrite Hpass;
      [reflexivity|].
    rewrite spawned_app, spawned_shadcn_block, Hdone. apply app_nil_r.
Qed.

Lemma only_three_steps_when_toggles_off_witness :
  steps_run (run quiet_config sample_world) = [Deps; Scaffold; Shadcn]
  /\ spawned (run quiet_config sample_world)
     = [deps_cmd ["node"; "--version"];
        deps_cmd ["npm"; "--version"];
        deps_cmd ["npm"; "list"; "-g"; "next"];
        deps_cmd ["npm"; "list"; "-g"; "create-next-app"];
        deps_cmd ["npm"; "list"; "-g"; "typescript"];
        scaffold_cmd quiet_config;
        shadcn_install_cmd "/tmp/app";
        shadcn_init_cmd "/tmp/app"].
Proof.
  pose proof (only_three_steps_when_toggles_off quiet_config sample_world
                eq_refl) as [_ [_ [Hsteps [_ Hcmds]]]].
  split.
  - apply Hsteps; [reflexivity|].
    exists (mkProc ("Creating files" ++ LF) "" 0). split; reflexivity.
  - exact (Hcmds eq_refl).
Defined.

(** X24: the steps a run announces are always a first part of the steps
    its toggles ask for, in the order of the pipeline (the dependency
    check, the scaffold, the feature installs when one is on, the
    component-library init, then git init, build, editor and dev server as
    switched on); and a run that reports success has announced all of them
    and launched exactly their commands, each once, in that order. *)
Theorem steps_follow_the_toggles (cfg : Config) (w : World) :
  (exists n, steps_run (run cfg w) = firstn n (enabled_steps cfg))
  /\ (forall pre msg,
         run cfg w = (pre ++ [EFinished true msg])%list ->
         steps_run (run cfg w) = enabled_steps cfg
         /\ spawned (run cfg w) = enabled_commands cfg w).
Proof.
  destruct (run_body_announces cfg w) as [[n Hn] Hall]. split.
  - exists n. rewrite run_unfold, steps_run_app, Hn.
    destruct (outcome (run_body cfg w)); cbn; apply app_nil_r.
  - intros pre msg Hrun.
    destruct (success_returns cfg w pre msg Hrun) as [u [Hout Htrace]].
    rewrite Htrace. split; [now apply (Hall u)|].
    now apply (launches_all_run_body cfg w u).
Qed.

Lemma steps_follow_the_toggles_witness :
  steps_run (run sample_config sample_world)
  = [Deps; Scaffold; Shadcn; Git; Build; Editor; DevServer]
  /\ List.length (spawned (run sample_config sample_world)) = 12%nat.
Proof.
  destruct (proj2 (steps_follow_the_toggles sample_config sample_world)
                  (removelast (run sample_config sample_world))
                  "Project created successfully!" eq_refl) as [Hs Hc].
  split; [exact Hs | now rewrite Hc].
Defined.
